(** * osmocom-analog: protocol core of the C-Netz, Radiocom 2000 and POCSAG
    base stations.

    A shallow embedding of the parts of [src/pocsag/frame.c],
    [src/r2000/r2000.c], [src/cnetz/cnetz.c] and [src/cnetz/dsp.c] that the
    specification talks about, and the theorems that relate the two.

    Conventions.
    - A C [uint32_t] is a [Z] in [0, 2^32); every operation that can leave
      that range in C ([<<]) is followed by an explicit [u32].  Bit
      operations are [Z.land], [Z.lor], [Z.lxor], [Z.shiftl], [Z.shiftr].
    - A C [double] is a primitive binary64 [float].
    - Log output ([PDEBUG]) is not part of the state, except where a claim
      is about what gets logged; control flow is kept as in the source.
    - Constants, enumerations and helper functions declared in headers that
      are not part of the sources at hand are taken as section variables. *)

From Stdlib Require Import ZArith List Bool Lia String Ascii Btauto.
From Stdlib Require Import QArith Qabs Qround Floats.
Import ListNotations.

Set Warnings "-inexact-float".

Local Open Scope Z_scope.

(** ** Machine integers *)

Definition u32 (x : Z) : Z := x mod 2 ^ 32.
Definition u8 (x : Z) : Z := x mod 2 ^ 8.

(** [x << n] on a [uint32_t]. *)
Definition shl32 (x n : Z) : Z := u32 (Z.shiftl x n).

(** The integers [0 .. n-1], for properties checked case by case. *)
Definition Z_range (n : nat) : list Z := map Z.of_nat (seq 0 n).

Definition pair_eqb (a b : Z * Z) : bool :=
  (fst a =? fst b) && (snd a =? snd b).

(** [errno.h] *)
Definition EINVAL : Z := 22.
Definition ENOMEM : Z := 12.

(** ** POCSAG framing ([src/pocsag/frame.c]) *)

Module Pocsag.

Definition CODEWORD_SYNC : Z := 0x7cd215d8.
Definition CODEWORD_IDLE : Z := 0x7a89c197.

(** The body of the [for] loop of [pocsag_crc], run [n] times from index [i]. *)
Fixpoint crc_loop (n : nat) (i word denominator : Z) : Z :=
  match n with
  | O => word
  | S n' =>
      let word' :=
        if negb (Z.land (Z.shiftr word (30 - i)) 1 =? 0)
        then Z.lxor word denominator
        else word in
      crc_loop n' (i + 1) word' (Z.shiftr denominator 1)
  end.

Definition pocsag_crc (word : Z) : Z :=
  let denominator := 0x76900000 in
  let word := shl32 word 10 in
  Z.land (crc_loop 21 0 word denominator) 0x3ff.

Definition pocsag_parity (word : Z) : Z :=
  let word := Z.lxor word (Z.shiftr word 16) in
  let word := Z.lxor word (Z.shiftr word 8) in
  let word := Z.lxor word (Z.shiftr word 4) in
  let word := Z.lxor word (Z.shiftr word 2) in
  let word := Z.lxor word (Z.shiftr word 1) in
  Z.land word 1.

(** [debug_word]: 0 when the codeword is valid, [-EINVAL] on a CRC or a
    parity error.  The slot only selects what is logged. *)
Definition debug_word (word slot : Z) : Z :=
  if negb (pocsag_crc (Z.shiftr word 11) =? Z.land (Z.shiftr word 1) 0x3ff)
  then - EINVAL
  else if negb (pocsag_parity word =? 0)
  then - EINVAL
  else 0.

(** The fields of [pocsag_msg_t] read by [encode_address]. *)
Record pocsag_msg_t : Type := mk_msg {
  ric : Z;        (* uint32_t *)
  function : Z    (* enum pocsag_function *)
}.

Definition encode_address (msg : pocsag_msg_t) : Z :=
  let word := 0x0 in
  let word := Z.lor (shl32 word 18) (Z.shiftr (ric msg) 3) in
  let word := Z.lor (shl32 word 2) (function msg) in
  let word := Z.lor (shl32 word 10) (pocsag_crc word) in
  let word := Z.lor (shl32 word 1) (pocsag_parity word) in
  word.

(** [decode_address]: the pair [( *ric, *function )]; [slot] is a [uint8_t]. *)
Definition decode_address (word slot : Z) : Z * Z :=
  (u32 (Z.land (Z.shiftr word 10) 0x1ffff8 + slot),
   Z.land (Z.shiftr word 11) 0x3).

(** *** Receiver *)

(** [buf[i] = v] on a buffer held as a list; the source checks the index
    against [sizeof] before every write. *)
Fixpoint list_set (l : list Z) (i : nat) (v : Z) : list Z :=
  match l, i with
  | [], _ => []
  | _ :: l', O => v :: l'
  | x :: l', S i' => x :: list_set l' i' v
  end.

Definition char_codes (s : string) : list Z :=
  map (fun c => Z.of_N (N_of_ascii c)) (list_ascii_of_string s).

Definition numeric : list Z := char_codes "0123456789RU -][".
Definition hex : list Z := char_codes "0123456789abcdef".

Definition ctrlchar : list string :=
  [ "<NUL>"; "<SOH>"; "<STX>"; "<ETX>"; "<EOT>"; "<ENQ>"; "<ACK>"; "<BEL>";
    "<BS>"; "<HT>"; "<LF>"; "<VT>"; "<FF>"; "<CR>"; "<SO>"; "<SI>";
    "<DLE>"; "<DC1>"; "<DC2"; "<DC3>"; "<DC4>"; "<NAK>"; "<SYN>"; "<ETB>";
    "<CAN>"; "<EM>"; "<SUB>"; "<ESC>"; "<FS>"; "<GS>"; "<RS>"; "<US>" ]%string.

(** The receive side of [pocsag_t]. *)
Record pocsag_t : Type := mk_pocsag {
  rx_msg_valid : Z;            (* int, used as a flag *)
  rx_msg_ric : Z;              (* uint32_t *)
  rx_msg_function : Z;         (* enum pocsag_function *)
  rx_msg_data : list Z;        (* char [], one code per cell *)
  rx_msg_data_length : Z;
  rx_msg_bit_index : Z
}.

(** One call of [pocsag_msg_receive (language, kanal, ric, function, text)]:
    a page handed to the upper layer. *)
Record page : Type := mk_page {
  page_ric : Z;
  page_function : Z;
  page_text : string
}.

Section Receiver.

(** Declared in [pocsag.h], which is not among the sources: the two
    function codes that select a text decoder, and the size of the
    receive buffer. *)
Variable POCSAG_FUNCTION_NUMERIC POCSAG_FUNCTION_ALPHA : Z.
Variable sizeof_rx_msg_data : Z.

(** The four-bit digit at position [i] of a message codeword, LSB first. *)
Definition rx_digit (word i : Z) : Z :=
  let digit := Z.land (Z.shiftr word (27 - i * 4)) 0x1 in
  let digit := u8 (Z.lor (Z.shiftl digit 1) (Z.land (Z.shiftr word (28 - i * 4)) 0x1)) in
  let digit := u8 (Z.lor (Z.shiftl digit 1) (Z.land (Z.shiftr word (29 - i * 4)) 0x1)) in
  let digit := u8 (Z.lor (Z.shiftl digit 1) (Z.land (Z.shiftr word (30 - i * 4)) 0x1)) in
  digit.

(** The loop shared by [decode_numeric] and [decode_hex]: [n] iterations
    from index [i], with the early [return] when the buffer is full. *)
Fixpoint decode_digits (table : list Z) (n : nat) (i : Z) (pocsag : pocsag_t)
    (word : Z) : pocsag_t :=
  match n with
  | O => pocsag
  | S n' =>
      if rx_msg_data_length pocsag =? sizeof_rx_msg_data then pocsag
      else
        let digit := rx_digit word i in
        let len := rx_msg_data_length pocsag in
        let pocsag' :=
          mk_pocsag (rx_msg_valid pocsag) (rx_msg_ric pocsag)
            (rx_msg_function pocsag)
            (list_set (rx_msg_data pocsag) (Z.to_nat len)
               (nth (Z.to_nat digit) table 0))
            (len + 1) (rx_msg_bit_index pocsag) in
        decode_digits table n' (i + 1) pocsag' word
  end.

Definition decode_numeric (pocsag : pocsag_t) (word : Z) : pocsag_t :=
  decode_digits numeric 5 0 pocsag word.

Definition decode_hex (pocsag : pocsag_t) (word : Z) : pocsag_t :=
  decode_digits hex 5 0 pocsag word.

(** [decode_alpha]: twenty payload bits shifted into seven-bit characters. *)
Fixpoint decode_alpha_loop (n : nat) (i : Z) (pocsag : pocsag_t) (word : Z)
    : pocsag_t :=
  match n with
  | O => pocsag
  | S n' =>
      if rx_msg_data_length pocsag =? sizeof_rx_msg_data then pocsag
      else
        let len := rx_msg_data_length pocsag in
        let cur :=
          if rx_msg_bit_index pocsag =? 0 then 0x00
          else nth (Z.to_nat len) (rx_msg_data pocsag) 0 in
        let cur := Z.shiftr cur 1 in
        let cur := Z.lor cur (Z.shiftl (Z.land (Z.shiftr word (30 - i)) 0x1) 6) in
        let data := list_set (rx_msg_data pocsag) (Z.to_nat len) cur in
        let pocsag' :=
          if rx_msg_bit_index pocsag + 1 =? 7
          then mk_pocsag (rx_msg_valid pocsag) (rx_msg_ric pocsag)
                 (rx_msg_function pocsag) data (len + 1) 0
          else mk_pocsag (rx_msg_valid pocsag) (rx_msg_ric pocsag)
                 (rx_msg_function pocsag) data len
                 (rx_msg_bit_index pocsag + 1) in
        decode_alpha_loop n' (i + 1) pocsag' word
  end.

Definition decode_alpha (pocsag : pocsag_t) (word : Z) : pocsag_t :=
  decode_alpha_loop 20 0 pocsag word.

(** The printable text that [done_rx_msg] builds from the received cells. *)
Fixpoint rx_text (data : list Z) : string :=
  match data with
  | [] => EmptyString
  | c :: rest =>
      if c =? 127 then ("<DEL>" ++ rx_text rest)%string
      else if c <? 32 then (nth (Z.to_nat c) ctrlchar EmptyString ++ rx_text rest)%string
      else String (ascii_of_N (Z.to_N c)) (rx_text rest)
  end.

(** [done_rx_msg]: deliver the pending page, if any. *)
Definition done_rx_msg (pocsag : pocsag_t) : pocsag_t * list page :=
  if rx_msg_valid pocsag =? 0 then (pocsag, [])
  else
    let text :=
      rx_text (firstn (Z.to_nat (rx_msg_data_length pocsag)) (rx_msg_data pocsag)) in
    (mk_pocsag 0 (rx_msg_ric pocsag) (rx_msg_function pocsag)
       (rx_msg_data pocsag) (rx_msg_data_length pocsag)
       (rx_msg_bit_index pocsag),
     [mk_page (rx_msg_ric pocsag) (rx_msg_function pocsag) text]).

(** [put_codeword (pocsag, word, slot, subslot)]; the result is the new
    receiver state and the pages delivered during the call. *)
Definition put_codeword (pocsag : pocsag_t) (word slot subslot : Z)
    : pocsag_t * list page :=
  if (slot <? 0) && (word =? CODEWORD_SYNC) then (pocsag, [])
  else
    let rc := debug_word word slot in
    if rc <? 0 then done_rx_msg pocsag
    else if word =? CODEWORD_IDLE then done_rx_msg pocsag
    else if Z.land word 0x80000000 =? 0 then
      let '(pocsag, pages) := done_rx_msg pocsag in
      let '(r, f) := decode_address word (u8 slot) in
      (mk_pocsag 1 r f (rx_msg_data pocsag) 0 0, pages)
    else if rx_msg_valid pocsag =? 0 then (pocsag, [])
    else if rx_msg_function pocsag =? POCSAG_FUNCTION_NUMERIC
    then (decode_numeric pocsag word, [])
    else if rx_msg_function pocsag =? POCSAG_FUNCTION_ALPHA
    then (decode_alpha pocsag word, [])
    else (decode_hex pocsag word, []).

(** The receiver fed a sequence of [(word, slot, subslot)], as the
    demodulator does codeword by codeword. *)
Fixpoint put_codewords (pocsag : pocsag_t) (ws : list (Z * Z * Z))
    : pocsag_t * list page :=
  match ws with
  | [] => (pocsag, [])
  | (word, slot, subslot) :: rest =>
      let '(pocsag', pages) := put_codeword pocsag word slot subslot in
      let '(pocsag'', pages') := put_codewords pocsag' rest in
      (pocsag'', pages ++ pages')
  end.

End Receiver.

(** An idle codeword at a [(slot, subslot)] of the batch. *)
Definition idle_at (pos : Z * Z) : Z * Z * Z :=
  (CODEWORD_IDLE, fst pos, snd pos).

(** The exclusive-or of the [n] low bits of [w]: what [pocsag_parity]
    computes for [n = 32]. *)
Fixpoint xor_bits (w : Z) (n : nat) : bool :=
  match n with
  | O => false
  | S n' => xorb (Z.testbit w (Z.of_nat n')) (xor_bits w n')
  end.

End Pocsag.

(** ** Radiocom 2000 supervisory digit ([src/r2000/r2000.c]) *)

Module R2000.

(** [r2000_encode_super]: the supervisory digit sent to the phone, from
    [sysinfo.nconv] (a [uint8_t]) and [sysinfo.relais] (a [uint16_t]). *)
Definition r2000_encode_super (sysinfo_nconv sysinfo_relais : Z) : Z :=
  let nconv := u8 sysinfo_nconv in
  let relais := u8 (Z.land sysinfo_relais 0xf) in
  (* LSB first *)
  let super :=
    u8 (Z.lor (Z.lor (Z.lor (Z.lor (Z.lor (Z.lor
         (Z.land (Z.shiftl nconv 2) 0x04)
         (Z.land nconv 0x02))
         (Z.land (Z.shiftr nconv 2) 0x01))
         (Z.land (Z.shiftl relais 6) 0x40))
         (Z.land (Z.shiftl relais 4) 0x20))
         (Z.land (Z.shiftl relais 2) 0x10))
         (Z.land relais 0x08)) in
  u8 (Z.lxor super 0x7f).

(** The decoding done at the head of [r2000_receive_super]: the pair
    [(nconv, relais)] read from the received digit [super] (a [uint8_t]);
    in loopback the digit is inverted first. *)
Definition receive_super_decode (loopback : bool) (super : Z) : Z * Z :=
  let super := if loopback then u8 (Z.lxor super 0x7f) else super in
  let nconv :=
    u8 (Z.lor (Z.lor
         (Z.land (Z.shiftr super 2) 0x01)
         (Z.land super 0x02))
         (Z.land (Z.shiftl super 2) 0x04)) in
  let relais :=
    u8 (Z.lor (Z.lor (Z.lor
         (Z.land (Z.shiftr super 6) 0x01)
         (Z.land (Z.shiftr super 4) 0x02))
         (Z.land (Z.shiftr super 2) 0x04))
         (Z.land super 0x08)) in
  (nconv, relais).

(** [r2000_receive_super]: [true] when the digit is taken as the
    supervisory signal of this base station (the audio is unmuted and the
    supervisory timer restarted), [false] when the function returns early. *)
Definition r2000_receive_super (loopback state_active : bool)
    (sysinfo_nconv sysinfo_relais super : Z) : bool :=
  let '(nconv, relais) := receive_super_decode loopback super in
  if loopback then false
  else if negb state_active then false
  else if negb (relais =? Z.land sysinfo_relais 0xf)
          || negb (nconv =? sysinfo_nconv) then false
  else true.

(** Decoding what was encoded, for one [nconv] and one 4-bit relay. *)
Definition decode_encode_ok (nconv relais : Z) : bool :=
  let super := r2000_encode_super nconv relais in
  pair_eqb (receive_super_decode true super) (nconv, relais)
  && pair_eqb (receive_super_decode false (Z.lxor super 0x7f)) (nconv, relais)
  && (0 <=? super) && (super <? 128).

(** Encoding what was decoded, for one 7-bit digit. *)
Definition encode_decode_ok (super : Z) : bool :=
  let '(nconv, relais) := receive_super_decode false super in
  (r2000_encode_super nconv relais =? Z.lxor super 0x7f)
  && (0 <=? nconv) && (nconv <=? 7) && (0 <=? relais) && (relais <=? 15).

End R2000.

(** ** C-Netz ([src/cnetz/cnetz.c], [src/cnetz/dsp.c]) *)

(** [(double)k] for an [int] [k]. *)
Definition double_of_int (k : Z) : float :=
  if k <? 0 then (- of_uint63 (Uint63.of_Z (- k)))%float
  else of_uint63 (Uint63.of_Z k).

(** [fmod] of [math.h] on binary64: the exact remainder [x - n * y] with
    [n] the quotient truncated towards zero, carrying the sign of [x], also
    when it is zero (C standard, 7.12.10.1 and F.10.7.1).  Both operands are
    brought to a common exponent, the remainder is taken on the integer
    mantissas and normalised to the format. *)
Definition c_fmod (x y : float) : float :=
  match Prim2SF x, Prim2SF y with
  | S754_nan, _ => nan
  | _, S754_nan => nan
  | S754_infinity _, _ => nan
  | _, S754_zero _ => nan
  | S754_zero _, _ => x
  | S754_finite _ _ _, S754_infinity _ => x
  | S754_finite sx mx ex, S754_finite _ my ey =>
      let e := Z.min ex ey in
      let r := (Z.pos mx * 2 ^ (ex - e)) mod (Z.pos my * 2 ^ (ey - e)) in
      SF2Prim (binary_normalize prec emax (cond_Zopp sx r) e sx)
  end.

(** The exact rational value of a finite binary64 number. *)
Definition float_value (f : float) : option Q :=
  match Prim2SF f with
  | S754_zero _ => Some 0%Q
  | S754_finite s m e =>
      let q := if 0 <=? e then inject_Z (Z.pos m * 2 ^ e)
               else Qmake (Z.pos m) (Z.to_pos (2 ^ (- e))) in
      Some (if s then Qopp q else q)
  | _ => None
  end.

(** [2 ^ e] as a rational, for any integer [e]. *)
Definition Qpow2 (e : Z) : Q :=
  if 0 <=? e then inject_Z (2 ^ e) else 1 # Z.to_pos (2 ^ (- e)).

(** The value of the finite binary number of sign [s], mantissa [m] and
    exponent [e], as [float_value] gives it. *)
Definition SF_value (s : bool) (m : positive) (e : Z) : Q :=
  let q := if 0 <=? e then inject_Z (Z.pos m * 2 ^ e)
           else Qmake (Z.pos m) (Z.to_pos (2 ^ (- e))) in
  if s then Qopp q else q.

(** The slot-clock correction as the spec words it (section 4.3), on exact
    rationals; [cnetz_sync_frame] below is compared with it.

    [x mod y]: [x] minus the multiple of [y] just below it, in [0, y). *)
Definition Qmodulo (x y : Q) : Q := (x - inject_Z (Qfloor (x / y)) * y)%Q.

(** The fold of the spec: the phase modulo the modulus, minus the modulus
    when above half of it. *)
Definition spec_fold (phase modulus : Q) : Q :=
  let offset := Qmodulo phase modulus in
  if Qle_bool offset (modulus / 2) then offset else (offset - modulus)%Q.

(** The rule of the spec: the full offset when its magnitude is above half
    a bit, half of it otherwise. *)
Definition spec_correction (offset : Q) : Q :=
  if Qle_bool (Qabs offset) (1 # 2) then (offset / 2)%Q else offset.

Module Cnetz.

(** [cnetz_kanal2freq]: the frequency in MHz of channel [kanal]; a
    non-zero [unterband] asks for the frequency of the mobile station. *)
Definition cnetz_kanal2freq (kanal unterband : Z) : float :=
  let freq := 465.750%float in
  let freq :=
    if negb (Z.land kanal 1 =? 0)
    then (freq - double_of_int (kanal + 1) / 2.0 * 0.010)%float
    else (freq - double_of_int kanal / 2.0 * 0.0125)%float in
  let freq := if negb (unterband =? 0) then (freq - 10.0)%float else freq in
  freq.

(** The channel numbers of the spec (section 6): odd 1..947, even 2..758. *)
Definition valid_kanal (k : Z) : bool :=
  if Z.odd k then (1 <=? k) && (k <=? 947) else (2 <=? k) && (k <=? 758).

(** The frequency of the base station in MHz as the spec gives it
    (section 6), as an exact rational: 465.750 MHz minus [(k+1)/2] times
    10 kHz for an odd [k], minus [k/2] times 12.5 kHz for an even [k]. *)
Definition nominal_freq (k : Z) : Q :=
  if Z.odd k
  then (465750 # 1000) - inject_Z ((k + 1) / 2) * (10 # 1000)
  else (465750 # 1000) - inject_Z (k / 2) * (125 # 10000).

(** For one channel: both results of [cnetz_kanal2freq] are finite, the
    downlink is within [2^-45] MHz of the nominal value (half a unit in the
    last place of a binary64 number between 256 and 512), and the uplink is
    the downlink minus 10. *)
Definition kanal2freq_ok (k : Z) : bool :=
  match float_value (cnetz_kanal2freq k 0), float_value (cnetz_kanal2freq k 1) with
  | Some down, Some up =>
      Qle_bool (Qabs (down - nominal_freq k)) (1 # 2 ^ 45)
      && Qeq_bool up (down - 10)
  | _, _ => false
  end.

Section SyncFrame.

(** Declared in [cnetz.h], which is not among the sources: the length in
    bits of a block and of a super-frame, as the [double]s the expressions
    of [cnetz_sync_frame] use. *)
Variable BITS_PER_BLOCK BITS_PER_SUPERFRAME : float.

(** [cnetz_sync_frame (cnetz, sync, block)]: the argument it passes to
    [fsk_correct_sync].  A negative [block] means that the absolute slot
    is not known. *)
Definition cnetz_sync_frame (sync : float) (block : Z) : float :=
  let offset :=
    if block >=? 0 then
      (* offset is the actual sync relative to bit_time *)
      let offset :=
        c_fmod (sync - BITS_PER_BLOCK * double_of_int block + BITS_PER_SUPERFRAME)%float
               BITS_PER_SUPERFRAME in
      if (BITS_PER_SUPERFRAME / 2 <? offset)%float
      then (offset - BITS_PER_SUPERFRAME)%float else offset
    else
      (* sync to the nearest block *)
      let offset := c_fmod sync BITS_PER_BLOCK in
      if (BITS_PER_BLOCK / 2 <? offset)%float
      then (offset - BITS_PER_BLOCK)%float else offset in
  (* if more than +- one bit out of sync *)
  if (offset <? -0.5)%float || (0.5 <? offset)%float then offset
  else (* resync by some fraction of received sync error *)
    (offset / 2.0)%float.

End SyncFrame.

(** *** Channels and transactions *)

(** [enum dsp_mode]: the three modes the code names, and any other value of
    the enumeration (the [default:] branches). *)
Inductive dsp_mode_t : Type :=
  | DSP_MODE_OGK | DSP_MODE_SPK_K | DSP_MODE_SPK_V | DSP_MODE_other.

Inductive cnetz_state_t : Type := CNETZ_IDLE | CNETZ_BUSY.

(** The state flags of a transaction; [TRANS_0] is the value 0 that
    [destroy_transaction] writes. *)
Inductive trans_state_t : Type :=
  | TRANS_0 | TRANS_EM | TRANS_UM | TRANS_MA | TRANS_VWG | TRANS_WAF
  | TRANS_WBP | TRANS_WBN | TRANS_VAG | TRANS_VAK | TRANS_BQ | TRANS_VHQ
  | TRANS_RTA | TRANS_DS | TRANS_AHQ | TRANS_AF | TRANS_AT.

Scheme Equality for dsp_mode_t.
Scheme Equality for cnetz_state_t.
Scheme Equality for trans_state_t.

(** The opcodes this file sends or receives; [OPCODE_0] is the value left
    by [memset (&telegramm, 0, ...)]. *)
Inductive opcode_t : Type :=
  | OPCODE_0
  | OPCODE_LR_R | OPCODE_EBQ_R | OPCODE_UBQ_R | OPCODE_WBN_R | OPCODE_WBP_R
  | OPCODE_VAG_R | OPCODE_VAK_R | OPCODE_MLR_M | OPCODE_WAF_M
  | OPCODE_EM_R | OPCODE_UM_R | OPCODE_VWG_R | OPCODE_SRG_R | OPCODE_WUE_M
  | OPCODE_BQ_K | OPCODE_VHQ_K | OPCODE_DSB_K | OPCODE_RTA_K | OPCODE_AHQ_K
  | OPCODE_AF_K | OPCODE_BEL_K | OPCODE_DSQ_K | OPCODE_VH_K | OPCODE_RTAQ_K
  | OPCODE_AH_K | OPCODE_AT_K
  | OPCODE_VHQ1_V | OPCODE_VHQ2_V | OPCODE_AF_V | OPCODE_VH_V | OPCODE_AT_V
  | OPCODE_other.

(** [transaction_t].  [t_ptr] is the address of the allocated block: it is
    what a [transaction_t *] holds, and what tells two transactions apart.
    [timer] is [timer_running (&trans->timer)]. *)
Record transaction_t : Type := mk_trans {
  t_ptr : Z;
  t_state : trans_state_t;
  futln_nat : Z;      (* uint8_t *)
  futln_fuvst : Z;    (* uint8_t *)
  futln_rest : Z;     (* uint16_t *)
  mo_call : Z;
  mt_call : Z;
  count : Z;
  release_cause : Z;  (* uint8_t *)
  dialing : string;
  timer : bool
}.

Definition trans_new_state (trans : transaction_t) (state : trans_state_t)
    : transaction_t :=
  mk_trans (t_ptr trans) state (futln_nat trans) (futln_fuvst trans)
    (futln_rest trans) (mo_call trans) (mt_call trans) (count trans)
    (release_cause trans) (dialing trans) (timer trans).

Definition set_count (trans : transaction_t) (n : Z) : transaction_t :=
  mk_trans (t_ptr trans) (t_state trans) (futln_nat trans) (futln_fuvst trans)
    (futln_rest trans) (mo_call trans) (mt_call trans) n
    (release_cause trans) (dialing trans) (timer trans).

Definition set_release_cause (trans : transaction_t) (cause : Z) : transaction_t :=
  mk_trans (t_ptr trans) (t_state trans) (futln_nat trans) (futln_fuvst trans)
    (futln_rest trans) (mo_call trans) (mt_call trans) (count trans)
    (u8 cause) (dialing trans) (timer trans).

Definition set_dialing (trans : transaction_t) (digits : string) : transaction_t :=
  mk_trans (t_ptr trans) (t_state trans) (futln_nat trans) (futln_fuvst trans)
    (futln_rest trans) (mo_call trans) (mt_call trans) (count trans)
    (release_cause trans) digits (timer trans).

(** [timer_start] and [timer_stop]; the duration is not modelled. *)
Definition set_timer (trans : transaction_t) (running : bool) : transaction_t :=
  mk_trans (t_ptr trans) (t_state trans) (futln_nat trans) (futln_fuvst trans)
    (futln_rest trans) (mo_call trans) (mt_call trans) (count trans)
    (release_cause trans) (dialing trans) running.

Definition timer_start (trans : transaction_t) : transaction_t := set_timer trans true.
Definition timer_stop (trans : transaction_t) : transaction_t := set_timer trans false.

(** What leaves the channel towards call control or the log, in order. *)
Inductive event : Type :=
  | Destroying_transaction (trans : transaction_t)   (* [destroy_transaction] *)
  | Call_in_setup (callref : Z) (trans : transaction_t)
  | Call_in_alerting (callref : Z)
  | Call_in_answer (callref : Z) (trans : transaction_t)
  | Call_in_release (callref cause : Z).

(** [cnetz_t], with the fields of [sender_t] that this file reads.  The
    transaction list is the linked list from [trans_list] along [next];
    [events] collects what the channel emitted, oldest first. *)
Record cnetz_t : Type := mk_cnetz {
  kanal : Z;               (* sender.kanal *)
  loopback : Z;            (* sender.loopback *)
  callref : Z;             (* sender.callref *)
  state : cnetz_state_t;
  dsp_mode : dsp_mode_t;
  sched_dsp_mode : dsp_mode_t;
  sched_switch_mode : Z;
  sched_ts : Z;
  sched_r_m : Z;
  last_tx_timeslot : Z;
  scrambler : Z;
  trans_list : list transaction_t;
  events : list event
}.

Definition set_callref (c : cnetz_t) (v : Z) : cnetz_t :=
  mk_cnetz (kanal c) (loopback c) v (state c) (dsp_mode c) (sched_dsp_mode c)
    (sched_switch_mode c) (sched_ts c) (sched_r_m c) (last_tx_timeslot c)
    (scrambler c) (trans_list c) (events c).

Definition set_state (c : cnetz_t) (v : cnetz_state_t) : cnetz_t :=
  mk_cnetz (kanal c) (loopback c) (callref c) v (dsp_mode c) (sched_dsp_mode c)
    (sched_switch_mode c) (sched_ts c) (sched_r_m c) (last_tx_timeslot c)
    (scrambler c) (trans_list c) (events c).

Definition set_dsp_mode (c : cnetz_t) (v : dsp_mode_t) : cnetz_t :=
  mk_cnetz (kanal c) (loopback c) (callref c) (state c) v (sched_dsp_mode c)
    (sched_switch_mode c) (sched_ts c) (sched_r_m c) (last_tx_timeslot c)
    (scrambler c) (trans_list c) (events c).

(** [cnetz->sched_switch_mode = n; cnetz->sched_dsp_mode = m;] *)
Definition schedule_switch (c : cnetz_t) (n : Z) (m : dsp_mode_t) : cnetz_t :=
  mk_cnetz (kanal c) (loopback c) (callref c) (state c) (dsp_mode c) m
    n (sched_ts c) (sched_r_m c) (last_tx_timeslot c)
    (scrambler c) (trans_list c) (events c).

Definition set_sched_switch_mode (c : cnetz_t) (n : Z) : cnetz_t :=
  schedule_switch c n (sched_dsp_mode c).

Definition set_slot (c : cnetz_t) (ts r_m : Z) : cnetz_t :=
  mk_cnetz (kanal c) (loopback c) (callref c) (state c) (dsp_mode c)
    (sched_dsp_mode c) (sched_switch_mode c) ts r_m (last_tx_timeslot c)
    (scrambler c) (trans_list c) (events c).

Definition set_last_tx_timeslot (c : cnetz_t) (v : Z) : cnetz_t :=
  mk_cnetz (kanal c) (loopback c) (callref c) (state c) (dsp_mode c)
    (sched_dsp_mode c) (sched_switch_mode c) (sched_ts c) (sched_r_m c) v
    (scrambler c) (trans_list c) (events c).

Definition set_scrambler (c : cnetz_t) (v : Z) : cnetz_t :=
  mk_cnetz (kanal c) (loopback c) (callref c) (state c) (dsp_mode c)
    (sched_dsp_mode c) (sched_switch_mode c) (sched_ts c) (sched_r_m c)
    (last_tx_timeslot c) v (trans_list c) (events c).

Definition set_trans_list (c : cnetz_t) (l : list transaction_t) : cnetz_t :=
  mk_cnetz (kanal c) (loopback c) (callref c) (state c) (dsp_mode c)
    (sched_dsp_mode c) (sched_switch_mode c) (sched_ts c) (sched_r_m c)
    (last_tx_timeslot c) (scrambler c) l (events c).

Definition emit (c : cnetz_t) (e : event) : cnetz_t :=
  mk_cnetz (kanal c) (loopback c) (callref c) (state c) (dsp_mode c)
    (sched_dsp_mode c) (sched_switch_mode c) (sched_ts c) (sched_r_m c)
    (last_tx_timeslot c) (scrambler c) (trans_list c) (events c ++ [e]).

(** [*trans = f ( *trans )] for the transaction at address [p]. *)
Definition update_trans (c : cnetz_t) (p : Z) (f : transaction_t -> transaction_t)
    : cnetz_t :=
  set_trans_list c
    (map (fun t => if t_ptr t =? p then f t else t) (trans_list c)).

(** The subscriber comparison of [call_out_setup] and [create_transaction]. *)
Definition same_futln (trans : transaction_t) (nat fuvst rest : Z) : bool :=
  (futln_nat trans =? nat) && (futln_fuvst trans =? fuvst)
  && (futln_rest trans =? rest).

(** [destroy_transaction]: unlink the transaction at address [p] from the
    list of its channel; [None] is the [abort ()] taken when it is not in
    the list. *)
Fixpoint unlink (l : list transaction_t) (p : Z)
    : option (transaction_t * list transaction_t) :=
  match l with
  | [] => None
  | t :: l' =>
      if t_ptr t =? p then Some (t, l')
      else match unlink l' p with
           | Some (x, l'') => Some (x, t :: l'')
           | None => None
           end
  end.

Definition destroy_transaction (c : cnetz_t) (p : Z) : option cnetz_t :=
  match unlink (trans_list c) p with
  | None => None
  | Some (trans, l) => Some (emit (set_trans_list c l) (Destroying_transaction trans))
  end.

(** [search_transaction]: the first transaction whose state is in the mask. *)
Definition search_transaction (c : cnetz_t) (state_mask : list trans_state_t)
    : option transaction_t :=
  find (fun t => existsb (trans_state_t_beq (t_state t)) state_mask) (trans_list c).

(** The mask [~0]: every state flag. *)
Definition all_states : list trans_state_t :=
  [ TRANS_EM; TRANS_UM; TRANS_MA; TRANS_VWG; TRANS_WAF; TRANS_WBP; TRANS_WBN;
    TRANS_VAG; TRANS_VAK; TRANS_BQ; TRANS_VHQ; TRANS_RTA; TRANS_DS; TRANS_AHQ;
    TRANS_AF; TRANS_AT ].

(** Code that can [abort ()] returns an [option]; [None] is the abort. *)
Notation "x <- e ;; k" :=
  (match e with Some x => k | None => None end)
  (at level 61, e at next level, right associativity).

Section Protocol.

(** Declared in headers that are not among the sources ([cause.h],
    [cnetz.h], [sysinfo.h], [telegramm.h]): the call-control causes, the
    release causes of the air interface, the channel number of the
    organisation channel, the repeat counts of the release telegrams and
    the time-slot mask of the system information. *)
Variable CAUSE_NORMAL CAUSE_BUSY CAUSE_NOANSWER CAUSE_OUTOFORDER : Z.
Variable CAUSE_INVALNUMBER CAUSE_NOCHANNEL CAUSE_TEMPFAIL : Z.
Variable CNETZ_CAUSE_GASSENBESETZT CNETZ_CAUSE_TEILNEHMERBESETZT : Z.
Variable CNETZ_CAUSE_FUNKTECHNISCH : Z.
Variable N_AFKT N_AFV : Z.
Variable ogk_timeslot_mask : Z.

(** [cnetz_cause_isdn2cnetz] *)
Definition cnetz_cause_isdn2cnetz (cause : Z) : Z :=
  if (cause =? CAUSE_NORMAL) || (cause =? CAUSE_BUSY) || (cause =? CAUSE_NOANSWER)
  then u8 CNETZ_CAUSE_TEILNEHMERBESETZT
  else u8 CNETZ_CAUSE_GASSENBESETZT.

(** [cnetz_go_idle]: abort connection, if any, and send idle broadcast. *)
Definition cnetz_go_idle (c : cnetz_t) : cnetz_t :=
  let c :=
    if negb (callref c =? 0)
    then set_callref (emit c (Call_in_release (callref c) CAUSE_NORMAL)) 0
    else c in
  (* set scheduler to OgK *)
  let c := set_state c CNETZ_IDLE in
  match dsp_mode c with
  | DSP_MODE_SPK_K | DSP_MODE_SPK_V =>
      (* go idle after next frame/slot *)
      schedule_switch c 1 DSP_MODE_OGK
  | _ => set_dsp_mode (set_sched_switch_mode c 0) DSP_MODE_OGK
  end.

(** [cnetz_release]: initiate release of the connection on the speech
    channel, for the transaction at address [p]. *)
Definition cnetz_release (c : cnetz_t) (p : Z) (cause : Z) : cnetz_t :=
  let c := update_trans c p (fun t => trans_new_state t TRANS_AF) in
  let c := update_trans c p (fun t => set_release_cause t cause) in
  let c := set_sched_switch_mode c 0 in
  let c := update_trans c p (fun t => set_count t 0) in
  update_trans c p timer_stop.

(** [create_transaction].  [alloc] is what [calloc] returns: the address
    of a block, or [None] for a null pointer.  The result is the channel
    and the pointer returned. *)
Definition create_transaction (c : cnetz_t) (state : trans_state_t)
    (futln_nat futln_fuvst futln_rest : Z) (alloc : option Z)
    : option (cnetz_t * option Z) :=
  let futln_nat := u8 futln_nat in
  let futln_fuvst := u8 futln_fuvst in
  let futln_rest := futln_rest mod 2 ^ 16 in
  (* search transaction for this subscriber *)
  c <- match find (fun t => same_futln t futln_nat futln_fuvst futln_rest)
               (trans_list c) with
       | Some trans => destroy_transaction c (t_ptr trans)
       | None => Some c
       end ;;
  match alloc with
  | None => Some (c, None)
  | Some p =>
      let trans :=
        mk_trans p state futln_nat futln_fuvst futln_rest
          (if trans_state_t_beq state TRANS_VWG then 1 else 0)
          (if trans_state_t_beq state TRANS_VAK then 1 else 0)
          0 0 EmptyString false in
      (* attach to end of list, so first transaction is served first *)
      Some (set_trans_list c (trans_list c ++ [trans]), Some p)
  end.

(** [trans->next] for the transaction at address [p]: [Some (Some q)] when
    the next in the list is at [q], [Some None] for a null [next], [None]
    when [p] is not in the list. *)
Fixpoint trans_next (l : list transaction_t) (p : Z) : option (option Z) :=
  match l with
  | [] => None
  | t :: l' =>
      if t_ptr t =? p then Some (match l' with [] => None | t' :: _ => Some (t_ptr t') end)
      else trans_next l' p
  end.

(** The second loop of [cnetz_flush_other_transactions]:
    [while (cnetz->trans_list != trans) destroy_transaction (cnetz->trans_list);]
    Every turn shortens the list, so its length bounds the number of turns;
    a list that runs empty makes the next turn dereference a null pointer. *)
Fixpoint flush_before (turns : nat) (c : cnetz_t) (p : Z) : option cnetz_t :=
  match trans_list c with
  | [] => None
  | t :: _ =>
      if t_ptr t =? p then Some c
      else match turns with
           | O => None
           | S turns' =>
               c' <- destroy_transaction c (t_ptr t) ;;
               flush_before turns' c' p
           end
  end.

(** [cnetz_flush_other_transactions (cnetz, trans)].  The first loop,
    [while (trans->next) destroy_transaction (trans);], destroys [trans]
    itself and then reads the freed block: it is undefined as soon as it is
    entered.  It is not entered when [trans] is the last of the list. *)
Definition cnetz_flush_other_transactions (c : cnetz_t) (p : Z) : option cnetz_t :=
  match trans_next (trans_list c) p with
  | Some None => flush_before (List.length (trans_list c)) c p
  | _ => None
  end.

(** *** Call control towards the mobile station *)

Definition is_digit (ch : ascii) : bool :=
  let n := Z.of_N (N_of_ascii ch) in (48 <=? n) && (n <=? 57).

Definition digit_value (ch : ascii) : Z := Z.of_N (N_of_ascii ch) - 48.

(** [atoi] on a string that starts with decimal digits: the value of the
    leading digits. *)
Fixpoint atoi_from (acc : Z) (s : string) : Z :=
  match s with
  | String ch rest =>
      if is_digit ch then atoi_from (acc * 10 + digit_value ch) rest else acc
  | EmptyString => acc
  end.

Definition atoi (s : string) : Z := atoi_from 0 s.

(** [dialing + n] *)
Definition str_skip (n : nat) (s : string) : string :=
  substring n (String.length s - n) s.

(** [dialing[i]], the terminating NUL included. *)
Definition char_at (s : string) (i : nat) : ascii :=
  match String.get i s with Some ch => ch | None => Ascii.zero end.

(** The first step of [call_out_setup]: [dialing] after the optional
    [dialing += 4]. *)
Definition effective_number (dialing : string) : string :=
  if (String.length dialing =? 11)%nat && String.prefix "0160" dialing
  then str_skip 4 dialing else dialing.

(** The checks of step 1 of [call_out_setup], on the effective number:
    [true] when the [inval:] label is reached. *)
Definition number_invalid (dialing : string) : bool :=
  if negb (String.length dialing =? 7)%nat then true
  else if negb (forallb (fun i => is_digit (char_at dialing i)) (seq 0 7)) then true
  else if 65535 <? atoi (str_skip 2 dialing) then true
  else false.

(** The senders before the first one that satisfies [f], that one, and the
    senders after it: where a [for (sender = sender_head; ...)] loop with a
    [break] stops. *)
Fixpoint first_sender (f : cnetz_t -> bool) (senders : list cnetz_t)
    : option (list cnetz_t * cnetz_t * list cnetz_t) :=
  match senders with
  | [] => None
  | c :: rest =>
      if f c then Some ([], c, rest)
      else match first_sender f rest with
           | Some (before, found, after) => Some (c :: before, found, after)
           | None => None
           end
  end.

Definition cnetz_state_is_idle (c : cnetz_t) : bool :=
  cnetz_state_t_beq (state c) CNETZ_IDLE.

(** [call_out_setup (callref, dialing)] on the list of senders: the value
    returned and the senders afterwards. *)
Definition call_out_setup (senders : list cnetz_t) (callref_ : Z)
    (dialing : string) (alloc : option Z) : option (Z * list cnetz_t) :=
  (* 1. check if number is invalid, return INVALNUMBER *)
  let dialing := effective_number dialing in
  if number_invalid dialing then Some (- CAUSE_INVALNUMBER, senders)
  else
    let futln_nat := u8 (digit_value (char_at dialing 0)) in
    let futln_fuvst := u8 (digit_value (char_at dialing 1)) in
    let futln_rest := atoi (str_skip 2 dialing) mod 2 ^ 16 in
    (* 2. check if given number is already in a call, return BUSY *)
    if existsb (fun c => existsb (fun t => same_futln t futln_nat futln_fuvst futln_rest)
                           (trans_list c)) senders
    then Some (- CAUSE_BUSY, senders)
    else
      (* 3. check if all senders are busy, return NOCHANNEL *)
      match first_sender cnetz_state_is_idle senders with
      | None => Some (- CAUSE_NOCHANNEL, senders)
      | Some (before, c, after) =>
          (* 4. trying to page mobile station *)
          let c := set_callref c callref_ in
          r <- create_transaction c TRANS_VAK
                 (digit_value (char_at dialing 0))
                 (digit_value (char_at dialing 1))
                 (atoi (str_skip 2 dialing)) alloc ;;
          match r with
          | (c, None) =>
              Some (- CAUSE_TEMPFAIL, before ++ set_callref c 0 :: after)
          | (c, Some trans) =>
              let c := set_state c CNETZ_BUSY in
              (* flush all other transactions, if any *)
              c <- cnetz_flush_other_transactions c trans ;;
              Some (0, before ++ c :: after)
          end
      end.

Definition has_callref (callref_ : Z) (c : cnetz_t) : bool := callref c =? callref_.

(** The head of the transaction list, [cnetz->trans_list]. *)
Definition first_trans (c : cnetz_t) : option transaction_t := hd_error (trans_list c).

(** [call_out_disconnect (callref, cause)].  Without a sender for the call
    reference only [call_in_release (callref, CAUSE_INVALCALLREF)] is sent,
    which touches no channel. *)
Definition call_out_disconnect (senders : list cnetz_t) (callref_ cause : Z)
    : option (list cnetz_t) :=
  match first_sender (has_callref callref_) senders with
  | None => Some senders
  | Some (before, c, after) =>
      if negb (cnetz_state_t_beq (state c) CNETZ_BUSY) then
        Some (before ++ set_callref (emit c (Call_in_release callref_ cause)) 0 :: after)
      else
        match first_trans c with
        | None =>
            Some (before ++ set_callref (emit c (Call_in_release callref_ cause)) 0 :: after)
        | Some trans =>
            (* Release when not active *)
            match dsp_mode c with
            | DSP_MODE_SPK_V => Some senders
            | DSP_MODE_SPK_K =>
                let c := cnetz_release c (t_ptr trans) (cnetz_cause_isdn2cnetz cause) in
                Some (before ++ set_callref (emit c (Call_in_release callref_ cause)) 0 :: after)
            | _ =>
                c <- destroy_transaction c (t_ptr trans) ;;
                let c := cnetz_go_idle c in
                Some (before ++ set_callref (emit c (Call_in_release callref_ cause)) 0 :: after)
            end
        end
  end.

(** [call_out_release (callref, cause)] *)
Definition call_out_release (senders : list cnetz_t) (callref_ cause : Z)
    : option (list cnetz_t) :=
  match first_sender (has_callref callref_) senders with
  | None => Some senders
  | Some (before, c, after) =>
      let c := set_callref c 0 in
      if negb (cnetz_state_t_beq (state c) CNETZ_BUSY) then Some (before ++ c :: after)
      else
        match first_trans c with
        | None => Some (before ++ c :: after)
        | Some trans =>
            match dsp_mode c with
            | DSP_MODE_SPK_K | DSP_MODE_SPK_V =>
                let c := cnetz_release c (t_ptr trans) (cnetz_cause_isdn2cnetz cause) in
                Some (before ++ c :: after)
            | _ =>
                c <- destroy_transaction c (t_ptr trans) ;;
                Some (before ++ cnetz_go_idle c :: after)
            end
        end
  end.

(** [transaction_timeout], for the transaction at address [p] of channel
    [c]. *)
Definition transaction_timeout (c : cnetz_t) (p : Z) : cnetz_t :=
  match find (fun t => t_ptr t =? p) (trans_list c) with
  | None => c
  | Some trans =>
      let release_call (c : cnetz_t) (cause : Z) : cnetz_t :=
        set_callref (emit c (Call_in_release (callref c) cause)) 0 in
      match t_state trans with
      | TRANS_WAF =>
          let c := update_trans c p (fun t => set_count t (count t + 1)) in
          if count trans + 1 =? 3
          then update_trans c p (fun t => trans_new_state t TRANS_WBN)
          else update_trans c p (fun t => trans_new_state t TRANS_VWG)
      | TRANS_BQ =>
          let c := if negb (mt_call trans =? 0)
                   then release_call c CAUSE_OUTOFORDER else c in
          cnetz_release c p CNETZ_CAUSE_FUNKTECHNISCH
      | TRANS_VHQ =>
          let c := if negb (mt_call trans =? 0) || negb (mo_call trans =? 0)
                   then release_call c CAUSE_TEMPFAIL else c in
          cnetz_release c p CNETZ_CAUSE_FUNKTECHNISCH
      | TRANS_DS | TRANS_RTA | TRANS_AHQ =>
          cnetz_release (release_call c CAUSE_TEMPFAIL) p CNETZ_CAUSE_FUNKTECHNISCH
      | _ => c
      end
  end.

(** *** Telegrams *)

(** The fields of [telegramm_t] that depend on the channel or on a
    transaction; the others are copied from the system information. *)
Record telegramm_t : Type := mk_telegramm {
  opcode : opcode_t;
  zeitschlitz_nr : Z;
  futln_nationalitaet : Z;
  futln_heimat_fuvst_nr : Z;
  futln_rest_nr : Z;
  frequenz_nr : Z;
  ausloesegrund : Z;
  wahlziffern : string;
  betriebs_art : Z
}.

(** [memset (&telegramm, 0, sizeof (telegramm))] *)
Definition telegramm_0 : telegramm_t :=
  mk_telegramm OPCODE_0 0 0 0 0 0 0 EmptyString 0.

Definition set_opcode (tg : telegramm_t) (op : opcode_t) : telegramm_t :=
  mk_telegramm op (zeitschlitz_nr tg) (futln_nationalitaet tg)
    (futln_heimat_fuvst_nr tg) (futln_rest_nr tg) (frequenz_nr tg)
    (ausloesegrund tg) (wahlziffern tg) (betriebs_art tg).

Definition set_futln (tg : telegramm_t) (trans : transaction_t) : telegramm_t :=
  mk_telegramm (opcode tg) (zeitschlitz_nr tg) (futln_nat trans)
    (futln_fuvst trans) (futln_rest trans) (frequenz_nr tg)
    (ausloesegrund tg) (wahlziffern tg) (betriebs_art tg).

Definition set_frequenz_nr (tg : telegramm_t) (k : Z) : telegramm_t :=
  mk_telegramm (opcode tg) (zeitschlitz_nr tg) (futln_nationalitaet tg)
    (futln_heimat_fuvst_nr tg) (futln_rest_nr tg) k
    (ausloesegrund tg) (wahlziffern tg) (betriebs_art tg).

(** [cnetz_transmit_telegramm_rufblock] *)
Definition cnetz_transmit_telegramm_rufblock (c : cnetz_t)
    : option (cnetz_t * telegramm_t) :=
  let tg := mk_telegramm OPCODE_LR_R (sched_ts c) 0 0 0 0 0 EmptyString 0 in
  match search_transaction c
          [TRANS_EM; TRANS_UM; TRANS_WBN; TRANS_WBP; TRANS_VAG; TRANS_VAK] with
  | None => Some (c, tg)
  | Some trans =>
      let tg := set_futln tg trans in
      let p := t_ptr trans in
      match t_state trans with
      | TRANS_EM =>
          c <- destroy_transaction c p ;; Some (c, set_opcode tg OPCODE_EBQ_R)
      | TRANS_UM =>
          c <- destroy_transaction c p ;; Some (c, set_opcode tg OPCODE_UBQ_R)
      | TRANS_WBN =>
          c <- destroy_transaction c p ;;
          Some (cnetz_go_idle c, set_opcode tg OPCODE_WBN_R)
      | TRANS_WBP =>
          Some (update_trans c p (fun t => trans_new_state t TRANS_VAG),
                set_opcode tg OPCODE_WBP_R)
      | TRANS_VAG | TRANS_VAK =>
          let tg :=
            set_opcode tg (if trans_state_t_beq (t_state trans) TRANS_VAG
                           then OPCODE_VAG_R else OPCODE_VAK_R) in
          let tg := set_frequenz_nr tg (kanal c) in
          let c := update_trans c p (fun t => trans_new_state t TRANS_BQ) in
          let c := update_trans c p (fun t => set_count t 0) in
          let c := update_trans c p timer_start in
          (* schedule switching two slots ahead *)
          Some (schedule_switch c 2 DSP_MODE_SPK_K, tg)
      | _ => Some (c, tg) (* LR *)
      end
  end.

(** [cnetz_transmit_telegramm_meldeblock] *)
Definition cnetz_transmit_telegramm_meldeblock (c : cnetz_t)
    : option (cnetz_t * telegramm_t) :=
  let tg := mk_telegramm OPCODE_MLR_M 0 0 0 0 0 0 EmptyString 0 in
  match search_transaction c [TRANS_VWG] with
  | None => Some (c, tg)
  | Some trans =>
      match t_state trans with
      | TRANS_VWG =>
          let p := t_ptr trans in
          let c := update_trans c p (fun t => trans_new_state t TRANS_WAF) in
          Some (update_trans c p timer_start,
                set_futln (set_opcode tg OPCODE_WAF_M) trans)
      | _ => Some (c, tg) (* MLR *)
      end
  end.

(** The condition "next sub frame": [(cnetz->sched_ts & 7) == 7 && cnetz->sched_r_m]. *)
Definition next_sub_frame (c : cnetz_t) : bool :=
  (Z.land (sched_ts c) 7 =? 7) && negb (sched_r_m c =? 0).

(** The code at the label [call_failed:] and of [case TRANS_AF:] in
    [cnetz_transmit_telegramm_spk_k], and of the [TRANS_AT] case with
    [n = 1]: send the release, and after [n] of them go idle. *)
Definition send_release (c : cnetz_t) (trans : transaction_t) (tg : telegramm_t)
    (op : opcode_t) (n : Z) : option (cnetz_t * telegramm_t) :=
  let p := t_ptr trans in
  let c := update_trans c p (fun t => set_count t (count t + 1)) in
  if count trans + 1 =? n then
    c <- destroy_transaction c p ;; Some (cnetz_go_idle c, set_opcode tg op)
  else Some (c, set_opcode tg op).

(** [cnetz_transmit_telegramm_spk_k]: transmit concentrated messages.
    [new_callref] is the file's counter of call references; [rc] is what
    [call_in_setup] returns, should it be called.  The result carries the
    counter afterwards. *)
Definition cnetz_transmit_telegramm_spk_k (new_callref rc : Z) (c : cnetz_t)
    : option (cnetz_t * Z * telegramm_t) :=
  match first_trans c with
  | None => Some (c, new_callref, telegramm_0)
  | Some trans =>
      let p := t_ptr trans in
      let tg := set_frequenz_nr (set_futln telegramm_0 trans) (kanal c) in
      match t_state trans with
      | TRANS_BQ =>
          let c := update_trans c p (fun t => set_count t (count t + 1)) in
          let c :=
            if (count trans + 1 >=? 8) && negb (timer trans) then
              let c := update_trans c p (fun t => trans_new_state t TRANS_VHQ) in
              let c := update_trans c p (fun t => set_count t 0) in
              update_trans c p timer_start
            else c in
          Some (c, new_callref, set_opcode tg OPCODE_BQ_K)
      | TRANS_VHQ =>
          let tg := set_opcode tg OPCODE_VHQ_K in
          let ring (c : cnetz_t) : cnetz_t :=
            if negb (mt_call trans =? 0) then
              let c := update_trans c p (fun t => trans_new_state t TRANS_RTA) in
              let c := update_trans c p timer_start in
              let c := update_trans c p (fun t => set_count t 0) in
              emit c (Call_in_alerting (callref c))
            else c in
          if next_sub_frame c && negb (timer trans) then
            (* next sub frame *)
            if negb (mo_call trans =? 0) then
              let callref_ := new_callref + 1 in
              let c := emit c (Call_in_setup callref_ trans) in
              if rc <? 0 then
                let c := cnetz_release c p (cnetz_cause_isdn2cnetz (- rc)) in
                r <- send_release c (set_count trans 0) tg OPCODE_AF_K N_AFKT ;;
                Some (fst r, callref_, snd r)
              else
                let c := set_callref c callref_ in
                let c := update_trans c p (fun t => trans_new_state t TRANS_DS) in
                let c := update_trans c p (fun t => set_count t 0) in
                let c := update_trans c p timer_start in
                Some (ring c, callref_, tg)
            else Some (ring c, new_callref, tg)
          else Some (c, new_callref, tg)
      | TRANS_DS =>
          let c :=
            if next_sub_frame c && negb (timer trans) then
              (* next sub frame *)
              let c := update_trans c p (fun t => trans_new_state t TRANS_VHQ) in
              let c := update_trans c p (fun t => set_count t 0) in
              let c := schedule_switch c 1 DSP_MODE_SPK_V in
              update_trans c p timer_start
            else c in
          Some (c, new_callref, set_opcode tg OPCODE_DSB_K)
      | TRANS_RTA => Some (c, new_callref, set_opcode tg OPCODE_RTA_K)
      | TRANS_AHQ =>
          let c :=
            if next_sub_frame c then
              (* next sub frame *)
              let c := update_trans c p (fun t => trans_new_state t TRANS_VHQ) in
              let c := update_trans c p (fun t => set_count t 0) in
              let c := schedule_switch c 1 DSP_MODE_SPK_V in
              update_trans c p timer_start
            else c in
          Some (c, new_callref, set_opcode tg OPCODE_AHQ_K)
      | TRANS_AF =>
          r <- send_release c trans tg OPCODE_AF_K N_AFKT ;;
          Some (fst r, new_callref, snd r)
      | TRANS_AT =>
          r <- send_release c trans tg OPCODE_AF_K 1 ;;
          Some (fst r, new_callref, snd r)
      | _ => Some (c, new_callref, tg)
      end
  end.

(** [cnetz_transmit_telegramm_spk_v]: transmit distributed messages. *)
Definition cnetz_transmit_telegramm_spk_v (c : cnetz_t)
    : option (cnetz_t * telegramm_t) :=
  match first_trans c with
  | None => Some (c, telegramm_0)
  | Some trans =>
      let tg := set_frequenz_nr (set_futln telegramm_0 trans) (kanal c) in
      let tg :=
        mk_telegramm (opcode tg) (zeitschlitz_nr tg) (futln_nationalitaet tg)
          (futln_heimat_fuvst_nr tg) (futln_rest_nr tg) (frequenz_nr tg)
          (release_cause trans) (wahlziffern tg) (betriebs_art tg) in
      match t_state trans with
      | TRANS_VHQ =>
          if Z.land (sched_ts c) 8 =? 0 (* sub frame 1 and 3 *)
          then Some (c, set_opcode tg OPCODE_VHQ1_V)
          else (* sub frame 2 and 4 *) Some (c, set_opcode tg OPCODE_VHQ2_V)
      | TRANS_AF => send_release c trans tg OPCODE_AF_V N_AFV
      | TRANS_AT => send_release c trans tg OPCODE_AF_V 1
      | _ => Some (c, tg)
      end
  end.

(** Defined in [telegramm.c], which is not among the sources: the check
    of the network identity of a received telegram against the system
    information, and of its subscriber identity against a transaction. *)
Variable match_fuz : telegramm_t -> bool.
Variable match_futln : telegramm_t -> Z -> Z -> Z -> bool.

Definition match_trans (tg : telegramm_t) (trans : transaction_t) : bool :=
  match_futln tg (futln_nat trans) (futln_fuvst trans) (futln_rest trans).

(** [cnetz_receive_telegramm_ogk].  The call of [cnetz_sync_frame] for a
    valid frame acts on the demodulator only and is left out; [None] is the
    [abort ()] of the loopback check. *)
Definition cnetz_receive_telegramm_ogk (c : cnetz_t) (tg : telegramm_t)
    (block : Z) (alloc : option Z) : option cnetz_t :=
  let attach (state : trans_state_t) (busy : bool) : option cnetz_t :=
    if negb (match_fuz tg) then Some c
    else if negb (cnetz_state_is_idle c) then Some c
    else
      r <- create_transaction c state (futln_nationalitaet tg)
             (futln_heimat_fuvst_nr tg) (futln_rest_nr tg) alloc ;;
      match r with
      | (c, None) => Some c
      | (c, Some trans) =>
          if busy then
            let c := set_state c CNETZ_BUSY in
            (* flush all other transactions, if any *)
            cnetz_flush_other_transactions c trans
          else Some c
      end in
  c <- match opcode tg with
       | OPCODE_EM_R => attach TRANS_EM false
       | OPCODE_UM_R => attach TRANS_UM false
       | OPCODE_VWG_R | OPCODE_SRG_R => attach TRANS_VWG true
       | OPCODE_WUE_M =>
           match search_transaction c [TRANS_WAF; TRANS_WBP; TRANS_VAG] with
           | None => Some c
           | Some trans =>
               let p := t_ptr trans in
               let c := update_trans c p (fun t => set_dialing t (wahlziffern tg)) in
               let c := update_trans c p timer_stop in
               Some (update_trans c p (fun t => trans_new_state t TRANS_WBP))
           end
       | _ => Some c
       end ;;
  if negb (loopback c =? 0) then None else Some c.

(** [cnetz_receive_telegramm_spk_k]: receive concentrated messages. *)
Definition cnetz_receive_telegramm_spk_k (c : cnetz_t) (tg : telegramm_t) : cnetz_t :=
  match first_trans c with
  | None => c
  | Some trans =>
      let p := t_ptr trans in
      let st := t_state trans in
      if negb (match_fuz tg) || negb (match_trans tg trans) then c
      else
        match opcode tg with
        | OPCODE_BEL_K =>
            if negb (trans_state_t_beq st TRANS_BQ) then c
            else update_trans c p timer_stop
        | OPCODE_DSQ_K =>
            if negb (trans_state_t_beq st TRANS_DS) then c
            else update_trans (set_scrambler c (betriebs_art tg)) p timer_stop
        | OPCODE_VH_K =>
            if negb (trans_state_t_beq st TRANS_VHQ) then c
            else update_trans c p timer_stop
        | OPCODE_RTAQ_K =>
            if negb (trans_state_t_beq st TRANS_RTA) then c
            else update_trans c p timer_start
        | OPCODE_AH_K =>
            (* if already received this frame, or if we are already on VHQ
               or if we are releasing *)
            if trans_state_t_beq st TRANS_AHQ || trans_state_t_beq st TRANS_VHQ
               || trans_state_t_beq st TRANS_AF then c
            else
              let c := set_scrambler c (betriebs_art tg) in
              let c := update_trans c p (fun t => trans_new_state t TRANS_AHQ) in
              let c := update_trans c p (fun t => set_count t 0) in
              let c := update_trans c p timer_stop in
              emit c (Call_in_answer (callref c) trans)
        | OPCODE_AT_K =>
            (* if already received this frame, if we are releasing *)
            if trans_state_t_beq st TRANS_AT || trans_state_t_beq st TRANS_AF then c
            else
              let c := update_trans c p (fun t => trans_new_state t TRANS_AT) in
              let c := update_trans c p (fun t => set_count t 0) in
              let c := update_trans c p timer_stop in
              if negb (callref c =? 0)
              then set_callref (emit c (Call_in_release (callref c) CAUSE_TEMPFAIL)) 0
              else c
        | _ => c
        end
  end.

(** [cnetz_receive_telegramm_spk_v]: receive distributed messages. *)
Definition cnetz_receive_telegramm_spk_v (c : cnetz_t) (tg : telegramm_t) : cnetz_t :=
  match first_trans c with
  | None => c
  | Some trans =>
      let p := t_ptr trans in
      let st := t_state trans in
      if negb (match_fuz tg) || negb (match_trans tg trans) then c
      else
        match opcode tg with
        | OPCODE_VH_V =>
            if negb (trans_state_t_beq st TRANS_VHQ) then c
            else set_scrambler (update_trans c p timer_start) (betriebs_art tg)
        | OPCODE_AT_V =>
            (* if already received this frame, if we are releasing *)
            if trans_state_t_beq st TRANS_AT || trans_state_t_beq st TRANS_AF then c
            else
              let c := set_scrambler c (betriebs_art tg) in
              let c := update_trans c p (fun t => trans_new_state t TRANS_AT) in
              let c := update_trans c p (fun t => set_count t 0) in
              let c := update_trans c p timer_stop in
              if negb (callref c =? 0)
              then set_callref (emit c (Call_in_release (callref c) CAUSE_TEMPFAIL)) 0
              else c
        | _ => c
        end
  end.

(** *** Creating and destroying a transceiver *)

(** What the environment answers while a transceiver is set up: whether
    the allocations succeed and what the initialisations of the other
    modules return. *)
Record create_env : Type := mk_env {
  calloc_ok : bool;
  sender_create_rc : Z;
  tx_buffer_ok : bool;
  speech_buffer_ok : bool;
  fsk_fm_init_rc : Z;
  jitter_create_rc : Z;
  init_emphasis_rc : Z
}.

(** The value returned by [dsp_init_sender] ([src/cnetz/dsp.c]). *)
Definition dsp_init_sender (env : create_env) (clock_speed0 clock_speed1 : float) : Z :=
  if (1000 <? clock_speed0)%float || (clock_speed0 <? -1000)%float
     || (1000 <? clock_speed1)%float || (clock_speed1 <? -1000)%float
  then - EINVAL
  else if negb (tx_buffer_ok env) then - ENOMEM
  else if negb (speech_buffer_ok env) then - ENOMEM
  else if fsk_fm_init_rc env <? 0 then fsk_fm_init_rc env
  else if jitter_create_rc env <? 0 then jitter_create_rc env
  else 0.

(** [cnetz_create]: the value returned and the instance created, if any. *)
Definition cnetz_create (env : create_env) (kanal_ loopback_ : Z)
    (clock_speed0 clock_speed1 : float) : Z * option cnetz_t :=
  if negb (Z.land kanal_ 1 =? 0) && (kanal_ <? 1) && (947 <? kanal_)
  then (- EINVAL, None)
  else if (Z.land kanal_ 1 =? 0) && (kanal_ <? 2) && (758 <? kanal_)
  then (- EINVAL, None)
  else if negb (calloc_ok env) then (- ENOMEM, None)
  else if sender_create_rc env <? 0 then (sender_create_rc env, None)
  else
    let rc := dsp_init_sender env clock_speed0 clock_speed1 in
    if rc <? 0 then (rc, None)
    else if init_emphasis_rc env <? 0 then (init_emphasis_rc env, None)
    else
      (* go into idle state *)
      (0, Some (cnetz_go_idle
                  (mk_cnetz kanal_ loopback_ 0 CNETZ_IDLE DSP_MODE_OGK DSP_MODE_OGK
                     0 0 0 0 0 [] []))).

(** The loop of [cnetz_destroy]:
    [while ((trans = search_transaction (cnetz, ~0))) destroy_transaction (trans);] *)
Fixpoint cnetz_destroy (turns : nat) (c : cnetz_t) : option cnetz_t :=
  match search_transaction c all_states with
  | None => Some c
  | Some trans =>
      match turns with
      | O => None
      | S turns' =>
          c' <- destroy_transaction c (t_ptr trans) ;; cnetz_destroy turns' c'
      end
  end.

(** *** The transmit scheduler ([fsk_telegramm], at the start of a block) *)

(** What [fsk_telegramm] encodes into the transmit buffer. *)
Inductive block_t : Type :=
  | Block (tg : telegramm_t)         (* [fsk_block_encode] *)
  | Distributed (tg : telegramm_t)   (* [fsk_distributed_encode] *)
  | Nothing.                         (* [fsk_nothing_encode] *)

(** "switch to speech channel": the countdown of a scheduled mode switch. *)
Definition sched_switch (c : cnetz_t) : cnetz_t :=
  if negb (sched_switch_mode c =? 0) && (sched_r_m c =? 0) then
    let c := set_sched_switch_mode c (sched_switch_mode c - 1) in
    if sched_switch_mode c =? 0 then set_dsp_mode c (sched_dsp_mode c) else c
  else c.

(** Modelled from the spec: [cnetz_encode_telegramm] of [telegramm.c],
    which is not among the sources, asks the protocol for the telegram of
    the block to emit: the Rufblock or the Meldeblock on the organisation
    channel according to the sub-phase, the concentrated or the distributed
    signalling on the speech channel (sections 2 and 4.3 of the spec, and
    the log lines of [fsk_telegramm]). *)
Definition cnetz_encode_telegramm (new_callref rc : Z) (c : cnetz_t)
    : option (cnetz_t * Z * telegramm_t) :=
  match dsp_mode c with
  | DSP_MODE_OGK =>
      r <- (if sched_r_m c =? 0 then cnetz_transmit_telegramm_rufblock c
            else cnetz_transmit_telegramm_meldeblock c) ;;
      Some (fst r, new_callref, snd r)
  | DSP_MODE_SPK_K => cnetz_transmit_telegramm_spk_k new_callref rc c
  | DSP_MODE_SPK_V =>
      r <- cnetz_transmit_telegramm_spk_v c ;; Some (fst r, new_callref, snd r)
  | DSP_MODE_other => Some (c, new_callref, telegramm_0)
  end.

(** The [switch (cnetz->dsp_mode)] of [fsk_telegramm]. *)
Definition sched_encode (new_callref rc : Z) (c : cnetz_t)
    : option (cnetz_t * Z * block_t) :=
  match dsp_mode c with
  | DSP_MODE_OGK =>
      if negb (Z.land (Z.shiftl 1 (sched_ts c)) ogk_timeslot_mask =? 0) then
        let c :=
          if sched_r_m c =? 0
          then (* set last time slot, so we can match received message from
                  mobile station *)
            set_last_tx_timeslot c (sched_ts c)
          else c in
        r <- cnetz_encode_telegramm new_callref rc c ;;
        Some (fst (fst r), snd (fst r), Block (snd r))
      else Some (c, new_callref, Nothing)
  | DSP_MODE_SPK_K =>
      r <- cnetz_encode_telegramm new_callref rc c ;;
      Some (fst (fst r), snd (fst r), Block (snd r))
  | DSP_MODE_SPK_V =>
      r <- cnetz_encode_telegramm new_callref rc c ;;
      Some (fst (fst r), snd (fst r), Distributed (snd r))
  | DSP_MODE_other => Some (c, new_callref, Nothing)
  end.

(** "count sub frame" or "count slot", and the wrap of the slot counter. *)
Definition sched_advance (c : cnetz_t) : cnetz_t :=
  let c :=
    if dsp_mode_t_beq (dsp_mode c) DSP_MODE_SPK_V then
      (* count sub frame *)
      set_slot c (sched_ts c + 8) (sched_r_m c)
    else
      (* count slot *)
      if sched_r_m c =? 0 then set_slot c (sched_ts c) 1
      else set_slot c (sched_ts c + 1) 0 in
  if sched_ts c =? 32 then set_slot c 0 (sched_r_m c) else c.

(** [fsk_telegramm] when [pos == 0]: "start new telegramm, so we generate
    one".  The result is the channel, the counter of call references and
    the block to send. *)
Definition fsk_telegramm_block (new_callref rc : Z) (c : cnetz_t)
    : option (cnetz_t * Z * block_t) :=
  let c := sched_switch c in
  r <- sched_encode new_callref rc c ;;
  Some (sched_advance (fst (fst r)), snd (fst r), snd r).

(** *** The base station as a transition system *)

(** The list of senders ([sender_head]) and the counter [new_callref]. *)
Record world : Type := mk_world {
  sender_head : list cnetz_t;
  new_callref : Z
}.

Definition live_ptrs (senders : list cnetz_t) : list Z :=
  flat_map (fun c => map t_ptr (trans_list c)) senders.

(** [calloc] returns a null pointer or a block apart from every live one. *)
Definition fresh (senders : list cnetz_t) (alloc : option Z) : Prop :=
  match alloc with
  | Some p => ~ In p (live_ptrs senders)
  | None => True
  end.

(** One entry into the code of [cnetz.c] or [dsp.c]: a transceiver is
    created or destroyed, a block is due for transmission, a telegram has
    been decoded, a timer has expired, or call control calls. *)
Inductive step : world -> world -> Prop :=
  | step_create : forall w env kanal_ loopback_ cs0 cs1 c,
      cnetz_create env kanal_ loopback_ cs0 cs1 = (0, Some c) ->
      step w (mk_world (sender_head w ++ [c]) (new_callref w))
  | step_destroy : forall w before c after c',
      sender_head w = before ++ c :: after ->
      cnetz_destroy (List.length (trans_list c)) c = Some c' ->
      step w (mk_world (before ++ after) (new_callref w))
  | step_transmit : forall w before c after rc c' n' blk,
      sender_head w = before ++ c :: after ->
      fsk_telegramm_block (new_callref w) rc c = Some (c', n', blk) ->
      step w (mk_world (before ++ c' :: after) n')
  | step_receive_ogk : forall w before c after tg block alloc c',
      sender_head w = before ++ c :: after ->
      fresh (sender_head w) alloc ->
      cnetz_receive_telegramm_ogk c tg block alloc = Some c' ->
      step w (mk_world (before ++ c' :: after) (new_callref w))
  | step_receive_spk_k : forall w before c after tg,
      sender_head w = before ++ c :: after ->
      step w (mk_world (before ++ cnetz_receive_telegramm_spk_k c tg :: after)
                (new_callref w))
  | step_receive_spk_v : forall w before c after tg,
      sender_head w = before ++ c :: after ->
      step w (mk_world (before ++ cnetz_receive_telegramm_spk_v c tg :: after)
                (new_callref w))
  | step_timeout : forall w before c after trans,
      sender_head w = before ++ c :: after ->
      In trans (trans_list c) ->
      timer trans = true ->
      step w (mk_world
                (before
                 ++ transaction_timeout (update_trans c (t_ptr trans) timer_stop)
                      (t_ptr trans)
                 :: after)
                (new_callref w))
  | step_setup : forall w callref_ dialing_ alloc rc senders,
      fresh (sender_head w) alloc ->
      call_out_setup (sender_head w) callref_ dialing_ alloc = Some (rc, senders) ->
      step w (mk_world senders (new_callref w))
  | step_disconnect : forall w callref_ cause senders,
      call_out_disconnect (sender_head w) callref_ cause = Some senders ->
      step w (mk_world senders (new_callref w))
  | step_release : forall w callref_ cause senders,
      call_out_release (sender_head w) callref_ cause = Some senders ->
      step w (mk_world senders (new_callref w)).

(** The states of a run: no sender at start-up, and
    [new_callref = 0x40000000]. *)
Inductive reachable : world -> Prop :=
  | reachable_start : reachable (mk_world [] 0x40000000)
  | reachable_step : forall w w', reachable w -> step w w' -> reachable w'.

(** The entries of one transceiver that a run of a call goes through: a
    block is due for transmission ([rc] is what [call_in_setup] would
    return), or a telegram has been decoded on the speech channel. *)
Inductive entry : Type :=
  | Transmit (rc : Z)
  | Receive_spk_k (tg : telegramm_t)
  | Receive_spk_v (tg : telegramm_t).

(** The channel and the counter of call references after a list of
    entries. *)
Fixpoint run (es : list entry) (c : cnetz_t) (n : Z) : option (cnetz_t * Z) :=
  match es with
  | [] => Some (c, n)
  | Transmit rc :: es =>
      r <- fsk_telegramm_block n rc c ;; run es (fst (fst r)) (snd (fst r))
  | Receive_spk_k tg :: es => run es (cnetz_receive_telegramm_spk_k c tg) n
  | Receive_spk_v tg :: es => run es (cnetz_receive_telegramm_spk_v c tg) n
  end.

End Protocol.

(** *** Notions used to state what the code does *)

(** A list without the first element that satisfies [f]. *)
Fixpoint remove_first (f : transaction_t -> bool) (l : list transaction_t)
    : list transaction_t :=
  match l with
  | [] => []
  | t :: l' => if f t then l' else t :: remove_first f l'
  end.

(** Two channel records that differ at most in the transaction list and in
    the events emitted. *)
Definition same_settings (c c' : cnetz_t) : Prop :=
  kanal c' = kanal c /\ loopback c' = loopback c /\ callref c' = callref c /\
  state c' = state c /\ dsp_mode c' = dsp_mode c /\
  sched_dsp_mode c' = sched_dsp_mode c /\
  sched_switch_mode c' = sched_switch_mode c /\
  sched_ts c' = sched_ts c /\ sched_r_m c' = sched_r_m c /\
  last_tx_timeslot c' = last_tx_timeslot c /\ scrambler c' = scrambler c.

(** The transaction that [create_transaction] links for a subscriber, at
    the address [p]. *)
Definition new_transaction (p : Z) (state : trans_state_t)
    (futln_nat futln_fuvst futln_rest : Z) : transaction_t :=
  mk_trans p state (u8 futln_nat) (u8 futln_fuvst) (futln_rest mod 2 ^ 16)
    (if trans_state_t_beq state TRANS_VWG then 1 else 0)
    (if trans_state_t_beq state TRANS_VAK then 1 else 0)
    0 0 EmptyString false.

(** The subscriber test of [create_transaction], on its truncated
    arguments. *)
Definition same_subscriber (futln_nat futln_fuvst futln_rest : Z)
    (t : transaction_t) : bool :=
  same_futln t (u8 futln_nat) (u8 futln_fuvst) (futln_rest mod 2 ^ 16).

(** The subscriber of a number that passed the checks. *)
Definition dialed_nat (number : string) : Z := digit_value (char_at number 0).
Definition dialed_fuvst (number : string) : Z := digit_value (char_at number 1).
Definition dialed_rest (number : string) : Z := atoi (str_skip 2 number).

(** What an entry into the code may do to the scheduler fields of a
    channel: the slot counters stay; the live mode stays (a mode outside
    the three named ones may be replaced by the organisation channel); the
    scheduled mode stays or becomes one of the named modes; and a switch to
    distributed signalling is pending afterwards only if it was pending
    before or, where [arm] allows it, if it has just been scheduled one
    block ahead at the end of a sub-frame. *)
Definition effect (arm : bool) (c c' : cnetz_t) : Prop :=
  sched_ts c' = sched_ts c /\
  sched_r_m c' = sched_r_m c /\
  (dsp_mode c' = dsp_mode c
   \/ (dsp_mode c = DSP_MODE_other /\ dsp_mode c' = DSP_MODE_OGK)) /\
  (sched_dsp_mode c' = sched_dsp_mode c \/ sched_dsp_mode c' <> DSP_MODE_other) /\
  (sched_switch_mode c' <> 0 -> sched_dsp_mode c' = DSP_MODE_SPK_V ->
   (sched_switch_mode c' = sched_switch_mode c /\ sched_dsp_mode c = DSP_MODE_SPK_V)
   \/ (arm = true /\ sched_switch_mode c' = 1 /\ next_sub_frame c = true)).

(** The invariant of the scheduler: the slot counter is in 0..31 and the
    sub-phase is R (0) or M (1); the modes are named ones; in distributed
    signalling the slot counter is a multiple of 8 and the sub-phase is R;
    and a pending switch to distributed signalling is due at the next
    block, which starts a sub-frame. *)
Definition sched_inv (c : cnetz_t) : Prop :=
  0 <= sched_ts c < 32 /\
  (sched_r_m c = 0 \/ sched_r_m c = 1) /\
  dsp_mode c <> DSP_MODE_other /\
  sched_dsp_mode c <> DSP_MODE_other /\
  (dsp_mode c = DSP_MODE_SPK_V -> sched_ts c mod 8 = 0 /\ sched_r_m c = 0) /\
  (sched_switch_mode c <> 0 -> sched_dsp_mode c = DSP_MODE_SPK_V ->
   sched_switch_mode c = 1 /\ sched_ts c mod 8 = 0 /\ sched_r_m c = 0).

(** A transceiver for channel 131 as [cnetz_create] leaves it. *)
Definition fresh_131 : cnetz_t :=
  mk_cnetz 131 0 0 CNETZ_IDLE DSP_MODE_OGK DSP_MODE_OGK 0 0 0 0 0 [] [].

(** The same with two pending registrations: an attachment of subscriber
    2,2,22002 and a roaming update of subscriber 1,1,11111. *)
Definition pending_131 : cnetz_t :=
  set_trans_list fresh_131
    [ mk_trans 1 TRANS_EM 2 2 22002 0 0 0 0 EmptyString false;
      mk_trans 2 TRANS_UM 1 1 11111 0 0 0 0 EmptyString false ].

(** An environment in which every allocation and initialisation succeeds. *)
Definition env_ok : create_env := mk_env true 0 true true 0 0 0.

(** The events of the transaction that [create_transaction] destroys. *)
Definition duplicate_events (f : transaction_t -> bool) (l : list transaction_t)
    : list event :=
  match find f l with
  | Some d => [Destroying_transaction d]
  | None => []
  end.

(** The sentence of the spec on the countdown: it is strictly positive
    when the live mode differs from the scheduled one. *)
Definition countdown_positive (c : cnetz_t) : Prop :=
  dsp_mode c <> sched_dsp_mode c -> 0 < sched_switch_mode c.

(** *** A base station for the examples *)

(** The transition system, the transmit scheduler and the runs of a base
    station with the cause numbers of Q.850 (16, 17, 19, 27, 28, 34, 41),
    the release causes 0, 1, 2, three release telegrams on either kind of
    signalling, time slot 0 on the organisation channel, and telegrams that
    all match. *)
Definition reachable_131 : world -> Prop :=
  reachable 16 17 19 27 28 34 41 0 1 2 3 3 1 (fun _ => true) (fun _ _ _ _ => true).

Definition block_131 : Z -> Z -> cnetz_t -> option (cnetz_t * Z * block_t) :=
  fsk_telegramm_block 16 17 19 0 1 3 3 1.

Definition run_131 : list entry -> cnetz_t -> Z -> option (cnetz_t * Z) :=
  run 16 17 19 41 0 1 3 3 1 (fun _ => true) (fun _ _ _ _ => true).

(** Channel 131 after [call_out_setup] for a call, of reference 1, to
    subscriber 2,2,22002. *)
Definition paged_131 : cnetz_t :=
  mk_cnetz 131 0 1 CNETZ_BUSY DSP_MODE_OGK DSP_MODE_OGK 0 0 0 0 0
    [mk_trans 1 TRANS_VAK 2 2 22002 0 1 0 0 EmptyString false] [].

(** The same after the channel assignment has been sent and three more
    blocks: the switch to concentrated signalling is due at the next
    block. *)
Definition switching_131 : cnetz_t :=
  mk_cnetz 131 0 1 CNETZ_BUSY DSP_MODE_OGK DSP_MODE_SPK_K 1 2 0 0 0
    [mk_trans 1 TRANS_BQ 2 2 22002 0 1 0 0 EmptyString true] [].

(** The channel when call control releases the call just after the channel
    assignment has been sent. *)
Definition cancelled_131 : cnetz_t :=
  mk_cnetz 131 0 0 CNETZ_IDLE DSP_MODE_OGK DSP_MODE_SPK_K 0 0 1 0 0 []
    [Destroying_transaction
       (mk_trans 1 TRANS_BQ 2 2 22002 0 1 0 0 EmptyString true)].

(** The subscriber of a transaction. *)
Definition subscriber (t : transaction_t) : Z * Z * Z :=
  (futln_nat t, futln_fuvst t, futln_rest t).

(** Two channel records with the same live mode and slot counters. *)
Definition same_clock (c c' : cnetz_t) : Prop :=
  dsp_mode c' = dsp_mode c /\ sched_ts c' = sched_ts c /\
  sched_r_m c' = sched_r_m c.

(** Channel 131 in concentrated signalling, with the call of subscriber
    2,2,22002 about to be released. *)
Definition releasing_131 : cnetz_t :=
  mk_cnetz 131 0 1 CNETZ_BUSY DSP_MODE_SPK_K DSP_MODE_SPK_K 0 5 1 0 0
    [mk_trans 1 TRANS_AF 2 2 22002 0 1 0 0 EmptyString false] [].

(** A telegram of the mobile station with the given opcode. *)
Definition telegramm_of (op : opcode_t) : telegramm_t := set_opcode telegramm_0 op.

(** A call that the mobile station answers: the channel assignment and the
    switch to the speech channel (5 blocks), the acknowledgement of the
    mobile station, 8 blocks, its hold telegram, 3 blocks, its answer, and
    17 blocks, the last of which is the first one in distributed
    signalling. *)
Definition call_131 : list entry :=
  repeat (Transmit 0) 5 ++ [Receive_spk_k (telegramm_of OPCODE_BEL_K)]
  ++ repeat (Transmit 0) 8 ++ [Receive_spk_k (telegramm_of OPCODE_VH_K)]
  ++ repeat (Transmit 0) 3 ++ [Receive_spk_k (telegramm_of OPCODE_AH_K)]
  ++ repeat (Transmit 0) 17.

(** The channel after that call: distributed signalling at slot 24. *)
Definition held_131 : cnetz_t :=
  match run_131 call_131 paged_131 0x40000000 with
  | Some (c, _) => c
  | None => paged_131
  end.

End Cnetz.

(** [start; start + 1; ...], [n] numbers. *)
Fixpoint Z_seq (n : nat) (start : Z) : list Z :=
  match n with
  | O => []
  | S n' => start :: Z_seq n' (start + 1)
  end.

(** ** Radiocom 2000: channels and station identities ([src/r2000/r2000.c]) *)

Module Radiocom.

(** One entry of the table [r2000_bands]. *)
Record r2000_band : Type := mk_band {
  number : Z;
  name : string;
  dl_f0 : float;     (* first downlink channel (0) *)
  channels : Z;      (* number of channels (including 0) *)
  duplex : float     (* duplex distance (uplink below downlink) *)
}.

Definition CHANNEL_SPACING : float := 0.0125.

(** The table [r2000_bands], without the entry that ends it (its [name]
    is a null pointer). *)
Definition r2000_bands : list r2000_band :=
  [ mk_band 1 "UHF" 424.8000 256 10.0;
    mk_band 3 "VHF A/B" 169.8000 296 4.6;
    mk_band 4 "VHF 5/6/1" 176.5000 176 (-8.0);
    mk_band 5 "VHF 5/6/2" 178.7000 192 (-8.0);
    mk_band 6 "VHF 5/6/3" 181.1000 192 (-8.0);
    mk_band 7 "VHF 7/8/1" 200.5000 176 8.0;
    mk_band 8 "VHF 7/8/2" 202.7000 192 8.0;
    mk_band 9 "VHF 7/8/3" 205.1000 192 8.0;
    mk_band 10 "VHF 9/10/1" 208.5000 176 (-8.0);
    mk_band 11 "VHF 9/10/2" 210.7000 192 (-8.0);
    mk_band 12 "VHF 9/10/3" 213.1000 192 (-8.0) ]%float.

(** [r2000_channel2freq]: the frequency in Hz of the base station
    ([uplink = 0]) or of the station mobile ([uplink = 1]), the negated
    duplex distance ([uplink = 2]), or 0.0 for a band or a channel that
    does not exist. *)
Definition r2000_channel2freq (band channel uplink : Z) : float :=
  match find (fun b => number b =? band) r2000_bands with
  | None => 0.0
  | Some b =>
      if (channel <? 0) || (channels b - 1 <? channel) then 0.0
      else if uplink =? 2 then (- duplex b * 1e6)%float
      else
        let freq := (dl_f0 b + CHANNEL_SPACING * double_of_int channel)%float in
        let freq := if negb (uplink =? 0) then (freq - duplex b)%float else freq in
        (freq * 1e6)%float
  end.

(** The channels of the table: band [band] exists and has a channel
    [channel]. *)
Definition r2000_channel_exists (band channel : Z) : bool :=
  existsb (fun b => (number b =? band) && (0 <=? channel) && (channel <? channels b))
    r2000_bands.

(** The table in units of 100 Hz: the first downlink channel and the
    duplex distance of a band. *)
Definition nominal_band (band : Z) : Z * Z :=
  match band with
  | 1 => (4248000, 100000)
  | 3 => (1698000, 46000)
  | 4 => (1765000, -80000)
  | 5 => (1787000, -80000)
  | 6 => (1811000, -80000)
  | 7 => (2005000, 80000)
  | 8 => (2027000, 80000)
  | 9 => (2051000, 80000)
  | 10 => (2085000, -80000)
  | 11 => (2107000, -80000)
  | 12 => (2131000, -80000)
  | _ => (0, 0)
  end.

(** The frequencies in Hz as exact numbers: 12.5 kHz per channel above the
    first downlink channel, and the uplink below it by the duplex
    distance. *)
Definition nominal_downlink (band channel : Z) : Q :=
  inject_Z (fst (nominal_band band) * 100 + channel * 12500).

Definition nominal_uplink (band channel : Z) : Q :=
  nominal_downlink band channel - inject_Z (snd (nominal_band band) * 100).

(** For one band and channel: [r2000_channel2freq] is 0.0 for both
    directions when the channel does not exist, and otherwise gives finite,
    non-zero numbers within [2^-20] Hz of the nominal frequencies. *)
Definition channel2freq_ok (band channel : Z) : bool :=
  let down := r2000_channel2freq band channel 0 in
  let up := r2000_channel2freq band channel 1 in
  if r2000_channel_exists band channel then
    negb (down =? 0)%float && negb (up =? 0)%float &&
    match float_value down, float_value up with
    | Some d, Some u =>
        Qle_bool (Qabs (d - nominal_downlink band channel)) (1 # 2 ^ 20)
        && Qle_bool (Qabs (u - nominal_uplink band channel)) (1 # 2 ^ 20)
    | _, _ => false
    end
  else (down =? 0)%float && (up =? 0)%float.

(** *** Subscribers *)

(** [r2000_number_valid]: the complaint about a station identity of nine
    digits, or [None] for the null pointer returned for a valid one. *)
Definition r2000_number_valid (number : string) : option string :=
  let d (i : nat) := Cnetz.digit_value (Cnetz.char_at number i) in
  if 7 <? d 0%nat
  then Some "Digit 1 (station mobile type) exceeds 7."%string
  else if 511 <? d 1%nat * 100 + d 2%nat * 10 + d 3%nat
  then Some "Digit 2 to 5 (relais number) exceeds 511."%string
  else if 65535 <? Cnetz.atoi (Cnetz.str_skip 4 number)
  then Some "Digit 6 to 9 (mobile number) exceeds 65535."%string
  else None.

(** What [sprintf] writes for [%d] and [%0wd] with a non-negative
    argument: the decimal digits of [n], most significant first ... *)
Fixpoint decimal_digits (fuel : nat) (n : Z) (acc : string) : string :=
  let acc := String (ascii_of_N (Z.to_N (48 + n mod 10))) acc in
  match fuel with
  | O => acc
  | S fuel' => if n / 10 =? 0 then acc else decimal_digits fuel' (n / 10) acc
  end.

(** ... after as many zeros as it takes to fill [w] characters. *)
Definition sprintf_d (w : nat) (n : Z) : string :=
  let digits := decimal_digits (Z.to_nat (Z.log2 n)) n EmptyString in
  (string_of_list_ascii (repeat "0"%char (w - String.length digits)) ++ digits)%string.

Section Subscribers.

(** [r2000_subscriber_t] is declared in [r2000.h], which is not among the
    sources: the widths in bits of its unsigned fields. *)
Variable type_bits relais_bits mor_bits : Z.

Record r2000_subscriber_t : Type := mk_subscr {
  s_type : Z;
  s_relais : Z;
  s_mor : Z
}.

(** [subscriber2string]: [sprintf (result, "%d%03d%05d", ...)]. *)
Definition subscriber2string (subscr : r2000_subscriber_t) : string :=
  (sprintf_d 1 (s_type subscr) ++ sprintf_d 3 (s_relais subscr)
   ++ sprintf_d 5 (s_mor subscr))%string.

(** [string2subscriber]: the value returned and the fields written. *)
Definition string2subscriber (dialstring : string) : Z * r2000_subscriber_t :=
  let d (i : nat) := Cnetz.digit_value (Cnetz.char_at dialstring i) in
  (0,
   mk_subscr (d 0%nat mod 2 ^ type_bits)
     ((d 1%nat * 100 + d 2%nat * 10 + d 3%nat) mod 2 ^ relais_bits)
     (Cnetz.atoi (Cnetz.str_skip 4 dialstring) mod 2 ^ mor_bits)).

End Subscribers.

End Radiocom.

(** What is checked by evaluation over all relais numbers, and over all
    bands and channels. *)
Definition digits3_ok (r : Z) : bool :=
  match Radiocom.sprintf_d 3 r with
  | String a (String b (String c EmptyString)) =>
      (Cnetz.digit_value a * 100 + Cnetz.digit_value b * 10 + Cnetz.digit_value c =? r)
  | _ => false
  end.

(** The character of a decimal digit, and the five characters of a number
    below 100000. *)
Definition digit_char (k : Z) : ascii := ascii_of_N (Z.to_N (48 + k)).

Definition five_digits (m : Z) : string :=
  String (digit_char (m / 10 / 10 / 10 / 10))
    (String (digit_char ((m / 10 / 10 / 10) mod 10))
       (String (digit_char ((m / 10 / 10) mod 10))
          (String (digit_char ((m / 10) mod 10))
             (String (digit_char (m mod 10)) EmptyString)))).

Definition channel_grid : list (Z * Z) :=
  list_prod (Z_seq 14 0) (Z_seq 300 (-2)).

(** * Theorems *)

(** ** POCSAG codewords *)

Section PocsagCodewords.

Import Pocsag.

Lemma land_shiftl_small a b n :
  0 <= n -> 0 <= b < 2 ^ n -> Z.land (Z.shiftl a n) b = 0.
Proof.
  intros Hn Hb. apply Z.bits_inj'. intros i Hi.
  rewrite Z.land_spec, Z.bits_0.
  destruct (Z.ltb_spec i n) as [Hlt|Hge].
  - rewrite Z.shiftl_spec_low by lia. reflexivity.
  - replace b with (b mod 2 ^ n) by (apply Z.mod_small; lia).
    rewrite Z.mod_pow2_bits_high by lia. apply andb_false_r.
Qed.

(** Or-ing a field into the zeroes left by a shift is an addition. *)
Lemma lor_shiftl_add a b n :
  0 <= n -> 0 <= b < 2 ^ n -> Z.lor (Z.shiftl a n) b = a * 2 ^ n + b.
Proof.
  intros Hn Hb.
  rewrite <- Z.lxor_lor by (apply land_shiftl_small; assumption).
  rewrite <- Z.add_nocarry_lxor by (apply land_shiftl_small; assumption).
  rewrite Z.shiftl_mul_pow2 by assumption. reflexivity.
Qed.

Lemma land_1_b2z x : Z.land x 1 = Z.b2z (Z.testbit x 0).
Proof.
  change 1 with (Z.ones 1). rewrite Z.land_ones by lia.
  change (2 ^ 1) with 2. symmetry. apply Z.bit0_mod.
Qed.

Lemma pocsag_crc_range w : 0 <= pocsag_crc w < 2 ^ 10.
Proof.
  unfold pocsag_crc. change 0x3ff with (Z.ones 10).
  rewrite Z.land_ones by lia. apply Z.mod_pos_bound. lia.
Qed.

Lemma pocsag_parity_range w : 0 <= pocsag_parity w < 2.
Proof.
  unfold pocsag_parity. cbv zeta. rewrite land_1_b2z.
  destruct (Z.testbit _ 0); simpl; lia.
Qed.

(** [pocsag_parity] is the exclusive-or of the 32 bits of the word. *)
Lemma pocsag_parity_bits w : pocsag_parity w = Z.b2z (xor_bits w 32).
Proof.
  unfold pocsag_parity. cbv zeta. rewrite land_1_b2z. f_equal.
  repeat (rewrite Z.lxor_spec || rewrite Z.shiftr_spec by lia).
  cbn -[Z.testbit].
  btauto.
Qed.

Lemma xor_bits_double w b n :
  xor_bits (2 * w + Z.b2z b) (S n) = xorb (xor_bits w n) b.
Proof.
  induction n as [|n IH].
  - cbn [xor_bits]. change (Z.of_nat 0) with 0.
    rewrite Z.testbit_0_r. destruct b; reflexivity.
  - change (xor_bits (2 * w + Z.b2z b) (S (S n)))
      with (xorb (Z.testbit (2 * w + Z.b2z b) (Z.of_nat (S n)))
                 (xor_bits (2 * w + Z.b2z b) (S n))).
    rewrite IH, Nat2Z.inj_succ, Z.testbit_succ_r by lia.
    cbn [xor_bits]. rewrite xorb_assoc. reflexivity.
Qed.

Lemma xor_bits_above w n :
  0 <= w < 2 ^ Z.of_nat n -> xor_bits w (S n) = xor_bits w n.
Proof.
  intros Hw. cbn [xor_bits].
  replace w with (w mod 2 ^ Z.of_nat n) at 1 by (apply Z.mod_small; lia).
  rewrite Z.mod_pow2_bits_high by lia. reflexivity.
Qed.

(** Flipping bit [k] flips the exclusive-or of any range that holds it. *)
Lemma xor_bits_flip w k n :
  0 <= k ->
  xor_bits (Z.lxor w (Z.shiftl 1 k)) n =
  if k <? Z.of_nat n then negb (xor_bits w n) else xor_bits w n.
Proof.
  intros Hk. rewrite Z.shiftl_1_l.
  induction n as [|n IH].
  - simpl. destruct (Z.ltb_spec k 0); [lia | reflexivity].
  - cbn [xor_bits]. rewrite IH, Z.lxor_spec, Z.pow2_bits_eqb by lia.
    rewrite Nat2Z.inj_succ.
    destruct (Z.eqb_spec k (Z.of_nat n)) as [->|Hne].
    + rewrite Z.ltb_irrefl.
      destruct (Z.ltb_spec (Z.of_nat n) (Z.succ (Z.of_nat n))); [|lia].
      destruct (Z.testbit w (Z.of_nat n)), (xor_bits w n); reflexivity.
    + destruct (Z.ltb_spec k (Z.of_nat n)), (Z.ltb_spec k (Z.succ (Z.of_nat n)));
        try lia; destruct (Z.testbit w (Z.of_nat n)), (xor_bits w n); reflexivity.
Qed.

Lemma pocsag_parity_flip w k :
  0 <= k < 32 ->
  pocsag_parity (Z.lxor w (Z.shiftl 1 k)) = 1 - pocsag_parity w.
Proof.
  intros Hk. rewrite !pocsag_parity_bits, xor_bits_flip by lia.
  destruct (Z.ltb_spec k (Z.of_nat 32)); [|simpl in *; lia].
  destruct (xor_bits w 32); reflexivity.
Qed.

(** A word of even parity with one bit flipped is refused. *)
Lemma debug_word_flip w k slot :
  0 <= k < 32 -> pocsag_parity w = 0 ->
  debug_word (Z.lxor w (Z.shiftl 1 k)) slot = - EINVAL.
Proof.
  intros Hk Hp. unfold debug_word.
  rewrite pocsag_parity_flip, Hp by assumption.
  destruct (negb _); reflexivity.
Qed.

(** The address codeword as a sum of its four fields. *)
Lemma encode_address_fields msg :
  0 <= ric msg < 2 ^ 21 -> 0 <= function msg < 4 ->
  let payload := ric msg / 8 * 4 + function msg in
  let inner := payload * 1024 + pocsag_crc payload in
  0 <= payload < 2 ^ 20 /\
  encode_address msg = 2 * inner + pocsag_parity inner.
Proof.
  intros Hric Hfn payload inner.
  assert (Hp : 0 <= payload < 2 ^ 20).
  { subst payload. assert (0 <= ric msg / 8 < 2 ^ 18).
    { split; [apply Z.div_pos; lia | apply Z.div_lt_upper_bound; lia]. }
    lia. }
  split; [exact Hp|].
  unfold encode_address, shl32, u32. cbv zeta.
  change (Z.shiftl 0 18 mod 2 ^ 32) with 0. rewrite Z.lor_0_l.
  rewrite (Z.shiftr_div_pow2 (ric msg) 3) by lia. change (2 ^ 3) with 8.
  assert (H18 : 0 <= ric msg / 8 < 2 ^ 18).
  { split; [apply Z.div_pos; lia | apply Z.div_lt_upper_bound; lia]. }
  rewrite (Z.mod_small (Z.shiftl (ric msg / 8) 2))
    by (rewrite Z.shiftl_mul_pow2 by lia; lia).
  rewrite (lor_shiftl_add (ric msg / 8) (function msg) 2) by lia.
  change (2 ^ 2) with 4. fold payload.
  pose proof (pocsag_crc_range payload) as Hc.
  rewrite (Z.mod_small (Z.shiftl payload 10))
    by (rewrite Z.shiftl_mul_pow2 by lia; lia).
  rewrite (lor_shiftl_add payload (pocsag_crc payload) 10) by lia.
  change (2 ^ 10) with 1024 in *. fold inner.
  pose proof (pocsag_parity_range inner) as Hq.
  assert (Hi : 0 <= inner < 2 ^ 30) by (subst inner; lia).
  rewrite (Z.mod_small (Z.shiftl inner 1))
    by (rewrite Z.shiftl_mul_pow2 by lia; lia).
  rewrite (lor_shiftl_add inner (pocsag_parity inner) 1) by lia.
  change (2 ^ 1) with 2. lia.
Qed.

(** C1.  An address codeword built by [encode_address] for a RIC of 21
    bits and a function of 2 bits is a 32-bit word that passes the CRC
    check of [debug_word] ([pocsag_crc] of the upper 21 bits equals the
    10-bit CRC field) and its parity check, so [debug_word] accepts it; and
    with any one of its 32 bits flipped at least one of the two checks
    fails, so [debug_word] returns [-EINVAL]. *)
Theorem address_codeword_integrity (msg : pocsag_msg_t) (slot : Z) :
  0 <= ric msg < 2 ^ 21 ->
  0 <= function msg < 4 ->
  let word := encode_address msg in
  0 <= word < 2 ^ 32 /\
  pocsag_crc (Z.shiftr word 11) = Z.land (Z.shiftr word 1) 0x3ff /\
  pocsag_parity word = 0 /\
  debug_word word slot = 0 /\
  forall k, 0 <= k < 32 ->
    let flipped := Z.lxor word (Z.shiftl 1 k) in
    (pocsag_crc (Z.shiftr flipped 11) <> Z.land (Z.shiftr flipped 1) 0x3ff
     \/ pocsag_parity flipped <> 0)
    /\ debug_word flipped slot = - EINVAL.
Proof.
  intros Hric Hfn word.
  destruct (encode_address_fields msg Hric Hfn) as [Hpay Hword].
  cbv zeta in Hword. fold word in Hword.
  set (payload := ric msg / 8 * 4 + function msg) in *.
  set (inner := payload * 1024 + pocsag_crc payload) in *.
  pose proof (pocsag_crc_range payload) as Hc.
  pose proof (pocsag_parity_range inner) as Hq.
  change (2 ^ 10) with 1024 in Hc.
  assert (Hinner : 0 <= inner < 2 ^ 30) by (subst inner; lia).
  assert (Hcrc : pocsag_crc (Z.shiftr word 11) = Z.land (Z.shiftr word 1) 0x3ff).
  { rewrite !Z.shiftr_div_pow2 by lia.
    change (2 ^ 11) with 2048. change (2 ^ 1) with 2.
    replace (word / 2048) with payload
      by (rewrite Hword; subst inner; apply Z.div_unique with
            (r := 2 * pocsag_crc payload + pocsag_parity (payload * 1024 + pocsag_crc payload));
          lia).
    replace (word / 2) with inner
      by (rewrite Hword; apply Z.div_unique with (r := pocsag_parity inner); lia).
    change 0x3ff with (Z.ones 10). rewrite Z.land_ones by lia.
    change (2 ^ 10) with 1024. subst inner.
    apply Z.mod_unique with (q := payload); lia. }
  assert (Hpar : pocsag_parity word = 0).
  { rewrite pocsag_parity_bits, Hword.
    rewrite (pocsag_parity_bits inner).
    rewrite xor_bits_double.
    rewrite (xor_bits_above inner 31) by (change (2 ^ Z.of_nat 31) with (2 ^ 31); lia).
    rewrite xorb_nilpotent. reflexivity. }
  assert (Hok : debug_word word slot = 0).
  { unfold debug_word. rewrite Hcrc, Hpar, Z.eqb_refl. reflexivity. }
  split; [lia|]. split; [exact Hcrc|]. split; [exact Hpar|]. split; [exact Hok|].
  intros k Hk flipped. split.
  - right. subst flipped. rewrite pocsag_parity_flip, Hpar by assumption. lia.
  - subst flipped. apply debug_word_flip; assumption.
Qed.

(** Beyond the 21 bits of a RIC the parity bit is computed over a bit that
    the final shift drops: RIC [2^22] gives a word that [debug_word]
    refuses. *)
Example address_codeword_wide_ric :
  debug_word (encode_address (mk_msg (2 ^ 22) 0)) 0 = - EINVAL.
Proof. vm_compute. reflexivity. Qed.

(** The witness of C1: RIC 1234, function 1, as in scenario 5 of the spec. *)
Lemma address_codeword_integrity_witness :
  debug_word (encode_address (mk_msg 1234 1)) 2 = 0.
Proof.
  refine (proj1 (proj2 (proj2 (proj2
            (address_codeword_integrity (mk_msg 1234 1) 2 _ _))))).
  - simpl. lia.
  - simpl. lia.
Defined.

(** *** The receiver *)

Lemma land_mask_range x m n :
  0 <= n -> 0 <= m < 2 ^ n -> 0 <= Z.land x m < 2 ^ n.
Proof.
  intros Hn Hm.
  replace m with (Z.land m (Z.ones n))
    by (rewrite Z.land_ones by lia; apply Z.mod_small; lia).
  rewrite Z.land_assoc, Z.land_ones by lia.
  apply Z.mod_pos_bound. lia.
Qed.

Section ReceiverFacts.

Variable NUMERIC ALPHA size : Z.

Let put := put_codeword NUMERIC ALPHA size.
Let puts := put_codewords NUMERIC ALPHA size.

(** An idle codeword leaves a receiver without a pending page as it is. *)
Lemma put_idle_nothing_pending pocsag slot subslot :
  rx_msg_valid pocsag = 0 ->
  put pocsag CODEWORD_IDLE slot subslot = (pocsag, []).
Proof.
  intros Hv. unfold put, put_codeword.
  replace (CODEWORD_IDLE =? CODEWORD_SYNC) with false by reflexivity.
  rewrite andb_false_r.
  replace (debug_word CODEWORD_IDLE slot) with 0 by reflexivity.
  cbn [Z.ltb Z.compare]. rewrite Z.eqb_refl.
  unfold done_rx_msg. rewrite Hv. reflexivity.
Qed.

Lemma put_idles_nothing_pending idles : forall pocsag,
  rx_msg_valid pocsag = 0 ->
  puts pocsag (map idle_at idles) = (pocsag, []).
Proof.
  induction idles as [|[slot subslot] idles IH]; intros pocsag Hv.
  - reflexivity.
  - unfold puts in *. cbn [map idle_at put_codewords fst snd].
    fold put. rewrite put_idle_nothing_pending by assumption.
    rewrite IH by assumption. reflexivity.
Qed.

(** An idle codeword delivers the pending page and clears the flag. *)
Lemma put_idle_pending pocsag slot subslot :
  rx_msg_valid pocsag <> 0 ->
  put pocsag CODEWORD_IDLE slot subslot = done_rx_msg pocsag.
Proof.
  intros Hv. unfold put, put_codeword.
  replace (CODEWORD_IDLE =? CODEWORD_SYNC) with false by reflexivity.
  rewrite andb_false_r.
  replace (debug_word CODEWORD_IDLE slot) with 0 by reflexivity.
  cbn [Z.ltb Z.compare]. rewrite Z.eqb_refl. reflexivity.
Qed.

(** What a valid address codeword does to a receiver without a pending
    page: nothing is delivered, and the address is held with an empty
    text. *)
Lemma put_address pocsag word slot subslot :
  rx_msg_valid pocsag = 0 ->
  0 <= slot < 8 ->
  debug_word word slot = 0 ->
  word <> CODEWORD_IDLE ->
  Z.land word 0x80000000 = 0 ->
  put pocsag word slot subslot =
  (mk_pocsag 1 (Z.land (Z.shiftr word 10) 0x1ffff8 + slot)
     (Z.land (Z.shiftr word 11) 0x3) (rx_msg_data pocsag) 0 0, []).
Proof.
  intros Hv Hslot Hok Hidle Hadr. unfold put, put_codeword.
  destruct (Z.ltb_spec slot 0); [lia|]. cbn [andb].
  rewrite Hok. cbn [Z.ltb Z.compare].
  destruct (Z.eqb_spec word CODEWORD_IDLE); [contradiction|].
  rewrite Hadr. cbn [Z.eqb].
  unfold done_rx_msg. rewrite Hv. cbn [Z.eqb].
  unfold decode_address, u8, u32.
  rewrite (Z.mod_small slot) by lia.
  pose proof (land_mask_range (Z.shiftr word 10) 0x1ffff8 21) as Hm.
  rewrite Z.mod_small by lia. reflexivity.
Qed.

(** C9.  A receiver without a pending page is fed a valid address
    codeword, in slot [slot] of the batch, and then idle codewords.  The
    address codeword delivers nothing; the first idle codeword delivers
    one page, with the RIC [((word >> 10) & 0x1ffff8) + slot], the function
    bits [(word >> 11) & 3] and the empty text; the whole sequence
    delivers exactly that page. *)
Theorem single_address_batch (pocsag : pocsag_t) (word slot subslot : Z)
    (idle1 : Z * Z) (idles : list (Z * Z)) :
  rx_msg_valid pocsag = 0 ->
  0 <= slot < 8 ->
  debug_word word slot = 0 ->
  word <> CODEWORD_IDLE ->
  Z.land word 0x80000000 = 0 ->
  let received :=
    mk_page (Z.land (Z.shiftr word 10) 0x1ffff8 + slot)
      (Z.land (Z.shiftr word 11) 0x3) EmptyString in
  let after_address := put_codeword NUMERIC ALPHA size pocsag word slot subslot in
  let after_idle :=
    put_codeword NUMERIC ALPHA size (fst after_address) CODEWORD_IDLE
      (fst idle1) (snd idle1) in
  snd after_address = [] /\
  snd after_idle = [received] /\
  snd (put_codewords NUMERIC ALPHA size pocsag
         ((word, slot, subslot) :: map idle_at (idle1 :: idles))) = [received].
Proof.
  intros Hv Hslot Hok Hidle Hadr received after_address after_idle.
  pose proof (put_address pocsag word slot subslot Hv Hslot Hok Hidle Hadr) as Ha.
  fold put in after_address, after_idle.
  assert (Hi : after_idle =
               (mk_pocsag 0 (page_ric received) (page_function received)
                  (rx_msg_data pocsag) 0 0, [received])).
  { subst after_idle after_address. rewrite Ha. cbn [fst].
    rewrite put_idle_pending by (cbn; lia). reflexivity. }
  split; [subst after_address; rewrite Ha; reflexivity|].
  split; [rewrite Hi; reflexivity|].
  cbn [map put_codewords]. fold put. fold after_address.
  replace after_address with (fst after_address, snd after_address)
    by (destruct after_address; reflexivity).
  unfold idle_at at 1. cbn [fst snd]. fold after_idle.
  rewrite Hi. fold puts.
  rewrite put_idles_nothing_pending by reflexivity.
  subst after_address. rewrite Ha. reflexivity.
Qed.

End ReceiverFacts.

Lemma land_clear_low3 a b :
  0 <= a < 2 ^ 18 -> 0 <= b < 8 -> Z.land (a * 8 + b) 0x1ffff8 = a * 8.
Proof.
  intros Ha Hb.
  change (a * 8) with (a * 2 ^ 3).
  rewrite <- (lor_shiftl_add a b 3) by (change (2 ^ 3) with 8; lia).
  change 0x1ffff8 with (Z.shiftl (Z.ones 18) 3).
  rewrite <- Z.shiftl_mul_pow2 by lia.
  apply Z.bits_inj'. intros i Hi.
  rewrite Z.land_spec, Z.lor_spec.
  destruct (Z.ltb_spec i 3) as [Hlt|Hge].
  - rewrite !Z.shiftl_spec_low by lia. rewrite andb_false_r. reflexivity.
  - rewrite !Z.shiftl_spec by lia.
    replace (Z.testbit b i) with false.
    2:{ symmetry. replace b with (b mod 2 ^ 3) by (apply Z.mod_small; change (2 ^ 3) with 8; lia).
        apply Z.mod_pow2_bits_high. lia. }
    rewrite orb_false_r.
    destruct (Z.ltb_spec (i - 3) 18) as [Hin|Hout].
    + rewrite Z.ones_spec_low by lia. apply andb_true_r.
    + rewrite Z.ones_spec_high by lia. rewrite andb_false_r.
      replace a with (a mod 2 ^ 18) by (apply Z.mod_small; lia).
      symmetry. apply Z.mod_pow2_bits_high. lia.
Qed.

(** The RIC and the function of a message come back from its address
    codeword and the slot [ric & 7] in which the encoder sends it. *)
Lemma decode_encode_address msg :
  0 <= ric msg < 2 ^ 21 -> 0 <= function msg < 4 ->
  decode_address (encode_address msg) (Z.land (ric msg) 7)
  = (ric msg, function msg).
Proof.
  intros Hric Hfn.
  destruct (encode_address_fields msg Hric Hfn) as [Hpay Hword].
  cbv zeta in Hword.
  set (payload := ric msg / 8 * 4 + function msg) in *.
  pose proof (pocsag_crc_range payload) as Hc. change (2 ^ 10) with 1024 in Hc.
  set (crc := pocsag_crc payload) in *.
  pose proof (pocsag_parity_range (payload * 1024 + crc)) as Hq.
  set (par := pocsag_parity (payload * 1024 + crc)) in *.
  assert (H18 : 0 <= ric msg / 8 < 2 ^ 18).
  { split; [apply Z.div_pos; lia | apply Z.div_lt_upper_bound; lia]. }
  unfold decode_address. f_equal.
  - rewrite Z.shiftr_div_pow2 by lia. change (2 ^ 10) with 1024.
    set (t := (2 * crc + par) / 1024).
    assert (Ht : 0 <= t < 2).
    { subst t. split; [apply Z.div_pos; lia | apply Z.div_lt_upper_bound; lia]. }
    replace (encode_address msg / 1024)
      with (ric msg / 8 * 8 + (2 * function msg + t)).
    2:{ rewrite Hword. subst t payload.
        pose proof (Z.div_mod (2 * crc + par) 1024 ltac:(lia)) as Hd.
        pose proof (Z.mod_pos_bound (2 * crc + par) 1024 ltac:(lia)) as Hb.
        apply Z.div_unique with (r := (2 * crc + par) mod 1024); lia. }
    rewrite land_clear_low3 by lia.
    change 7 with (Z.ones 3). rewrite Z.land_ones by lia. change (2 ^ 3) with 8.
    pose proof (Z.div_mod (ric msg) 8 ltac:(lia)) as Hd.
    pose proof (Z.mod_pos_bound (ric msg) 8 ltac:(lia)) as Hb.
    unfold u32. rewrite Z.mod_small; lia.
  - rewrite Z.shiftr_div_pow2 by lia. change (2 ^ 11) with 2048.
    replace (encode_address msg / 2048) with payload
      by (rewrite Hword; apply Z.div_unique with (r := 2 * crc + par); lia).
    change 0x3 with (Z.ones 2). rewrite Z.land_ones by lia. change (2 ^ 2) with 4.
    subst payload. symmetry. apply Z.mod_unique with (q := ric msg / 8); lia.
Qed.

(** The witness of C9: the address codeword of RIC 1234, function 1, in
    slot [1234 & 7 = 2], then three idle codewords. *)
Lemma single_address_batch_witness :
  snd (put_codewords 0 3 256
         (mk_pocsag 0 0 0 (repeat 0 256) 0 0)
         ((encode_address (mk_msg 1234 1), 2, 0)
          :: map idle_at [(2, 1); (3, 0); (3, 1)]))
  = [mk_page 1234 1 EmptyString].
Proof.
  refine (proj2 (proj2
            (single_address_batch 0 3 256 (mk_pocsag 0 0 0 (repeat 0 256) 0 0)
               (encode_address (mk_msg 1234 1)) 2 0 (2, 1) [(3, 0); (3, 1)]
               _ _ _ _ _))).
  - reflexivity.
  - lia.
  - vm_compute. reflexivity.
  - vm_compute. discriminate.
  - vm_compute. reflexivity.
Defined.

End PocsagCodewords.

(** ** Case analysis over a finite range *)

Lemma In_Z_range k n : 0 <= k < Z.of_nat n -> In k (Z_range n).
Proof.
  intros Hk. unfold Z_range. apply in_map_iff.
  exists (Z.to_nat k). split; [lia|]. apply in_seq. lia.
Qed.

Lemma forallb_Z_range (f : Z -> bool) n :
  forallb f (Z_range n) = true ->
  forall k, 0 <= k < Z.of_nat n -> f k = true.
Proof.
  intros Hall k Hk. rewrite forallb_forall in Hall.
  apply Hall, In_Z_range, Hk.
Qed.

(** ** Radiocom 2000: the supervisory digit *)

Section Supervisory.

Import R2000.

(** Only the four lowest bits of the relay number enter the digit. *)
Lemma encode_super_low_relais nconv relais :
  r2000_encode_super nconv relais = r2000_encode_super nconv (Z.land relais 0xf).
Proof.
  unfold r2000_encode_super. rewrite <- (Z.land_assoc relais 0xf 0xf).
  reflexivity.
Qed.

Lemma pair_eqb_eq a b : pair_eqb a b = true -> a = b.
Proof.
  destruct a as [a1 a2], b as [b1 b2]. unfold pair_eqb. cbn [fst snd].
  rewrite andb_true_iff, !Z.eqb_eq. intros [-> ->]. reflexivity.
Qed.

Lemma decode_encode_all :
  forallb (fun n => forallb (decode_encode_ok n) (Z_range 16)) (Z_range 8) = true.
Proof. vm_compute. reflexivity. Qed.

Lemma encode_decode_all : forallb encode_decode_ok (Z_range 128) = true.
Proof. vm_compute. reflexivity. Qed.

Lemma decode_encode_ok_sound nconv relais :
  decode_encode_ok nconv relais = true ->
  let super := r2000_encode_super nconv relais in
  receive_super_decode true super = (nconv, relais) /\
  receive_super_decode false (Z.lxor super 0x7f) = (nconv, relais) /\
  0 <= super < 128.
Proof.
  unfold decode_encode_ok. cbv zeta.
  rewrite !andb_true_iff, Z.leb_le, Z.ltb_lt.
  intros [[[H1 H2] H3] H4].
  apply pair_eqb_eq in H1. apply pair_eqb_eq in H2. auto.
Qed.

Lemma encode_decode_ok_sound super :
  encode_decode_ok super = true ->
  let decoded := receive_super_decode false super in
  r2000_encode_super (fst decoded) (snd decoded) = Z.lxor super 0x7f /\
  0 <= fst decoded <= 7 /\ 0 <= snd decoded <= 15.
Proof.
  unfold encode_decode_ok. cbv zeta.
  destruct (receive_super_decode false super) as [nconv relais]. cbn [fst snd].
  rewrite !andb_true_iff, !Z.leb_le, Z.eqb_eq. intuition.
Qed.

(** C10.  For [nconv] in 0..7 and any relay number, the decoding of
    [r2000_receive_super], applied to the digit of [r2000_encode_super]
    with its final [^ 0x7f] undone (by the loopback branch of the decoder,
    or beforehand), gives back [nconv] and the four lowest bits of the
    relay number; the encoded digit has 7 bits; and encoding what the
    decoder reads from any 7-bit digit gives that digit back, inverted:
    the two bit permutations are inverse to each other. *)
Theorem supervisory_digit_roundtrip :
  (forall nconv relais, 0 <= nconv <= 7 ->
     let super := r2000_encode_super nconv relais in
     receive_super_decode true super = (nconv, Z.land relais 0xf) /\
     receive_super_decode false (Z.lxor super 0x7f) = (nconv, Z.land relais 0xf) /\
     0 <= super < 128) /\
  (forall super, 0 <= super < 128 ->
     let decoded := receive_super_decode false super in
     r2000_encode_super (fst decoded) (snd decoded) = Z.lxor super 0x7f /\
     0 <= fst decoded <= 7 /\ 0 <= snd decoded <= 15).
Proof.
  split.
  - intros nconv relais Hn.
    rewrite encode_super_low_relais.
    pose proof (land_mask_range relais 0xf 4 ltac:(lia) ltac:(lia)) as Hr.
    apply decode_encode_ok_sound.
    apply (forallb_Z_range (decode_encode_ok nconv) 16); [|exact Hr].
    apply (forallb_Z_range (fun n => forallb (decode_encode_ok n) (Z_range 16)) 8
             decode_encode_all).
    lia.
  - intros super Hs. apply encode_decode_ok_sound.
    apply (forallb_Z_range encode_decode_ok 128 encode_decode_all). exact Hs.
Qed.

(** The digit for [nconv = 3] and relay 0x123, sent and read back. *)
Example supervisory_digit_3_0x123 :
  r2000_encode_super 3 0x123 = 0x19 /\
  receive_super_decode true 0x19 = (3, 3).
Proof. vm_compute. split; reflexivity. Qed.

End Supervisory.

(** ** C-Netz: channel frequencies *)

Section Frequencies.

Import Cnetz.

Lemma kanal2freq_all :
  forallb (fun k => negb (valid_kanal k) || kanal2freq_ok k) (Z_range 948) = true.
Proof. vm_compute. reflexivity. Qed.

(** Any non-zero [unterband] selects the frequency of the mobile station. *)
Lemma kanal2freq_unterband k u :
  u <> 0 -> cnetz_kanal2freq k u = cnetz_kanal2freq k 1.
Proof.
  intros Hu. unfold cnetz_kanal2freq.
  destruct (Z.eqb_spec u 0); [contradiction | reflexivity].
Qed.

(** C8.  For every channel number of the first system (odd 1..947, even
    2..758), [cnetz_kanal2freq] returns finite numbers; the frequency of
    the base station is the binary64 number next to the nominal
    465.750 MHz - (k+1)/2 * 10 kHz (odd [k]) or 465.750 MHz - k/2 * 12.5 kHz
    (even [k]): it differs from it by at most [2^-45] MHz; and the frequency
    of the mobile station is exactly 10 MHz below the value returned for
    the base station. *)
Theorem kanal2freq_nominal (k u : Z) :
  valid_kanal k = true ->
  u <> 0 ->
  exists down up : Q,
    float_value (cnetz_kanal2freq k 0) = Some down /\
    float_value (cnetz_kanal2freq k u) = Some up /\
    (Qabs (down - nominal_freq k) <= 1 # 2 ^ 45)%Q /\
    (up == down - 10)%Q.
Proof.
  intros Hv Hu. rewrite (kanal2freq_unterband k u Hu).
  assert (Hk : 0 <= k < Z.of_nat 948).
  { unfold valid_kanal in Hv. destruct (Z.odd k); lia. }
  pose proof (forallb_Z_range _ 948 kanal2freq_all k Hk) as Hok.
  cbv beta in Hok. rewrite Hv in Hok. cbn [negb orb] in Hok.
  unfold kanal2freq_ok in Hok.
  destruct (float_value (cnetz_kanal2freq k 0)) as [down|]; [|discriminate].
  destruct (float_value (cnetz_kanal2freq k 1)) as [up|]; [|discriminate].
  apply andb_true_iff in Hok. destruct Hok as [Hle Heq].
  exists down, up. repeat split.
  - apply Qle_bool_iff. exact Hle.
  - apply Qeq_bool_iff. exact Heq.
Qed.

(** The witness of C8: channel 131, the organisation channel, at
    465.090 MHz and 455.090 MHz. *)
Lemma kanal2freq_nominal_witness :
  exists down up : Q,
    float_value (cnetz_kanal2freq 131 0) = Some down /\
    float_value (cnetz_kanal2freq 131 1) = Some up /\
    (Qabs (down - nominal_freq 131) <= 1 # 2 ^ 45)%Q /\
    (up == down - 10)%Q.
Proof.
  apply (kanal2freq_nominal 131 1).
  - reflexivity.
  - discriminate.
Defined.

Example kanal2freq_131 :
  cnetz_kanal2freq 131 0 = 465.08999999999997%float /\
  (nominal_freq 131 == 46509 # 100)%Q.
Proof. split; vm_compute; reflexivity. Qed.

End Frequencies.

(** ** Binary64 numbers and their exact values *)

Section FloatFacts.

(** Powers of two are positive. *)
Lemma Qpow2_pos e : (0 < Qpow2 e)%Q.
Proof.
  unfold Qpow2. destruct (0 <=? e) eqn:He.
  - apply Z.leb_le in He. rewrite <- (Zlt_Qlt 0). apply Z.pow_pos_nonneg; lia.
  - reflexivity.
Qed.

(** Raising the exponent by [k] multiplies by [2 ^ k]. *)
Lemma Qpow2_add e k :
  0 <= k -> (Qpow2 (e + k) == inject_Z (2 ^ k) * Qpow2 e)%Q.
Proof.
  intros Hk. unfold Qpow2.
  destruct (Z.leb_spec 0 e) as [He|He]; destruct (Z.leb_spec 0 (e + k)) as [Hek|Hek];
    try lia.
  - rewrite <- inject_Z_mult, Z.pow_add_r by lia.
    rewrite Z.mul_comm. reflexivity.
  - unfold Qeq, Qmult, inject_Z. cbn [Qnum Qden].
    assert (0 < 2 ^ (- e)) by (apply Z.pow_pos_nonneg; lia).
    rewrite Pos.mul_1_l, Z2Pos.id by assumption.
    replace (2 ^ k) with (2 ^ (e + k) * 2 ^ (- e))
      by (rewrite <- Z.pow_add_r by lia; f_equal; lia).
    ring.
  - unfold Qeq, Qmult, inject_Z. cbn [Qnum Qden].
    assert (0 < 2 ^ (- e)) by (apply Z.pow_pos_nonneg; lia).
    assert (0 < 2 ^ (- (e + k))) by (apply Z.pow_pos_nonneg; lia).
    rewrite Pos.mul_1_l, !Z2Pos.id by assumption.
    replace (2 ^ (- e)) with (2 ^ k * 2 ^ (- (e + k)))
      by (rewrite <- Z.pow_add_r by lia; f_equal; lia).
    ring.
Qed.

(** The value of a finite number is its signed mantissa times the power
    of two of its exponent. *)
Lemma SF_value_scale s m e :
  (SF_value s m e == inject_Z (cond_Zopp s (Z.pos m)) * Qpow2 e)%Q.
Proof.
  unfold SF_value, Qpow2.
  destruct (0 <=? e); destruct s; cbn [cond_Zopp];
    unfold Qeq, Qmult, Qopp, inject_Z; cbn [Qnum Qden];
    rewrite ?Pos.mul_1_l; ring.
Qed.

(** The number of binary digits of a positive number. *)
Lemma digits2_pos_bounds p :
  2 ^ (Z.pos (digits2_pos p) - 1) <= Z.pos p < 2 ^ Z.pos (digits2_pos p).
Proof.
  induction p as [p IH|p IH|]; cbn [digits2_pos].
  - rewrite Pos2Z.inj_succ.
    replace (Z.succ (Z.pos (digits2_pos p)) - 1) with (Z.succ (Z.pos (digits2_pos p) - 1))
      by lia.
    rewrite !Z.pow_succ_r by lia. lia.
  - rewrite Pos2Z.inj_succ.
    replace (Z.succ (Z.pos (digits2_pos p)) - 1) with (Z.succ (Z.pos (digits2_pos p) - 1))
      by lia.
    rewrite !Z.pow_succ_r by lia. lia.
  - cbn. lia.
Qed.

(** A mantissa below [2 ^ k] has at most [k] binary digits. *)
Lemma digits2_pos_le p k :
  0 <= k -> Z.pos p < 2 ^ k -> Z.pos (digits2_pos p) <= k.
Proof.
  intros Hk Hp. destruct (digits2_pos_bounds p) as [Hl _].
  destruct (Z.le_gt_cases (Z.pos (digits2_pos p)) k) as [H|H]; [exact H|].
  exfalso.
  assert (2 ^ k <= 2 ^ (Z.pos (digits2_pos p) - 1))
    by (apply Z.pow_le_mono_r; lia).
  lia.
Qed.

(** Shifting a mantissa left by [d] places multiplies it by [2 ^ d]. *)
Lemma iter_xO_value m d : Z.pos (Pos.iter xO m d) = Z.pos m * 2 ^ Z.pos d.
Proof.
  induction d as [|d IH] using Pos.peano_ind.
  - cbn. lia.
  - rewrite Pos.iter_succ, Pos2Z.inj_succ, Z.pow_succ_r by lia.
    rewrite Pos2Z.inj_xO, IH. ring.
Qed.

(** ... and adds [d] to the number of its digits. *)
Lemma iter_xO_digits m d :
  Z.pos (digits2_pos (Pos.iter xO m d)) = Z.pos (digits2_pos m) + Z.pos d.
Proof.
  induction d as [|d IH] using Pos.peano_ind.
  - cbn [Pos.iter digits2_pos]. lia.
  - rewrite Pos.iter_succ. cbn [digits2_pos].
    rewrite Pos2Z.inj_succ, IH. lia.
Qed.

(** [shl_align] towards a smaller exponent multiplies the mantissa by the
    power of two. *)
Lemma shl_align_value m e e' :
  e' <= e ->
  Z.pos (fst (shl_align m e e')) = Z.pos m * 2 ^ (e - e') /\
  Z.pos (digits2_pos (fst (shl_align m e e')))
  = Z.pos (digits2_pos m) + (e - e') /\
  snd (shl_align m e e') = e'.
Proof.
  intros He. unfold shl_align.
  destruct (e' - e) as [|d|d] eqn:Hd; try lia.
  - assert (e = e') by lia. subst e'. cbn [fst snd].
    rewrite Z.sub_diag. cbn. repeat split; lia.
  - cbn [fst snd]. rewrite iter_xO_value, iter_xO_digits.
    replace (e - e') with (Z.pos d) by lia. repeat split; reflexivity.
Qed.

(** A number that fits the format is rounded to itself. *)
Lemma binary_round_exact s m e :
  let e' := fexp prec emax (Z.pos (digits2_pos m) + e) in
  e' <= e -> e' <= emax - prec ->
  exists mz,
    binary_round prec emax s m e = S754_finite s mz e' /\
    Z.pos mz = Z.pos m * 2 ^ (e - e') /\
    valid_binary (S754_finite s mz e') = true.
Proof.
  intros e' He Hmax. unfold binary_round. fold e'.
  destruct (shl_align_value m e e' He) as [Hv [Hd Hs]].
  destruct (shl_align m e e') as [mz ez]. cbn [fst snd] in *. subst ez.
  exists mz.
  assert (Hf : fexp prec emax (Z.pos (digits2_pos mz) + e') = e').
  { rewrite Hd. replace (Z.pos (digits2_pos m) + (e - e') + e')
      with (Z.pos (digits2_pos m) + e) by lia. reflexivity. }
  split; [|split; [exact Hv|]].
  - unfold binary_round_aux, shr_fexp. cbn [Zdigits2 shr_record_of_loc].
    rewrite Hf, Z.sub_diag. cbn [shr shr_m loc_of_shr_record round_nearest_even].
    cbn [Zdigits2 shr_record_of_loc]. rewrite Hf, Z.sub_diag.
    cbn [shr shr_m].
    apply Z.leb_le in Hmax. rewrite Hmax. reflexivity.
  - unfold valid_binary. cbn [SpecFloat.valid_binary]. unfold bounded, canonical_mantissa.
    rewrite Hf, Z.eqb_refl. apply Z.leb_le in Hmax. rewrite Hmax. reflexivity.
Qed.

(** What [valid_binary] says of a finite number. *)
Lemma valid_finite s m e :
  valid_binary (S754_finite s m e) = true ->
  -1074 <= e <= 971 /\ Z.pos m < 2 ^ 53 /\
  (-1074 < e -> 2 ^ 52 <= Z.pos m).
Proof.
  unfold valid_binary. cbn [SpecFloat.valid_binary].
  unfold bounded, canonical_mantissa, fexp, emin.
  change prec with 53. change emax with 1024.
  rewrite andb_true_iff, Z.eqb_eq, Z.leb_le. intros [Hc Hb].
  destruct (digits2_pos_bounds m) as [Hl Hu].
  assert (Hd : Z.pos (digits2_pos m) <= 53) by lia.
  split; [lia|]. split.
  - eapply Z.lt_le_trans; [exact Hu|]. apply Z.pow_le_mono_r; lia.
  - intros He. assert (Z.pos (digits2_pos m) = 53) by lia.
    replace 52 with (Z.pos (digits2_pos m) - 1) by lia. exact Hl.
Qed.

(** The binary64 number [r * 2 ^ e], for a mantissa of at most 53 bits. *)
Lemma binary_normalize_finite s r e sz :
  0 < r < 2 ^ 53 -> -1074 <= e <= 971 ->
  exists mz ez,
    binary_normalize prec emax (cond_Zopp s r) e sz = S754_finite s mz ez /\
    valid_binary (S754_finite s mz ez) = true /\
    (SF_value s mz ez == inject_Z (cond_Zopp s r) * Qpow2 e)%Q.
Proof.
  intros Hr He.
  destruct r as [|m|m]; [lia| |lia].
  assert (Hd : Z.pos (digits2_pos m) <= 53) by (apply digits2_pos_le; lia).
  destruct (binary_round_exact s m e) as [mz [Hb [Hv Hvalid]]].
  { unfold fexp, emin. change prec with 53. change emax with 1024. lia. }
  { unfold fexp, emin. change prec with 53. change emax with 1024. lia. }
  set (e' := fexp prec emax (Z.pos (digits2_pos m) + e)) in *.
  assert (He' : e' <= e)
    by (unfold e', fexp, emin; change prec with 53; change emax with 1024; lia).
  exists mz, e'. split; [|split; [exact Hvalid|]].
  - rewrite <- Hb. destruct s; reflexivity.
  - rewrite SF_value_scale.
    pose proof (Qpow2_add e' (e - e') ltac:(lia)) as Hp.
    replace (e' + (e - e')) with e in Hp by lia. rewrite Hp.
    replace (cond_Zopp s (Z.pos mz))
      with (cond_Zopp s (Z.pos m) * 2 ^ (e - e'))
      by (rewrite Hv; destruct s; cbn [cond_Zopp]; ring).
    rewrite inject_Z_mult. ring.
Qed.

(** The same, as the value of the binary64 number. *)
Lemma binary_normalize_exact s r e :
  0 <= r < 2 ^ 53 -> -1074 <= e <= 971 ->
  exists q,
    float_value (SF2Prim (binary_normalize prec emax (cond_Zopp s r) e s)) = Some q /\
    (q == inject_Z (cond_Zopp s r) * Qpow2 e)%Q.
Proof.
  intros Hr He.
  destruct (Z.eq_dec r 0) as [->|Hnz].
  - exists 0%Q.
    replace (cond_Zopp s 0) with 0 by (destruct s; reflexivity). split.
    + cbn [binary_normalize]. unfold float_value.
      rewrite FloatAxioms.Prim2SF_SF2Prim by reflexivity. reflexivity.
    + rewrite Qmult_0_l. reflexivity.
  - destruct (binary_normalize_finite s r e s) as [mz [ez [Hb [Hvalid Hv]]]];
      [lia | lia |].
    exists (SF_value s mz ez). split; [|exact Hv].
    rewrite Hb. unfold float_value.
    rewrite FloatAxioms.Prim2SF_SF2Prim by exact Hvalid. reflexivity.
Qed.

(** The value of a number that [float_value] accepts. *)
Lemma float_value_finite f v :
  float_value f = Some v ->
  (exists s, Prim2SF f = S754_zero s /\ v = 0%Q) \/
  (exists s m e,
     Prim2SF f = S754_finite s m e /\ v = SF_value s m e /\
     -1074 <= e <= 971 /\ Z.pos m < 2 ^ 53 /\ (-1074 < e -> 2 ^ 52 <= Z.pos m)).
Proof.
  unfold float_value. intros H.
  pose proof (FloatAxioms.Prim2SF_valid f) as Hv.
  destruct (Prim2SF f) as [s|s| |s m e]; try discriminate.
  - left. exists s. split; [reflexivity|]. congruence.
  - right. exists s, m, e. split; [reflexivity|].
    split; [injection H as <-; reflexivity|]. apply (valid_finite s), Hv.
Qed.

(** The sign bit is the sign of the value. *)
Lemma SF_value_sign m e :
  (SF_value true m e < 0)%Q /\ (0 < SF_value false m e)%Q.
Proof.
  assert (Hp : (0 < inject_Z (Z.pos m) * Qpow2 e)%Q).
  { apply Qmult_lt_0_compat; [reflexivity | apply Qpow2_pos]. }
  split.
  - rewrite SF_value_scale. cbn [cond_Zopp].
    change (- Z.pos m) with (Z.opp (Z.pos m)). rewrite inject_Z_opp.
    setoid_replace (- inject_Z (Z.pos m) * Qpow2 e)%Q
      with (- (inject_Z (Z.pos m) * Qpow2 e))%Q by ring.
    apply (Qopp_lt_compat 0) in Hp. exact Hp.
  - rewrite SF_value_scale. exact Hp.
Qed.

(** [c_fmod] is the exact remainder: for a finite [x] that is not negative
    and a finite positive [y], its value is [x - n * y] for an integer [n],
    and lies in [0, y). *)
Theorem c_fmod_exact x y vx vy :
  float_value x = Some vx -> float_value y = Some vy ->
  (0 <= vx)%Q -> (0 < vy)%Q ->
  exists q n,
    float_value (c_fmod x y) = Some q /\ 0 <= n /\
    (q == vx - inject_Z n * vy)%Q /\ (0 <= q)%Q /\ (q < vy)%Q.
Proof.
  intros Hx Hy Hx0 Hy0.
  destruct (float_value_finite y vy Hy)
    as [[sy [Ey ->]]|[sy [my [ey [Ey [-> [Hey [Hmy _]]]]]]]];
    [exfalso; revert Hy0; apply Qlt_irrefl|].
  destruct (SF_value_sign my ey) as [Hsy _].
  destruct sy;
    [exfalso; apply (Qlt_irrefl 0); eapply Qlt_trans; [exact Hy0 | exact Hsy]|].
  clear Hsy.
  destruct (float_value_finite x vx Hx)
    as [[sx [Ex ->]]|[sx [mx [ex [Ex [-> [Hex [Hmx _]]]]]]]].
  - exists 0%Q, 0. unfold c_fmod. rewrite Ex, Ey. rewrite Hx.
    repeat split; try lia; try apply Qle_refl; try exact Hy0; try ring.
  - destruct (SF_value_sign mx ex) as [Hsx _].
    destruct sx;
      [exfalso; apply (Qlt_irrefl 0); eapply Qle_lt_trans; [exact Hx0 | exact Hsx]|].
    clear Hsx.
    unfold c_fmod. rewrite Ex, Ey. cbv zeta.
    set (e := Z.min ex ey).
    set (A := Z.pos mx * 2 ^ (ex - e)).
    set (B := Z.pos my * 2 ^ (ey - e)).
    assert (HA : 0 < A) by (apply Z.mul_pos_pos; [lia | apply Z.pow_pos_nonneg; lia]).
    assert (HB : 0 < B) by (apply Z.mul_pos_pos; [lia | apply Z.pow_pos_nonneg; lia]).
    pose proof (Z.mod_pos_bound A B HB) as Hr.
    assert (Hr53 : A mod B < 2 ^ 53).
    { destruct (Z.le_gt_cases ex ey) as [Hle|Hgt].
      - assert (A = Z.pos mx)
          by (unfold A, e; rewrite Z.min_l, Z.sub_diag by lia; cbn; lia).
        pose proof (Z.mod_le A B). lia.
      - assert (B = Z.pos my)
          by (unfold B, e; rewrite Z.min_r, Z.sub_diag by lia; cbn; lia).
        lia. }
    destruct (binary_normalize_exact false (A mod B) e) as [q [Hq Hv]];
      [lia | unfold e; lia |].
    cbn [cond_Zopp] in Hq, Hv.
    exists q, (A / B). split; [exact Hq|].
    split; [apply Z.div_pos; lia|].
    assert (HvA : (SF_value false mx ex == inject_Z A * Qpow2 e)%Q).
    { rewrite SF_value_scale. cbn [cond_Zopp].
      pose proof (Qpow2_add e (ex - e) ltac:(unfold e; lia)) as Hp.
      replace (e + (ex - e)) with ex in Hp by lia. rewrite Hp.
      unfold A. rewrite inject_Z_mult. ring. }
    assert (HvB : (SF_value false my ey == inject_Z B * Qpow2 e)%Q).
    { rewrite SF_value_scale. cbn [cond_Zopp].
      pose proof (Qpow2_add e (ey - e) ltac:(unfold e; lia)) as Hp.
      replace (e + (ey - e)) with ey in Hp by lia. rewrite Hp.
      unfold B. rewrite inject_Z_mult. ring. }
    split; [|split].
    + rewrite Hv, HvA, HvB.
      rewrite (Z.mod_eq A B) by lia.
      unfold Z.sub. rewrite inject_Z_plus, inject_Z_opp, inject_Z_mult. ring.
    + rewrite Hv. apply Qmult_le_0_compat.
      * rewrite <- (Zle_Qle 0). lia.
      * apply Qlt_le_weak, Qpow2_pos.
    + rewrite Hv, HvB. apply Qmult_lt_compat_r; [apply Qpow2_pos|].
      rewrite <- Zlt_Qlt. lia.
Qed.

(** Two positive numbers of the format compare as their values do. *)
Lemma SF_value_lt_exp m1 e1 m2 e2 :
  -1074 <= e1 -> Z.pos m1 < 2 ^ 53 -> (-1074 < e2 -> 2 ^ 52 <= Z.pos m2) ->
  e1 < e2 -> (SF_value false m1 e1 < SF_value false m2 e2)%Q.
Proof.
  intros He1 Hm1 Hm2 Hlt.
  rewrite !SF_value_scale. cbn [cond_Zopp].
  pose proof (Qpow2_add e1 (e2 - e1) ltac:(lia)) as Hp.
  replace (e1 + (e2 - e1)) with e2 in Hp by lia. rewrite Hp.
  setoid_replace (inject_Z (Z.pos m2) * (inject_Z (2 ^ (e2 - e1)) * Qpow2 e1))%Q
    with (inject_Z (Z.pos m2 * 2 ^ (e2 - e1)) * Qpow2 e1)%Q
    by (rewrite inject_Z_mult; ring).
  apply Qmult_lt_compat_r; [apply Qpow2_pos|].
  rewrite <- Zlt_Qlt.
  assert (2 <= 2 ^ (e2 - e1)).
  { change 2 with (2 ^ 1) at 1. apply Z.pow_le_mono_r; lia. }
  assert (2 ^ 52 <= Z.pos m2) by (apply Hm2; lia).
  change (2 ^ 53) with (2 ^ 52 * 2) in Hm1. nia.
Qed.

(** On one exponent, values are ordered as the mantissas are. *)
Lemma SF_value_lt_mant m1 m2 e :
  (SF_value false m1 e < SF_value false m2 e)%Q <-> (m1 < m2)%positive.
Proof.
  rewrite !SF_value_scale. cbn [cond_Zopp]. split.
  - intros H. destruct (Pos.lt_total m1 m2) as [Hlt|[Heq|Hgt]]; [exact Hlt| |].
    + subst. exfalso. revert H. apply Qlt_irrefl.
    + exfalso. apply (Qlt_irrefl (inject_Z (Z.pos m1) * Qpow2 e)).
      eapply Qlt_trans; [exact H|].
      apply Qmult_lt_compat_r; [apply Qpow2_pos|].
      rewrite <- Zlt_Qlt. lia.
  - intros H. apply Qmult_lt_compat_r; [apply Qpow2_pos|].
    rewrite <- Zlt_Qlt. lia.
Qed.

(** [<?] on two numbers that are not negative is the order of their
    values. *)
Lemma ltb_value a b va vb :
  float_value a = Some va -> float_value b = Some vb ->
  (0 <= va)%Q -> (0 <= vb)%Q ->
  ((a <? b)%float = true <-> (va < vb)%Q).
Proof.
  intros Ha Hb Ha0 Hb0. rewrite FloatAxioms.ltb_spec. unfold SFltb.
  destruct (float_value_finite a va Ha)
    as [[sa [Ea ->]]|[sa [ma [ea [Ea [-> [Hea [Hma Hna]]]]]]]];
    destruct (float_value_finite b vb Hb)
      as [[sb [Eb ->]]|[sb [mb [eb [Eb [-> [Heb [Hmb Hnb]]]]]]]];
    rewrite Ea, Eb; cbn [SFcompare].
  - split; [discriminate | intros H; exfalso; revert H; apply Qlt_irrefl].
  - destruct (SF_value_sign mb eb) as [Hneg Hpos].
    destruct sb;
      [exfalso; apply (Qlt_irrefl 0); eapply Qle_lt_trans; [exact Hb0 | exact Hneg]|].
    split; [intros _; exact Hpos | reflexivity].
  - destruct (SF_value_sign ma ea) as [Hneg Hpos].
    destruct sa;
      [exfalso; apply (Qlt_irrefl 0); eapply Qle_lt_trans; [exact Ha0 | exact Hneg]|].
    split; [discriminate|].
    intros H. exfalso. apply (Qlt_irrefl 0). eapply Qlt_trans; [exact Hpos | exact H].
  - destruct (SF_value_sign ma ea) as [Hnega Hposa].
    destruct (SF_value_sign mb eb) as [Hnegb Hposb].
    destruct sa;
      [exfalso; apply (Qlt_irrefl 0); eapply Qle_lt_trans; [exact Ha0 | exact Hnega]|].
    destruct sb;
      [exfalso; apply (Qlt_irrefl 0); eapply Qle_lt_trans; [exact Hb0 | exact Hnegb]|].
    change (PosDef.Pos.compare_cont Eq ma mb) with (Pos.compare ma mb).
    destruct (Z.compare_spec ea eb) as [Heq|Hlt|Hgt].
    + subst eb. rewrite SF_value_lt_mant.
      destruct (Pos.compare_spec ma mb) as [E|L|G].
      * subst. split; [discriminate | intros H; exfalso; revert H; apply Pos.lt_irrefl].
      * split; [intros _; exact L | reflexivity].
      * split; [discriminate|]. intros H. exfalso.
        apply (Pos.lt_irrefl ma). eapply Pos.lt_trans; eassumption.
    + split; [intros _|reflexivity].
      apply SF_value_lt_exp; [lia | assumption | assumption | assumption].
    + split; [discriminate|]. intros H. exfalso.
      apply (Qlt_irrefl (SF_value false ma ea)).
      eapply Qlt_trans; [exact H|].
      apply SF_value_lt_exp; [lia | assumption | assumption | assumption].
Qed.

(** Subtracting a number from one that is at least half of it and below it
    is exact. *)
Lemma sub_exact r M q vm :
  float_value r = Some q -> float_value M = Some vm ->
  (0 < q)%Q -> (q < vm)%Q -> (vm <= 2 * q)%Q ->
  exists d, float_value (r - M)%float = Some d /\ (d == q - vm)%Q.
Proof.
  intros Hr HM Hq0 HqM Hhalf.
  destruct (float_value_finite r q Hr)
    as [[sr [Er ->]]|[sr [mr [er [Er [-> [Her [Hmr _]]]]]]]];
    [exfalso; revert Hq0; apply Qlt_irrefl|].
  destruct (SF_value_sign mr er) as [Hnr _].
  destruct sr;
    [exfalso; apply (Qlt_irrefl 0); eapply Qlt_trans; [exact Hq0 | exact Hnr]|].
  clear Hnr.
  assert (Hvm0 : (0 < vm)%Q) by (eapply Qlt_trans; eassumption).
  destruct (float_value_finite M vm HM)
    as [[sM [EM ->]]|[sM [mM [eM [EM [-> [HeM [HmM _]]]]]]]];
    [exfalso; revert Hvm0; apply Qlt_irrefl|].
  destruct (SF_value_sign mM eM) as [HnM _].
  destruct sM;
    [exfalso; apply (Qlt_irrefl 0); eapply Qlt_trans; [exact Hvm0 | exact HnM]|].
  clear HnM.
  set (ez := Z.min er eM).
  destruct (shl_align_value mr er ez ltac:(unfold ez; lia)) as [HA _].
  destruct (shl_align_value mM eM ez ltac:(unfold ez; lia)) as [HB _].
  set (A := Z.pos (fst (shl_align mr er ez))) in *.
  set (B := Z.pos (fst (shl_align mM eM ez))) in *.
  assert (HvA : (SF_value false mr er == inject_Z A * Qpow2 ez)%Q).
  { rewrite SF_value_scale. cbn [cond_Zopp].
    pose proof (Qpow2_add ez (er - ez) ltac:(unfold ez; lia)) as Hp.
    replace (ez + (er - ez)) with er in Hp by lia. rewrite Hp.
    rewrite HA, inject_Z_mult. ring. }
  assert (HvB : (SF_value false mM eM == inject_Z B * Qpow2 ez)%Q).
  { rewrite SF_value_scale. cbn [cond_Zopp].
    pose proof (Qpow2_add ez (eM - ez) ltac:(unfold ez; lia)) as Hp.
    replace (ez + (eM - ez)) with eM in Hp by lia. rewrite Hp.
    rewrite HB, inject_Z_mult. ring. }
  assert (HAB : A < B).
  { rewrite HvA, HvB in HqM.
    apply Qmult_lt_r in HqM; [|apply Qpow2_pos].
    rewrite <- Zlt_Qlt in HqM. exact HqM. }
  assert (HBA : B <= 2 * A).
  { rewrite HvA, HvB in Hhalf.
    setoid_replace (2 * (inject_Z A * Qpow2 ez))%Q
      with (inject_Z (2 * A) * Qpow2 ez)%Q in Hhalf
      by (rewrite inject_Z_mult; ring).
    apply Qmult_le_r in Hhalf; [|apply Qpow2_pos].
    rewrite <- Zle_Qle in Hhalf. exact Hhalf. }
  assert (H53 : B - A < 2 ^ 53).
  { destruct (Z.le_gt_cases er eM) as [Hle|Hgt].
    - assert (A = Z.pos mr)
        by (rewrite HA; unfold ez; rewrite Z.min_l, Z.sub_diag by lia; cbn; lia).
      lia.
    - assert (B = Z.pos mM)
        by (rewrite HB; unfold ez; rewrite Z.min_r, Z.sub_diag by lia; cbn; lia).
      lia. }
  destruct (binary_normalize_finite true (B - A) ez false)
    as [mz [e' [Hb [_ Hv]]]]; [lia | unfold ez; lia |].
  cbn [cond_Zopp] in Hb, Hv.
  exists (SF_value true mz e'). split.
  - unfold float_value. rewrite FloatAxioms.sub_spec, Er, EM.
    unfold SF64sub. cbn [SFsub cond_Zopp]. fold ez. fold A. fold B.
    replace (A - B) with (- (B - A)) by ring. rewrite Hb. reflexivity.
  - rewrite Hv, HvA, HvB.
    rewrite inject_Z_opp. unfold Z.sub.
    rewrite inject_Z_plus, inject_Z_opp. ring.
Qed.

(** The value of a magnitude. *)
Lemma abs_value f v :
  float_value f = Some v ->
  exists a, float_value (abs f) = Some a /\ (a == Qabs v)%Q.
Proof.
  intros Hf. unfold float_value. rewrite FloatAxioms.abs_spec.
  destruct (float_value_finite f v Hf)
    as [[s [E ->]]|[s [m [e [E [-> _]]]]]]; rewrite E; cbn [SFabs].
  - exists 0%Q. split; reflexivity.
  - exists (SF_value false m e). split; [reflexivity|].
    destruct (SF_value_sign m e) as [Hneg Hpos].
    destruct s.
    + rewrite Qabs_neg by (apply Qlt_le_weak, Hneg).
      rewrite !SF_value_scale. cbn [cond_Zopp].
      change (- Z.pos m) with (Z.opp (Z.pos m)). rewrite inject_Z_opp. ring.
    + rewrite Qabs_pos by (apply Qlt_le_weak, Hpos). reflexivity.
Qed.

(** The remainder is determined by its two properties. *)
Lemma Qmodulo_unique x y q n :
  (0 < y)%Q -> (q == x - inject_Z n * y)%Q -> (0 <= q)%Q -> (q < y)%Q ->
  (q == Qmodulo x y)%Q.
Proof.
  intros Hy Hq H0 H1. unfold Qmodulo.
  assert (Hny : ~ (y == 0)%Q)
    by (intros E; rewrite E in Hy; revert Hy; apply Qlt_irrefl).
  assert (Hx : (x / y == inject_Z n + q / y)%Q).
  { setoid_replace x with (q + inject_Z n * y)%Q by (rewrite Hq; ring).
    field. exact Hny. }
  assert (Hlo : (0 <= q / y)%Q).
  { apply Qle_shift_div_l; [exact Hy|]. rewrite Qmult_0_l. exact H0. }
  assert (Hhi : (q / y < 1)%Q).
  { apply Qlt_shift_div_r; [exact Hy|]. rewrite Qmult_1_l. exact H1. }
  assert (Hfl : Qfloor (x / y) = n).
  { assert (Hle : (inject_Z (Qfloor (x / y)) <= inject_Z n + q / y)%Q)
      by (rewrite <- Hx; apply Qfloor_le).
    assert (Hlt : (inject_Z n + q / y < inject_Z (Qfloor (x / y) + 1))%Q)
      by (rewrite <- Hx; apply Qlt_floor).
    assert (A1 : (inject_Z (Qfloor (x / y)) < inject_Z (n + 1))%Q).
    { eapply Qle_lt_trans; [exact Hle|].
      rewrite inject_Z_plus. apply Qplus_lt_r. exact Hhi. }
    assert (A2 : (inject_Z n < inject_Z (Qfloor (x / y) + 1))%Q).
    { eapply Qle_lt_trans; [|exact Hlt].
      setoid_replace (inject_Z n) with (inject_Z n + 0)%Q at 1 by ring.
      apply Qplus_le_r. exact Hlo. }
    rewrite <- Zlt_Qlt in A1, A2. lia. }
  rewrite Hfl. exact Hq.
Qed.

(** Two numbers with the same value, which is not zero, are the same
    number. *)
Lemma float_value_inj a b va vb :
  float_value a = Some va -> float_value b = Some vb ->
  (va == vb)%Q -> ~ (va == 0)%Q -> a = b.
Proof.
  intros Ha Hb Heq Hnz.
  assert (Hnzb : ~ (vb == 0)%Q) by (rewrite <- Heq; exact Hnz).
  destruct (float_value_finite a va Ha)
    as [[sa [Ea ->]]|[sa [ma [ea [Ea [-> [Hea [Hma Hna]]]]]]]];
    [exfalso; apply Hnz; reflexivity|].
  destruct (float_value_finite b vb Hb)
    as [[sb [Eb ->]]|[sb [mb [eb [Eb [-> [Heb [Hmb Hnb]]]]]]]];
    [exfalso; apply Hnzb; reflexivity|].
  apply FloatAxioms.Prim2SF_inj. rewrite Ea, Eb.
  destruct (SF_value_sign ma ea) as [Hnega Hposa].
  destruct (SF_value_sign mb eb) as [Hnegb Hposb].
  assert (Hs : sa = sb).
  { destruct sa, sb; try reflexivity; exfalso; apply (Qlt_irrefl 0).
    - rewrite Heq in Hnega. exact (Qlt_trans _ _ _ Hposb Hnega).
    - rewrite <- Heq in Hnegb. exact (Qlt_trans _ _ _ Hposa Hnegb). }
  subst sb.
  assert (Hv : (SF_value false ma ea == SF_value false mb eb)%Q).
  { destruct sa; [|exact Heq].
    rewrite !SF_value_scale in *. cbn [cond_Zopp] in *.
    change (- Z.pos ma) with (Z.opp (Z.pos ma)) in Heq.
    change (- Z.pos mb) with (Z.opp (Z.pos mb)) in Heq.
    rewrite !inject_Z_opp in Heq.
    setoid_replace (inject_Z (Z.pos ma) * Qpow2 ea)%Q
      with (- (- inject_Z (Z.pos ma) * Qpow2 ea))%Q by ring.
    rewrite Heq. ring. }
  assert (He : ea = eb).
  { destruct (Z.lt_trichotomy ea eb) as [L|[E|G]]; [|exact E|]; exfalso.
    - apply (Qlt_irrefl (SF_value false ma ea)). rewrite Hv at 2.
      apply SF_value_lt_exp; [lia | assumption | assumption | assumption].
    - apply (Qlt_irrefl (SF_value false mb eb)). rewrite <- Hv at 2.
      apply SF_value_lt_exp; [lia | assumption | assumption | assumption]. }
  subst eb.
  assert (Hm : ma = mb).
  { destruct (Pos.lt_total ma mb) as [L|[E|G]]; [|exact E|]; exfalso.
    - apply (SF_value_lt_mant ma mb ea) in L.
      rewrite Hv in L. revert L. apply Qlt_irrefl.
    - apply (SF_value_lt_mant mb ma ea) in G.
      rewrite Hv in G. revert G. apply Qlt_irrefl. }
  subst mb. reflexivity.
Qed.

(** The fold of [cnetz_sync_frame] is the fold of the spec, for a phase
    that is not negative. *)
Lemma fold_exact phase M vp vm vh :
  float_value phase = Some vp -> float_value M = Some vm ->
  float_value (M / 2)%float = Some vh -> (vh == vm / 2)%Q ->
  (0 <= vp)%Q -> (0 < vm)%Q ->
  exists vo,
    float_value (if (M / 2 <? c_fmod phase M)%float
                 then (c_fmod phase M - M)%float else c_fmod phase M) = Some vo /\
    (vo == spec_fold vp vm)%Q /\
    (Qabs vo <= vm / 2)%Q.
Proof.
  intros Hp HM Hh Hhalf Hp0 Hm0.
  destruct (c_fmod_exact phase M vp vm Hp HM Hp0 Hm0) as [q [n [Hq [_ [Hv [Hq0 Hq1]]]]]].
  pose proof (Qmodulo_unique vp vm q n Hm0 Hv Hq0 Hq1) as Hmod.
  assert (Hh0 : (0 <= vh)%Q).
  { rewrite Hhalf. apply Qle_shift_div_l; [reflexivity|].
    rewrite Qmult_0_l. apply Qlt_le_weak, Hm0. }
  pose proof (ltb_value _ _ vh q Hh Hq Hh0 Hq0) as Hlt.
  unfold spec_fold. cbv zeta.
  destruct (M / 2 <? c_fmod phase M)%float.
  - assert (Hgt : (vm / 2 < q)%Q) by (rewrite <- Hhalf; apply Hlt; reflexivity).
    assert (Hq2 : (vm <= 2 * q)%Q).
    { apply Qlt_le_weak.
      setoid_replace vm with (vm / 2 * 2)%Q by field.
      setoid_replace (2 * q)%Q with (q * 2)%Q by ring.
      apply Qmult_lt_r; [reflexivity | exact Hgt]. }
    assert (Hq00 : (0 < q)%Q).
    { eapply Qle_lt_trans; [|exact Hgt].
      apply Qle_shift_div_l; [reflexivity|].
      rewrite Qmult_0_l. apply Qlt_le_weak, Hm0. }
    destruct (sub_exact _ _ q vm Hq HM Hq00 Hq1 Hq2) as [d [Hd Hdv]].
    exists d. split; [exact Hd|]. split.
    + destruct (Qle_bool (Qmodulo vp vm) (vm / 2)) eqn:Hb.
      * exfalso. apply Qle_bool_iff in Hb. rewrite <- Hmod in Hb.
        apply (Qlt_irrefl q). eapply Qle_lt_trans; eassumption.
      * rewrite Hdv, Hmod. reflexivity.
    + apply Qabs_Qle_condition. rewrite Hdv. split.
      * apply (Qplus_le_l _ _ vm).
        setoid_replace (q - vm + vm)%Q with q by ring.
        setoid_replace (- (vm / 2) + vm)%Q with (vm / 2)%Q by field.
        apply Qlt_le_weak, Hgt.
      * apply (Qplus_le_l _ _ vm).
        setoid_replace (q - vm + vm)%Q with q by ring.
        apply Qlt_le_weak. eapply Qlt_le_trans; [exact Hq1|].
        setoid_replace vm with (0 + vm)%Q at 1 by ring.
        apply Qplus_le_l.
        apply Qle_shift_div_l; [reflexivity|].
        rewrite Qmult_0_l. apply Qlt_le_weak, Hm0.
  - assert (Hle : (q <= vm / 2)%Q).
    { rewrite <- Hhalf. apply Qnot_lt_le. intros H.
      apply Hlt in H. discriminate. }
    exists q. split; [exact Hq|]. split.
    + destruct (Qle_bool (Qmodulo vp vm) (vm / 2)) eqn:Hb.
      * exact Hmod.
      * exfalso. assert (Hb' : Qle_bool (Qmodulo vp vm) (vm / 2) = true)
          by (apply Qle_bool_iff; rewrite <- Hmod; exact Hle).
        congruence.
    + rewrite Qabs_pos by exact Hq0. exact Hle.
Qed.

End FloatFacts.

(** ** C-Netz: the slot clock *)

Section SlotClock.

Import Cnetz.

Local Open Scope float_scope.

(** Comparing two negative numbers is comparing their magnitudes the
    other way round. *)
Lemma SFltb_neg_swap m e M E :
  SFltb (S754_finite true m e) (S754_finite true M E)
  = SFltb (S754_finite false M E) (S754_finite false m e).
Proof.
  unfold SFltb, SFcompare.
  change (PosDef.Pos.compare_cont Eq m M) with (Pos.compare m M).
  change (PosDef.Pos.compare_cont Eq M m) with (Pos.compare M m).
  rewrite (Z.compare_antisym e E), (Pos.compare_antisym m M).
  destruct (e ?= E)%Z; cbn [CompOpp]; try reflexivity.
Qed.

(** The test of [cnetz_sync_frame], [offset < -0.5 || offset > 0.5], holds
    when the magnitude of the offset is strictly above half a bit. *)
Lemma out_of_lock_magnitude (offset : float) :
  (offset <? -0.5) || (0.5 <? offset) = (0.5 <? abs offset).
Proof.
  rewrite !FloatAxioms.ltb_spec, FloatAxioms.abs_spec.
  replace (Prim2SF (-0.5)) with (S754_finite true 4503599627370496 (-53))
    by reflexivity.
  replace (Prim2SF 0.5) with (S754_finite false 4503599627370496 (-53))
    by reflexivity.
  destruct (Prim2SF offset) as [s|s| |s m e].
  - destruct s; reflexivity.
  - destruct s; reflexivity.
  - reflexivity.
  - destruct s.
    + cbn [SFabs]. rewrite SFltb_neg_swap.
      replace (SFltb (S754_finite false 4503599627370496 (-53))
                     (S754_finite true m e))
        with false by reflexivity.
      apply orb_false_r.
    + cbn [SFabs].
      replace (SFltb (S754_finite false m e)
                     (S754_finite true 4503599627370496 (-53)))
        with false by reflexivity.
      reflexivity.
Qed.

(** The test of [cnetz_sync_frame] on an offset of value [vo] is the test
    [|vo| > 1/2] on the rationals. *)
Lemma out_of_lock_value offset vo :
  float_value offset = Some vo ->
  (offset <? -0.5) || (0.5 <? offset) = negb (Qle_bool (Qabs vo) (1 # 2)).
Proof.
  intros Ho. rewrite out_of_lock_magnitude.
  destruct (abs_value offset vo Ho) as [a [Ha Hav]].
  assert (Hc : float_value 0.5 = Some (4503599627370496 # 9007199254740992))
    by reflexivity.
  assert (Ha0 : (0 <= a)%Q) by (rewrite Hav; apply Qabs_nonneg).
  pose proof (ltb_value 0.5 (abs offset) _ a Hc Ha ltac:(discriminate) Ha0) as Hlt.
  destruct (Qle_bool (Qabs vo) (1 # 2)) eqn:Hb; cbn [negb].
  - apply Qle_bool_iff in Hb.
    destruct (0.5 <? abs offset) eqn:Ht; [|reflexivity].
    exfalso. assert (H : (4503599627370496 # 9007199254740992 < a)%Q)
      by (apply Hlt; reflexivity).
    rewrite Hav in H. apply (Qlt_irrefl (1 # 2)).
    eapply Qlt_le_trans; [|exact Hb].
    setoid_replace (1 # 2)%Q with (4503599627370496 # 9007199254740992)%Q at 1
      by reflexivity.
    exact H.
  - apply Hlt. rewrite Hav.
    setoid_replace (4503599627370496 # 9007199254740992)%Q with (1 # 2)%Q
      by reflexivity.
    apply Qnot_le_lt. intros H. apply Qle_bool_iff in H. congruence.
Qed.

Variable BITS_PER_BLOCK BITS_PER_SUPERFRAME : float.


End SlotClock.



(** The boundary of the spec (section 8) with blocks of 198 bits and a
    super-frame of 64 blocks: a sync phase half a bit late or early is
    pulled by a quarter of a bit, with the slot unknown or known; 0.500001
    bit is pulled fully. *)
Example sync_frame_boundary :
  Cnetz.cnetz_sync_frame 198 12672 0.5 (-1) = 0.25%float /\
  Cnetz.cnetz_sync_frame 198 12672 197.5 (-1) = (-0.25)%float /\
  Cnetz.cnetz_sync_frame 198 12672 594.5 3 = 0.25%float /\
  Cnetz.cnetz_sync_frame 198 12672 593.5 3 = (-0.25)%float /\
  Cnetz.cnetz_sync_frame 198 12672 0.500001 (-1) = 0.500001%float /\
  Cnetz.cnetz_sync_frame 198 12672 197.499999 (-1) = (197.499999 - 198)%float.
Proof. vm_compute. repeat split; reflexivity. Qed.

(** ** C-Netz: transactions *)

Section Transactions.

Import Cnetz.

Lemma same_settings_refl c : same_settings c c.
Proof. unfold same_settings. repeat split. Qed.

Lemma same_settings_trans c1 c2 c3 :
  same_settings c1 c2 -> same_settings c2 c3 -> same_settings c1 c3.
Proof. unfold same_settings. intuition congruence. Qed.

(** Destroying the head of the list. *)
Lemma destroy_head c t l :
  trans_list c = t :: l ->
  destroy_transaction c (t_ptr t)
  = Some (emit (set_trans_list c l) (Destroying_transaction t)).
Proof.
  intros Hl. unfold destroy_transaction. rewrite Hl. cbn [unlink].
  rewrite Z.eqb_refl. reflexivity.
Qed.

(** With distinct addresses, unlinking the first transaction that
    satisfies [f] leaves the list without it. *)
Lemma unlink_found f l d :
  NoDup (map t_ptr l) -> find f l = Some d ->
  unlink l (t_ptr d) = Some (d, remove_first f l).
Proof.
  induction l as [|t l IH]; intros Hnd Hf; [discriminate|].
  cbn [find] in Hf. cbn [unlink remove_first].
  destruct (f t) eqn:Hft.
  - injection Hf as <-. rewrite Z.eqb_refl. reflexivity.
  - cbn [map] in Hnd. inversion Hnd as [|? ? Hnotin Hnd']; subst.
    destruct (Z.eqb_spec (t_ptr t) (t_ptr d)) as [Heq|Hne].
    + exfalso. apply Hnotin. rewrite Heq. apply in_map.
      apply find_some in Hf. apply Hf.
    + rewrite (IH Hnd' Hf). reflexivity.
Qed.

Lemma remove_first_none f l : find f l = None -> remove_first f l = l.
Proof.
  induction l as [|t l IH]; [reflexivity|]. cbn [find remove_first].
  destruct (f t); [discriminate|]. intros H. rewrite IH by assumption.
  reflexivity.
Qed.

Lemma remove_first_incl f l t : In t (remove_first f l) -> In t l.
Proof.
  induction l as [|x l IH]; [intros []|]. cbn [remove_first].
  destruct (f x); cbn [In]; intuition.
Qed.

Lemma remove_first_NoDup f l :
  NoDup (map t_ptr l) -> NoDup (map t_ptr (remove_first f l)).
Proof.
  induction l as [|x l IH]; intros Hnd; [exact Hnd|].
  cbn [map] in Hnd. inversion Hnd as [|? ? Hnotin Hnd']; subst.
  cbn [remove_first]. destruct (f x); [exact Hnd'|].
  cbn [map]. constructor; [|apply IH, Hnd'].
  intros Hin. apply Hnotin. apply in_map_iff in Hin.
  destruct Hin as [y [Hy Hin]]. rewrite <- Hy. apply in_map.
  eapply remove_first_incl, Hin.
Qed.

(** The pointer [next] of the last transaction of the list is null. *)
Lemma trans_next_last l t :
  ~ In (t_ptr t) (map t_ptr l) -> trans_next (l ++ [t]) (t_ptr t) = Some None.
Proof.
  induction l as [|x l IH]; intros Hnotin.
  - cbn. rewrite Z.eqb_refl. reflexivity.
  - cbn [app trans_next]. cbn [map In] in Hnotin.
    destruct (Z.eqb_spec (t_ptr x) (t_ptr t)) as [Heq|Hne].
    + exfalso. apply Hnotin. left. exact Heq.
    + apply IH. intros Hin. apply Hnotin. right. exact Hin.
Qed.

(** The second loop of the flush: the transactions before [trans] are
    destroyed from the head of the list on, and nothing else changes. *)
Lemma flush_before_spec trans after : forall before turns c,
  trans_list c = before ++ trans :: after ->
  ~ In (t_ptr trans) (map t_ptr before) ->
  (List.length before <= turns)%nat ->
  exists c',
    flush_before turns c (t_ptr trans) = Some c' /\
    trans_list c' = trans :: after /\
    events c' = events c ++ map Destroying_transaction before /\
    same_settings c c'.
Proof.
  induction before as [|t before IH]; intros turns c Hl Hnotin Hlen.
  - exists c. cbn [app] in Hl.
    assert (Hf : flush_before turns c (t_ptr trans) = Some c).
    { destruct turns; cbn [flush_before]; rewrite Hl, Z.eqb_refl; reflexivity. }
    rewrite Hf, Hl. cbn [map]. rewrite app_nil_r.
    repeat split.
  - cbn [app] in Hl. cbn [map In] in Hnotin. cbn [List.length] in Hlen.
    destruct turns as [|turns]; [lia|].
    cbn [flush_before]. rewrite Hl.
    destruct (Z.eqb_spec (t_ptr t) (t_ptr trans)) as [Heq|Hne];
      [exfalso; apply Hnotin; left; exact Heq|].
    rewrite (destroy_head c t (before ++ trans :: after) Hl).
    destruct (IH turns (emit (set_trans_list c (before ++ trans :: after))
                          (Destroying_transaction t)))
      as [c' [Hf [Hl' [He Hs]]]].
    + reflexivity.
    + intros Hin. apply Hnotin. right. exact Hin.
    + lia.
    + exists c'. split; [exact Hf|]. split; [exact Hl'|].
      split; [|exact Hs].
      rewrite He. cbn [events emit map]. rewrite <- app_assoc. reflexivity.
Qed.

(** [create_transaction] followed by the flush, as both callers do it
    (with the channel marked busy in between): with distinct addresses in
    the list and a block apart from them, the transaction of the same
    subscriber goes first, then the others from the oldest on, and the
    list is left with the new transaction alone. *)
Lemma create_then_flush c state futln_nat futln_fuvst futln_rest p :
  NoDup (map t_ptr (trans_list c)) ->
  ~ In p (map t_ptr (trans_list c)) ->
  let same := same_subscriber futln_nat futln_fuvst futln_rest in
  let trans := new_transaction p state futln_nat futln_fuvst futln_rest in
  exists c1 c2,
    create_transaction c state futln_nat futln_fuvst futln_rest (Some p)
    = Some (c1, Some p) /\
    trans_list c1 = remove_first same (trans_list c) ++ [trans] /\
    events c1 = events c ++ duplicate_events same (trans_list c) /\
    same_settings c c1 /\
    cnetz_flush_other_transactions (set_state c1 CNETZ_BUSY) p = Some c2 /\
    trans_list c2 = [trans] /\
    events c2 = events c1
                ++ map Destroying_transaction (remove_first same (trans_list c)) /\
    same_settings (set_state c1 CNETZ_BUSY) c2.
Proof.
  intros Hnd Hfresh same trans.
  set (others := remove_first same (trans_list c)).
  assert (Hfresh' : ~ In p (map t_ptr others)).
  { intros Hin. apply Hfresh. apply in_map_iff in Hin.
    destruct Hin as [y [Hy Hin]]. rewrite <- Hy. apply in_map.
    eapply remove_first_incl, Hin. }
  assert (Hc1 : exists c1,
             create_transaction c state futln_nat futln_fuvst futln_rest (Some p)
             = Some (c1, Some p) /\
             trans_list c1 = others ++ [trans] /\
             events c1 = events c ++ duplicate_events same (trans_list c) /\
             same_settings c c1).
  { unfold create_transaction, duplicate_events. fold (same_subscriber futln_nat futln_fuvst futln_rest).
    fold same. destruct (find same (trans_list c)) as [d|] eqn:Hfind.
    - unfold destroy_transaction. rewrite (unlink_found same _ d Hnd Hfind).
      fold others. eexists. split; [reflexivity|].
      cbn. repeat split.
    - eexists. split; [reflexivity|].
      subst others. rewrite (remove_first_none same _ Hfind).
      cbn. rewrite app_nil_r. repeat split. }
  destruct Hc1 as [c1 [Hcreate [Hl1 [He1 Hs1]]]].
  destruct (flush_before_spec trans [] others (List.length (others ++ [trans]))
              (set_state c1 CNETZ_BUSY))
    as [c2 [Hflush [Hl2 [He2 Hs2]]]].
  - cbn. exact Hl1.
  - exact Hfresh'.
  - rewrite length_app. lia.
  - exists c1, c2. split; [exact Hcreate|]. split; [exact Hl1|].
    split; [exact He1|]. split; [exact Hs1|].
    split.
    + unfold cnetz_flush_other_transactions. cbn [trans_list set_state].
      rewrite Hl1. change p with (t_ptr trans).
      rewrite (trans_next_last others trans Hfresh'). exact Hflush.
    + split; [exact Hl2|]. split; [exact He2|exact Hs2].
Qed.

Lemma first_sender_spec f senders before c after :
  first_sender f senders = Some (before, c, after) ->
  senders = before ++ c :: after /\ f c = true.
Proof.
  revert before. induction senders as [|x senders IH]; intros before H;
    [discriminate|].
  cbn [first_sender] in H. destruct (f x) eqn:Hfx.
  - injection H as <- <- <-. split; [reflexivity | exact Hfx].
  - destruct (first_sender f senders) as [[[b c'] a]|]; [|discriminate].
    injection H as <- <- <-. destruct (IH b eq_refl) as [-> Hc].
    split; [reflexivity | exact Hc].
Qed.

Lemma existsb_false_find {A} (g : A -> bool) l :
  existsb g l = false -> find g l = None.
Proof.
  induction l as [|x l IH]; [reflexivity|]. cbn [existsb find].
  destruct (g x); [discriminate|]. exact IH.
Qed.

Lemma existsb_false_In {A} (g : A -> bool) l x :
  existsb g l = false -> In x l -> g x = false.
Proof.
  intros He Hin. destruct (g x) eqn:Hg; [|reflexivity].
  assert (existsb g l = true) by (apply existsb_exists; exists x; auto).
  congruence.
Qed.

Section Setup.

Variable CAUSE_BUSY CAUSE_INVALNUMBER CAUSE_NOCHANNEL CAUSE_TEMPFAIL : Z.

Let setup :=
  call_out_setup CAUSE_BUSY CAUSE_INVALNUMBER CAUSE_NOCHANNEL CAUSE_TEMPFAIL.

(** [call_out_setup] on a number that passes the checks, for a subscriber
    without a transaction on any sender, with an idle sender [c] (the
    first of the list) and a block for the new transaction: the call is
    accepted, [c] is busy with the call reference, and its list holds the
    new transaction alone, the older ones having been destroyed from the
    oldest on. *)
Lemma call_out_setup_accepted senders callref_ dialing_ p before c after :
  let number := effective_number dialing_ in
  number_invalid number = false ->
  existsb (fun c => existsb (same_subscriber (dialed_nat number)
                               (dialed_fuvst number) (dialed_rest number))
                      (trans_list c)) senders = false ->
  first_sender cnetz_state_is_idle senders = Some (before, c, after) ->
  NoDup (map t_ptr (trans_list c)) ->
  ~ In p (map t_ptr (trans_list c)) ->
  exists c',
    setup senders callref_ dialing_ (Some p) = Some (0, before ++ c' :: after) /\
    trans_list c' =
      [new_transaction p TRANS_VAK (dialed_nat number) (dialed_fuvst number)
         (dialed_rest number)] /\
    events c' = events c ++ map Destroying_transaction (trans_list c) /\
    same_settings (set_state (set_callref c callref_) CNETZ_BUSY) c'.
Proof.
  intros number Hvalid Hbusy Hfirst Hnd Hfresh.
  destruct (first_sender_spec _ _ _ _ _ Hfirst) as [Hsenders Hidle].
  set (same := same_subscriber (dialed_nat number) (dialed_fuvst number)
                 (dialed_rest number)) in *.
  assert (Hnone : find same (trans_list c) = None).
  { apply existsb_false_find.
    apply (existsb_false_In _ senders c Hbusy).
    rewrite Hsenders. apply in_elt. }
  destruct (create_then_flush (set_callref c callref_) TRANS_VAK
              (dialed_nat number) (dialed_fuvst number) (dialed_rest number) p
              Hnd Hfresh)
    as [c1 [c2 [Hcreate [Hl1 [He1 [Hs1 [Hflush [Hl2 [He2 Hs2]]]]]]]]].
  fold same in Hl1, He1, He2.
  cbn [trans_list set_callref events] in Hl1, He1, He2.
  unfold duplicate_events in He1. rewrite Hnone in He1.
  rewrite (remove_first_none same _ Hnone) in *. rewrite app_nil_r in He1.
  exists c2. split.
  - unfold setup, call_out_setup. fold number. rewrite Hvalid.
    unfold same, same_subscriber, dialed_nat, dialed_fuvst, dialed_rest in Hbusy.
    rewrite Hbusy, Hfirst.
    unfold dialed_nat, dialed_fuvst, dialed_rest in Hcreate.
    rewrite Hcreate. rewrite Hflush. reflexivity.
  - split; [exact Hl2|]. split; [rewrite He2, He1; reflexivity|].
    unfold same_settings in *. cbn in *. intuition congruence.
Qed.

Lemma number_invalid_iff number :
  number_invalid number = true <->
  String.length number <> 7%nat
  \/ (exists i, (i < 7)%nat /\ is_digit (char_at number i) = false)
  \/ 65535 < dialed_rest number.
Proof.
  unfold number_invalid, dialed_rest.
  destruct (Nat.eqb_spec (String.length number) 7) as [Hlen|Hlen]; cbn [negb].
  2:{ split; [intros _; left; exact Hlen | reflexivity]. }
  destruct (forallb (fun i => is_digit (char_at number i)) (seq 0 7)) eqn:Hall;
    cbn [negb].
  - rewrite forallb_forall in Hall.
    destruct (Z.ltb_spec 65535 (atoi (str_skip 2 number))) as [Hgt|Hle].
    + split; [intros _; right; right; exact Hgt | reflexivity].
    + split; [discriminate|]. intros [H|[[i [Hi Hd]]|H]]; [contradiction| |lia].
      rewrite Hall in Hd by (apply in_seq; lia). discriminate.
  - split; [|reflexivity]. intros _. right. left.
    assert (Hex : existsb (fun i => negb (is_digit (char_at number i))) (seq 0 7) = true).
    { clear Hlen. revert Hall. generalize (seq 0 7). intros l.
      induction l as [|x l IH]; cbn [forallb existsb]; [discriminate|].
      destruct (is_digit (char_at number x)); cbn [negb andb orb]; auto. }
    apply existsb_exists in Hex. destruct Hex as [i [Hin Hd]].
    apply in_seq in Hin. exists i. split; [lia|].
    destruct (is_digit (char_at number i)); [discriminate | reflexivity].
Qed.

Lemma digit_value_range ch : is_digit ch = true -> 0 <= digit_value ch <= 9.
Proof.
  unfold is_digit, digit_value. cbv zeta.
  rewrite andb_true_iff, Z.leb_le, Z.leb_le. lia.
Qed.

(** A string of seven characters, spelled out. *)
Lemma length_7 number :
  String.length number = 7%nat ->
  exists a0 a1 a2 a3 a4 a5 a6,
    number = String a0 (String a1 (String a2 (String a3 (String a4
               (String a5 (String a6 EmptyString)))))).
Proof.
  intros H.
  destruct number as [|a0 [|a1 [|a2 [|a3 [|a4 [|a5 [|a6 [|a7 rest]]]]]]]];
    try discriminate.
  exists a0, a1, a2, a3, a4, a5, a6. reflexivity.
Qed.

(** [atoi] on the last five of seven digits is their decimal value. *)
Lemma dialed_rest_decimal number :
  String.length number = 7%nat ->
  (forall i, (i < 7)%nat -> is_digit (char_at number i) = true) ->
  dialed_rest number =
    10000 * digit_value (char_at number 2) + 1000 * digit_value (char_at number 3)
    + 100 * digit_value (char_at number 4) + 10 * digit_value (char_at number 5)
    + digit_value (char_at number 6)
  /\ 0 <= dialed_rest number <= 99999.
Proof.
  intros Hlen Hdig.
  destruct (length_7 number Hlen) as [a0 [a1 [a2 [a3 [a4 [a5 [a6 ->]]]]]]].
  pose proof (Hdig 2%nat ltac:(lia)) as H2. pose proof (Hdig 3%nat ltac:(lia)) as H3.
  pose proof (Hdig 4%nat ltac:(lia)) as H4. pose proof (Hdig 5%nat ltac:(lia)) as H5.
  pose proof (Hdig 6%nat ltac:(lia)) as H6.
  cbn [char_at String.get] in *.
  unfold dialed_rest, atoi, str_skip.
  cbn [String.length Nat.sub substring atoi_from].
  rewrite H2, H3, H4, H5, H6.
  cbn [char_at String.get].
  apply digit_value_range in H2, H3, H4, H5, H6. lia.
Qed.

(** C7.  [call_out_setup] works on the effective number: the last seven
    characters of a string of eleven that starts with 0160, the string
    itself otherwise.  It returns [-CAUSE_INVALNUMBER], and changes
    nothing, when the effective number has not seven characters, has a
    character that is no decimal digit, or has last five digits above
    65535.  With seven digits and the last five at most 65535, the
    subscriber free and the first idle sender [c], the call is accepted
    and the only transaction of [c] carries digit 1 as national code,
    digit 2 as exchange code and the decimal value of digits 3 to 7 as
    rest-number. *)
Theorem call_out_setup_number (senders : list cnetz_t) (callref_ : Z)
    (dialing_ : string) (alloc : option Z) :
  let number := effective_number dialing_ in
  (String.length dialing_ = 11%nat -> String.prefix "0160" dialing_ = true ->
   number = substring 4 7 dialing_) /\
  (String.length dialing_ <> 11%nat \/ String.prefix "0160" dialing_ = false ->
   number = dialing_) /\
  (String.length number <> 7%nat
   \/ (exists i, (i < 7)%nat /\ is_digit (char_at number i) = false)
   \/ 65535 < dialed_rest number ->
   setup senders callref_ dialing_ alloc = Some (- CAUSE_INVALNUMBER, senders)) /\
  (forall p before c after,
     String.length number = 7%nat ->
     (forall i, (i < 7)%nat -> is_digit (char_at number i) = true) ->
     dialed_rest number <= 65535 ->
     existsb (fun c => existsb (same_subscriber (dialed_nat number)
                                  (dialed_fuvst number) (dialed_rest number))
                         (trans_list c)) senders = false ->
     first_sender cnetz_state_is_idle senders = Some (before, c, after) ->
     NoDup (map t_ptr (trans_list c)) ->
     ~ In p (map t_ptr (trans_list c)) ->
     exists c' trans,
       setup senders callref_ dialing_ (Some p) = Some (0, before ++ c' :: after) /\
       trans_list c' = [trans] /\
       t_state trans = TRANS_VAK /\
       futln_nat trans = digit_value (char_at number 0) /\
       futln_fuvst trans = digit_value (char_at number 1) /\
       futln_rest trans =
         10000 * digit_value (char_at number 2)
         + 1000 * digit_value (char_at number 3)
         + 100 * digit_value (char_at number 4)
         + 10 * digit_value (char_at number 5)
         + digit_value (char_at number 6)).
Proof.
  intros number. split; [|split; [|split]].
  - intros Hlen Hpre. subst number. unfold effective_number.
    rewrite Hlen, Hpre. cbn [Nat.eqb andb]. unfold str_skip. rewrite Hlen.
    reflexivity.
  - intros H. subst number. unfold effective_number.
    destruct H as [H|H].
    + destruct (Nat.eqb_spec (String.length dialing_) 11); [contradiction|].
      reflexivity.
    + rewrite H, andb_false_r. reflexivity.
  - intros H. apply number_invalid_iff in H.
    unfold setup, call_out_setup. fold number. rewrite H. reflexivity.
  - intros p before c after Hlen Hdig Hrest Hbusy Hfirst Hnd Hfresh.
    assert (Hvalid : number_invalid number = false).
    { destruct (number_invalid number) eqn:Hinv; [|reflexivity].
      apply number_invalid_iff in Hinv.
      destruct Hinv as [H|[[i [Hi Hd]]|H]]; [contradiction| |lia].
      rewrite Hdig in Hd by assumption. discriminate. }
    destruct (call_out_setup_accepted senders callref_ dialing_ p before c after
                Hvalid Hbusy Hfirst Hnd Hfresh)
      as [c' [Hsetup [Hl [He Hs]]]].
    destruct (dialed_rest_decimal number Hlen Hdig) as [Hdec Hrange].
    pose proof (digit_value_range _ (Hdig 0%nat ltac:(lia))) as H0.
    pose proof (digit_value_range _ (Hdig 1%nat ltac:(lia))) as H1.
    eexists c', _. split; [exact Hsetup|]. split; [exact Hl|].
    unfold new_transaction, dialed_nat, dialed_fuvst, u8.
    cbn [t_state futln_nat futln_fuvst futln_rest].
    change (2 ^ 8) with 256. change (2 ^ 16) with 65536.
    rewrite (Z.mod_small (digit_value (char_at number 0))) by lia.
    rewrite (Z.mod_small (digit_value (char_at number 1))) by lia.
    rewrite (Z.mod_small (dialed_rest number)) by lia.
    rewrite <- Hdec. repeat split.
Qed.

Variable match_fuz : telegramm_t -> bool.

(** C3.  When a call request is accepted and the flush of the other
    transactions runs - on the organisation channel for an uplink call
    request ([OPCODE_VWG_R] or [OPCODE_SRG_R]) received by an idle channel,
    and in [call_out_setup] for a call from the network - every other
    transaction of the channel is destroyed, the oldest first (after the
    transaction of the same subscriber, which [create_transaction] removes
    beforehand), and the list of the channel holds the new transaction
    alone.  The addresses in the list are distinct and [calloc] returns a
    block apart from them. *)
Theorem flush_leaves_new_transaction :
  (forall c tg block p,
     opcode tg = OPCODE_VWG_R \/ opcode tg = OPCODE_SRG_R ->
     match_fuz tg = true -> state c = CNETZ_IDLE -> loopback c = 0 ->
     NoDup (map t_ptr (trans_list c)) ->
     ~ In p (map t_ptr (trans_list c)) ->
     let same := same_subscriber (futln_nationalitaet tg)
                   (futln_heimat_fuvst_nr tg) (futln_rest_nr tg) in
     exists c',
       cnetz_receive_telegramm_ogk match_fuz c tg block (Some p) = Some c' /\
       trans_list c' =
         [new_transaction p TRANS_VWG (futln_nationalitaet tg)
            (futln_heimat_fuvst_nr tg) (futln_rest_nr tg)] /\
       state c' = CNETZ_BUSY /\
       events c' = events c ++ duplicate_events same (trans_list c)
                   ++ map Destroying_transaction (remove_first same (trans_list c)))
  /\
  (forall senders callref_ dialing_ p before c after,
     let number := effective_number dialing_ in
     number_invalid number = false ->
     existsb (fun c => existsb (same_subscriber (dialed_nat number)
                                  (dialed_fuvst number) (dialed_rest number))
                         (trans_list c)) senders = false ->
     first_sender cnetz_state_is_idle senders = Some (before, c, after) ->
     NoDup (map t_ptr (trans_list c)) ->
     ~ In p (map t_ptr (trans_list c)) ->
     exists c',
       setup senders callref_ dialing_ (Some p) = Some (0, before ++ c' :: after) /\
       trans_list c' =
         [new_transaction p TRANS_VAK (dialed_nat number) (dialed_fuvst number)
            (dialed_rest number)] /\
       state c' = CNETZ_BUSY /\
       events c' = events c ++ map Destroying_transaction (trans_list c)).
Proof.
  split.
  - intros c tg block p Hop Hfuz Hidle Hloop Hnd Hfresh same.
    destruct (create_then_flush c TRANS_VWG (futln_nationalitaet tg)
                (futln_heimat_fuvst_nr tg) (futln_rest_nr tg) p Hnd Hfresh)
      as [c1 [c2 [Hcreate [Hl1 [He1 [Hs1 [Hflush [Hl2 [He2 Hs2]]]]]]]]].
    fold same in Hl1, He1, He2.
    exists c2. split.
    + unfold cnetz_receive_telegramm_ogk, cnetz_state_is_idle.
      rewrite Hfuz, Hidle. cbn [negb cnetz_state_t_beq].
      assert (Hloop2 : loopback c2 = 0).
      { unfold same_settings in Hs1, Hs2. cbn in Hs2. intuition congruence. }
      destruct Hop as [Hop|Hop]; rewrite Hop, Hcreate, Hflush, Hloop2; reflexivity.
    + split; [exact Hl2|]. split.
      * unfold same_settings in Hs2. cbn in Hs2. intuition congruence.
      * rewrite He2, He1, <- app_assoc. reflexivity.
  - intros senders callref_ dialing_ p before c after number
           Hvalid Hbusy Hfirst Hnd Hfresh.
    destruct (call_out_setup_accepted senders callref_ dialing_ p before c after
                Hvalid Hbusy Hfirst Hnd Hfresh)
      as [c' [Hsetup [Hl [He Hs]]]].
    exists c'. split; [exact Hsetup|]. split; [exact Hl|]. split; [|exact He].
    unfold same_settings in Hs. cbn in Hs. intuition congruence.
Qed.

End Setup.

End Transactions.

(** The witness of C7: 0160 2222002 dialled with one idle transceiver. *)
Lemma call_out_setup_number_witness :
  exists c' trans,
    Cnetz.call_out_setup 17 28 34 41 [Cnetz.fresh_131] 1 "01602222002" (Some 1)
    = Some (0, [] ++ c' :: []) /\
    Cnetz.trans_list c' = [trans] /\
    Cnetz.t_state trans = Cnetz.TRANS_VAK /\
    Cnetz.futln_nat trans = 2 /\
    Cnetz.futln_fuvst trans = 2 /\
    Cnetz.futln_rest trans = 22002.
Proof.
  refine (proj2 (proj2 (proj2
            (call_out_setup_number 17 28 34 41 [Cnetz.fresh_131] 1
               "01602222002" None)))
          1 [] Cnetz.fresh_131 [] _ _ _ _ _ _ _).
  - reflexivity.
  - intros i Hi.
    do 7 (destruct i as [|i]; [reflexivity|]). lia.
  - vm_compute. discriminate.
  - reflexivity.
  - reflexivity.
  - constructor.
  - intros [].
Defined.

(** The boundaries of the spec (section 8): six, seven and eight digits,
    ten and eleven characters with the prefix, a character that is no
    digit, and the rest-numbers 65535 and 65536. *)
Example call_out_setup_boundaries :
  let rc s := option_map fst
                (Cnetz.call_out_setup 17 28 34 41 [Cnetz.fresh_131] 1 s (Some 1)) in
  rc "222200"%string = Some (-28) /\ rc "2222002"%string = Some 0 /\ rc "22220021"%string = Some (-28) /\
  rc "0160222200"%string = Some (-28) /\ rc "01602222002"%string = Some 0 /\
  rc "01612222002"%string = Some (-28) /\ rc "22a2002"%string = Some (-28) /\
  rc "2265535"%string = Some 0 /\ rc "2265536"%string = Some (-28).
Proof. vm_compute. repeat split; reflexivity. Qed.

(** The witness of C3: a call request of subscriber 1,1,11111 on a channel
    with two pending registrations, the second one of the same subscriber. *)
Lemma flush_leaves_new_transaction_witness :
  exists c',
    Cnetz.cnetz_receive_telegramm_ogk (fun _ => true) Cnetz.pending_131
      (Cnetz.mk_telegramm Cnetz.OPCODE_VWG_R 0 1 1 11111 0 0 EmptyString 0) 0 (Some 3)
    = Some c' /\
    Cnetz.trans_list c' = [Cnetz.new_transaction 3 Cnetz.TRANS_VWG 1 1 11111] /\
    Cnetz.state c' = Cnetz.CNETZ_BUSY /\
    Cnetz.events c' =
      [] ++ [Cnetz.Destroying_transaction
               (Cnetz.mk_trans 2 Cnetz.TRANS_UM 1 1 11111 0 0 0 0 EmptyString false)]
         ++ [Cnetz.Destroying_transaction
               (Cnetz.mk_trans 1 Cnetz.TRANS_EM 2 2 22002 0 0 0 0 EmptyString false)].
Proof.
  refine (proj1 (flush_leaves_new_transaction 17 28 34 41 (fun _ => true))
            Cnetz.pending_131
            (Cnetz.mk_telegramm Cnetz.OPCODE_VWG_R 0 1 1 11111 0 0 EmptyString 0)
            0 3 _ _ _ _ _ _).
  - left. reflexivity.
  - reflexivity.
  - reflexivity.
  - reflexivity.
  - cbn. repeat constructor; cbn; intuition discriminate.
  - cbn. intuition discriminate.
Defined.

(** ** C-Netz: creating a transceiver *)

(** C2 (as the code behaves).  The two range checks of [cnetz_create] join
    their comparisons with [&&], so neither can hold: with an environment
    in which nothing else fails, [cnetz_create] returns 0 and creates the
    instance for every channel number, the numbers outside odd 1..947 and
    even 2..758 included. *)
Theorem cnetz_create_any_kanal (cause_normal kanal_ loopback_ : Z) :
  Cnetz.cnetz_create cause_normal Cnetz.env_ok kanal_ loopback_ 0 0
  = (0, Some (Cnetz.mk_cnetz kanal_ loopback_ 0 Cnetz.CNETZ_IDLE
                Cnetz.DSP_MODE_OGK Cnetz.DSP_MODE_OGK 0 0 0 0 0 [] [])).
Proof.
  unfold Cnetz.cnetz_create.
  replace (negb (Z.land kanal_ 1 =? 0) && (kanal_ <? 1) && (947 <? kanal_))
    with false
    by (destruct (negb _), (Z.ltb_spec kanal_ 1), (Z.ltb_spec 947 kanal_);
        cbn; first [reflexivity | lia]).
  replace ((Z.land kanal_ 1 =? 0) && (kanal_ <? 2) && (758 <? kanal_))
    with false
    by (destruct (Z.land kanal_ 1 =? 0), (Z.ltb_spec kanal_ 2), (Z.ltb_spec 758 kanal_);
        cbn; first [reflexivity | lia]).
  reflexivity.
Qed.

(** Channels 949, 760, 0 and -1 are created like channel 131. *)
Example cnetz_create_949 :
  fst (Cnetz.cnetz_create 16 Cnetz.env_ok 949 0 0 0) = 0 /\
  fst (Cnetz.cnetz_create 16 Cnetz.env_ok 760 0 0 0) = 0 /\
  fst (Cnetz.cnetz_create 16 Cnetz.env_ok 0 0 0 0) = 0 /\
  fst (Cnetz.cnetz_create 16 Cnetz.env_ok (-1) 0 0 0) = 0.
Proof. vm_compute. repeat split; reflexivity. Qed.

(** ** C-Netz: the transmit scheduler *)

Section SchedulerFacts.

Import Cnetz.

Set Warnings "-notation-for-abbreviation".

Lemma effect_refl arm c : effect arm c c.
Proof. unfold effect. intuition. Qed.

Lemma effect_trans arm c1 c2 c3 :
  effect arm c1 c2 -> effect arm c2 c3 -> effect arm c1 c3.
Proof.
  unfold effect, next_sub_frame.
  intros [Ht [Hr [Hm [Hs Hp]]]] [Ht' [Hr' [Hm' [Hs' Hp']]]].
  rewrite Ht, Hr in Hp'.
  repeat split; try congruence.
  - intuition congruence.
  - intuition congruence.
  - intros Hn Hv. destruct (Hp' Hn Hv) as [[He Hv2]|Harm].
    + rewrite He in *. destruct (Hp Hn Hv2) as [[He1 Hv1]|Harm1].
      * left. split; congruence.
      * right. exact Harm1.
    + right. exact Harm.
Qed.

Lemma same_settings_effect arm c c' : same_settings c c' -> effect arm c c'.
Proof. unfold same_settings, effect. intuition congruence. Qed.

Lemma destroy_settings c p c' :
  destroy_transaction c p = Some c' -> same_settings c c'.
Proof.
  unfold destroy_transaction. destruct (unlink (trans_list c) p) as [[t l]|];
    [|discriminate].
  intros H. injection H as <-. unfold same_settings. repeat split.
Qed.

Lemma create_settings c st a b r alloc c' res :
  create_transaction c st a b r alloc = Some (c', res) -> same_settings c c'.
Proof.
  unfold create_transaction.
  destruct (find _ (trans_list c)) as [d|].
  - destruct (destroy_transaction c (t_ptr d)) as [c1|] eqn:Hd; [|discriminate].
    apply destroy_settings in Hd.
    destruct alloc; intros H; injection H as <- <-; unfold same_settings in *; cbn; exact Hd.
  - destruct alloc; intros H; injection H as <- <-; unfold same_settings; cbn; repeat split.
Qed.

Lemma flush_before_settings : forall turns c p c',
  flush_before turns c p = Some c' -> same_settings c c'.
Proof.
  induction turns as [|turns IH]; intros c p c'; cbn [flush_before];
    destruct (trans_list c) as [|t l]; try discriminate;
    destruct (t_ptr t =? p).
  - intros H. injection H as <-. apply same_settings_refl.
  - discriminate.
  - intros H. injection H as <-. apply same_settings_refl.
  - destruct (destroy_transaction c (t_ptr t)) as [c1|] eqn:Hd; [|discriminate].
    intros H. apply destroy_settings in Hd. apply IH in H.
    eapply same_settings_trans; eassumption.
Qed.

Lemma flush_settings c p c' :
  cnetz_flush_other_transactions c p = Some c' -> same_settings c c'.
Proof.
  unfold cnetz_flush_other_transactions.
  destruct (trans_next (trans_list c) p) as [[q|]|]; try discriminate.
  apply flush_before_settings.
Qed.

Lemma effect_update_trans arm c c' p f :
  effect arm c c' -> effect arm c (update_trans c' p f).
Proof. intros H. eapply effect_trans; [exact H|]. apply same_settings_effect. unfold same_settings. repeat split. Qed.

Lemma effect_emit arm c c' e : effect arm c c' -> effect arm c (emit c' e).
Proof. intros H. eapply effect_trans; [exact H|]. apply same_settings_effect. unfold same_settings. repeat split. Qed.

Lemma effect_set_callref arm c c' v : effect arm c c' -> effect arm c (set_callref c' v).
Proof. intros H. eapply effect_trans; [exact H|]. unfold effect. cbn. intuition. Qed.

Lemma effect_set_state arm c c' v : effect arm c c' -> effect arm c (set_state c' v).
Proof. intros H. eapply effect_trans; [exact H|]. unfold effect. cbn. intuition. Qed.

Lemma effect_set_scrambler arm c c' v : effect arm c c' -> effect arm c (set_scrambler c' v).
Proof. intros H. eapply effect_trans; [exact H|]. unfold effect. cbn. intuition. Qed.

Lemma effect_set_last_tx arm c c' v :
  effect arm c c' -> effect arm c (set_last_tx_timeslot c' v).
Proof. intros H. eapply effect_trans; [exact H|]. unfold effect. cbn. intuition. Qed.

Lemma effect_destroy arm c c1 p c2 :
  effect arm c c1 -> destroy_transaction c1 p = Some c2 -> effect arm c c2.
Proof.
  intros H Hd. eapply effect_trans; [exact H|].
  apply same_settings_effect, (destroy_settings _ _ _ Hd).
Qed.

Lemma effect_schedule arm c c' n m :
  m <> DSP_MODE_SPK_V -> m <> DSP_MODE_other ->
  effect arm c c' -> effect arm c (schedule_switch c' n m).
Proof.
  intros Hv Ho H. eapply effect_trans; [exact H|].
  unfold effect. cbn. intuition.
Qed.

Lemma effect_cancel arm c c' :
  effect arm c c' -> effect arm c (set_sched_switch_mode c' 0).
Proof.
  intros H. eapply effect_trans; [exact H|].
  unfold effect. cbn. intuition.
Qed.

Lemma effect_arm c c' :
  next_sub_frame c = true ->
  effect true c c' -> effect true c (schedule_switch c' 1 DSP_MODE_SPK_V).
Proof.
  unfold effect. cbn. intros Hn [Ht [Hr [Hm [Hs Hp]]]].
  repeat split; try assumption.
  - right. discriminate.
  - intros _ _. right. auto.
Qed.


Section Scheduler.

Variable CAUSE_NORMAL CAUSE_BUSY CAUSE_NOANSWER CAUSE_OUTOFORDER : Z.
Variable CAUSE_INVALNUMBER CAUSE_NOCHANNEL CAUSE_TEMPFAIL : Z.
Variable CNETZ_CAUSE_GASSENBESETZT CNETZ_CAUSE_TEILNEHMERBESETZT : Z.
Variable CNETZ_CAUSE_FUNKTECHNISCH : Z.
Variable N_AFKT N_AFV : Z.
Variable ogk_timeslot_mask : Z.
Variable match_fuz : telegramm_t -> bool.
Variable match_futln : telegramm_t -> Z -> Z -> Z -> bool.

Local Notation go_idle := (cnetz_go_idle CAUSE_NORMAL).
Local Notation isdn2cnetz :=
  (cnetz_cause_isdn2cnetz CAUSE_NORMAL CAUSE_BUSY CAUSE_NOANSWER
     CNETZ_CAUSE_GASSENBESETZT CNETZ_CAUSE_TEILNEHMERBESETZT).
Local Notation setup :=
  (call_out_setup CAUSE_BUSY CAUSE_INVALNUMBER CAUSE_NOCHANNEL CAUSE_TEMPFAIL).
Local Notation disconnect :=
  (call_out_disconnect CAUSE_NORMAL CAUSE_BUSY CAUSE_NOANSWER
     CNETZ_CAUSE_GASSENBESETZT CNETZ_CAUSE_TEILNEHMERBESETZT).
Local Notation release :=
  (call_out_release CAUSE_NORMAL CAUSE_BUSY CAUSE_NOANSWER
     CNETZ_CAUSE_GASSENBESETZT CNETZ_CAUSE_TEILNEHMERBESETZT).
Local Notation timeout :=
  (transaction_timeout CAUSE_OUTOFORDER CAUSE_TEMPFAIL CNETZ_CAUSE_FUNKTECHNISCH).
Local Notation rufblock := (cnetz_transmit_telegramm_rufblock CAUSE_NORMAL).
Local Notation meldeblock := cnetz_transmit_telegramm_meldeblock.
Local Notation spk_k :=
  (cnetz_transmit_telegramm_spk_k CAUSE_NORMAL CAUSE_BUSY CAUSE_NOANSWER
     CNETZ_CAUSE_GASSENBESETZT CNETZ_CAUSE_TEILNEHMERBESETZT N_AFKT).
Local Notation spk_v := (cnetz_transmit_telegramm_spk_v CAUSE_NORMAL N_AFV).
Local Notation receive_ogk := (cnetz_receive_telegramm_ogk match_fuz).
Local Notation receive_spk_k :=
  (cnetz_receive_telegramm_spk_k CAUSE_TEMPFAIL match_fuz match_futln).
Local Notation receive_spk_v :=
  (cnetz_receive_telegramm_spk_v CAUSE_TEMPFAIL match_fuz match_futln).
Local Notation create := (cnetz_create CAUSE_NORMAL).
Local Notation encode_telegramm :=
  (cnetz_encode_telegramm CAUSE_NORMAL CAUSE_BUSY CAUSE_NOANSWER
     CNETZ_CAUSE_GASSENBESETZT CNETZ_CAUSE_TEILNEHMERBESETZT N_AFKT N_AFV).
Local Notation encode_block :=
  (sched_encode CAUSE_NORMAL CAUSE_BUSY CAUSE_NOANSWER
     CNETZ_CAUSE_GASSENBESETZT CNETZ_CAUSE_TEILNEHMERBESETZT N_AFKT N_AFV
     ogk_timeslot_mask).
Local Notation block :=
  (fsk_telegramm_block CAUSE_NORMAL CAUSE_BUSY CAUSE_NOANSWER
     CNETZ_CAUSE_GASSENBESETZT CNETZ_CAUSE_TEILNEHMERBESETZT N_AFKT N_AFV
     ogk_timeslot_mask).
Local Notation steps :=
  (step CAUSE_NORMAL CAUSE_BUSY CAUSE_NOANSWER CAUSE_OUTOFORDER CAUSE_INVALNUMBER
     CAUSE_NOCHANNEL CAUSE_TEMPFAIL CNETZ_CAUSE_GASSENBESETZT
     CNETZ_CAUSE_TEILNEHMERBESETZT CNETZ_CAUSE_FUNKTECHNISCH N_AFKT N_AFV
     ogk_timeslot_mask match_fuz match_futln).
Local Notation reached :=
  (reachable CAUSE_NORMAL CAUSE_BUSY CAUSE_NOANSWER CAUSE_OUTOFORDER CAUSE_INVALNUMBER
     CAUSE_NOCHANNEL CAUSE_TEMPFAIL CNETZ_CAUSE_GASSENBESETZT
     CNETZ_CAUSE_TEILNEHMERBESETZT CNETZ_CAUSE_FUNKTECHNISCH N_AFKT N_AFV
     ogk_timeslot_mask match_fuz match_futln).

Lemma effect_go_idle arm c c' : effect arm c c' -> effect arm c (go_idle c').
Proof.
  intros H. eapply effect_trans; [exact H|]. clear H.
  unfold cnetz_go_idle.
  destruct (negb (callref c' =? 0)); cbn [dsp_mode set_state set_callref emit];
    destruct (dsp_mode c') eqn:Hm; unfold effect; cbn; rewrite ?Hm;
    intuition (try discriminate; try congruence).
Qed.

Lemma effect_release arm c c' p cause :
  effect arm c c' -> effect arm c (cnetz_release c' p cause).
Proof.
  intros H. unfold cnetz_release. cbv zeta.
  repeat first [apply effect_update_trans | apply effect_cancel]. exact H.
Qed.

Lemma effect_weaken c c' : effect false c c' -> effect true c c'.
Proof. unfold effect. intuition. Qed.

(** Composing the effects of a sequence of assignments. *)
Ltac effects :=
  repeat (cbv beta iota zeta;
          match goal with
          | |- effect _ ?c ?c => apply effect_refl
          | H : effect ?a ?c ?c' |- effect ?a ?c ?c' => exact H
          | |- effect _ _ (cnetz_go_idle _ _) => apply effect_go_idle
          | |- effect _ _ (cnetz_release _ _ _) => apply effect_release
          | |- effect _ _ (set_sched_switch_mode _ 0) => apply effect_cancel
          | |- effect _ _ (update_trans _ _ _) => apply effect_update_trans
          | |- effect _ _ (emit _ _) => apply effect_emit
          | |- effect _ _ (set_callref _ _) => apply effect_set_callref
          | |- effect _ _ (set_state _ _) => apply effect_set_state
          | |- effect _ _ (set_scrambler _ _) => apply effect_set_scrambler
          | |- effect _ _ (set_last_tx_timeslot _ _) => apply effect_set_last_tx
          | |- effect _ _ (schedule_switch _ _ _) =>
              apply effect_schedule; [discriminate | discriminate |]
          | H : destroy_transaction ?c1 ?p = Some ?c2 |- effect _ _ ?c2 =>
              apply (effect_destroy _ _ c1 p c2); [|exact H]
          end).

(** Splitting a result of the code along its tests. *)
Ltac branches H :=
  repeat match type of H with
         | context [match ?x with _ => _ end] => destruct x eqn:?
         end;
  try discriminate; inversion H; subst; clear H.

Lemma timeout_effect arm c p : effect arm c (timeout c p).
Proof.
  unfold transaction_timeout.
  destruct (find _ (trans_list c)) as [trans|]; [|apply effect_refl].
  cbv beta zeta.
  destruct (t_state trans);
    repeat match goal with |- context [if ?b then _ else _] => destruct b end;
    effects.
Qed.

Lemma send_release_effect arm c trans tg op n c' tg' :
  send_release CAUSE_NORMAL c trans tg op n = Some (c', tg') -> effect arm c c'.
Proof. unfold send_release. intros H. branches H; effects. Qed.

Lemma rufblock_effect arm c c' tg :
  rufblock c = Some (c', tg) -> effect arm c c'.
Proof. unfold cnetz_transmit_telegramm_rufblock. intros H. branches H; effects. Qed.

Lemma meldeblock_effect arm c c' tg :
  meldeblock c = Some (c', tg) -> effect arm c c'.
Proof. unfold cnetz_transmit_telegramm_meldeblock. intros H. branches H; effects. Qed.

Lemma spk_v_effect arm c c' tg :
  spk_v c = Some (c', tg) -> effect arm c c'.
Proof.
  unfold cnetz_transmit_telegramm_spk_v. intros H.
  destruct (first_trans c) as [trans|]; [|injection H as <- <-; apply effect_refl].
  destruct (t_state trans);
    try (injection H as <- <-; apply effect_refl);
    try (eapply send_release_effect; exact H).
  destruct (Z.land (sched_ts c) 8 =? 0); injection H as <- <-; apply effect_refl.
Qed.

Lemma spk_k_effect n rc c c' n' tg :
  spk_k n rc c = Some (c', n', tg) -> effect true c c'.
Proof.
  unfold cnetz_transmit_telegramm_spk_k. intros H.
  destruct (first_trans c) as [trans|];
    [|injection H as <- <- <-; apply effect_refl].
  cbv zeta in H.
  destruct (t_state trans);
    try (injection H as <- <- <-; apply effect_refl).
  - (* TRANS_BQ *)
    branches H; effects.
  - (* TRANS_VHQ *)
    destruct (next_sub_frame c && negb (timer trans));
      [|injection H as <- <- <-; apply effect_refl].
    destruct (negb (mo_call trans =? 0)).
    + destruct (rc <? 0).
      * destruct (send_release _ _ _ _ _ _) as [[c1 tg1]|] eqn:Hs; [|discriminate].
        injection H as <- <- <-. cbn [fst].
        eapply effect_trans; [|eapply send_release_effect; exact Hs].
        effects.
      * injection H as <- <- <-.
        destruct (negb (mt_call trans =? 0)); effects.
    + injection H as <- <- <-.
      destruct (negb (mt_call trans =? 0)); effects.
  - (* TRANS_DS *)
    injection H as <- <- <-.
    destruct (next_sub_frame c && negb (timer trans)) eqn:Hn; [|apply effect_refl].
    apply andb_true_iff in Hn. destruct Hn as [Hn _].
    apply effect_update_trans, effect_arm; [exact Hn|]. effects.
  - (* TRANS_AHQ *)
    injection H as <- <- <-.
    destruct (next_sub_frame c) eqn:Hn; [|apply effect_refl].
    apply effect_update_trans, effect_arm; [exact Hn|]. effects.
  - (* TRANS_AF *)
    destruct (send_release _ _ _ _ _ _) as [[c1 tg1]|] eqn:Hs; [|discriminate].
    injection H as <- <- <-. cbn [fst]. eapply send_release_effect; exact Hs.
  - (* TRANS_AT *)
    destruct (send_release _ _ _ _ _ _) as [[c1 tg1]|] eqn:Hs; [|discriminate].
    injection H as <- <- <-. cbn [fst]. eapply send_release_effect; exact Hs.
Qed.

(** The common part of the three requests of [cnetz_receive_telegramm_ogk]. *)
Lemma attach_effect arm c tg alloc st (busy : bool) c1 :
  (if negb (match_fuz tg) then Some c
   else if negb (cnetz_state_is_idle c) then Some c
   else
     match create_transaction c st (futln_nationalitaet tg)
             (futln_heimat_fuvst_nr tg) (futln_rest_nr tg) alloc with
     | Some (c0, None) => Some c0
     | Some (c0, Some trans) =>
         if busy
         then cnetz_flush_other_transactions (set_state c0 CNETZ_BUSY) trans
         else Some c0
     | None => None
     end) = Some c1 -> effect arm c c1.
Proof.
  intros Ha.
  destruct (negb (match_fuz tg)); [injection Ha as <-; apply effect_refl|].
  destruct (negb (cnetz_state_is_idle c)); [injection Ha as <-; apply effect_refl|].
  destruct (create_transaction _ _ _ _ _ _) as [[c0 [trans|]]|] eqn:Hc;
    [| |discriminate]; apply create_settings in Hc.
  - destruct busy.
    + apply flush_settings in Ha.
      eapply effect_trans; [apply same_settings_effect, Hc|].
      eapply effect_trans; [|apply same_settings_effect, Ha]. effects.
    + injection Ha as <-. apply same_settings_effect, Hc.
  - injection Ha as <-. apply same_settings_effect, Hc.
Qed.

Lemma loopback_check (e : option cnetz_t) c' :
  match e with
  | Some c => if negb (loopback c =? 0) then None else Some c
  | None => None
  end = Some c' -> e = Some c'.
Proof.
  destruct e as [c|]; [|discriminate].
  destruct (negb (loopback c =? 0)); [discriminate|]. auto.
Qed.

Lemma receive_ogk_effect arm c tg blk alloc c' :
  receive_ogk c tg blk alloc = Some c' -> effect arm c c'.
Proof.
  unfold cnetz_receive_telegramm_ogk. intros H. cbv zeta beta in H.
  apply loopback_check in H.
  destruct (opcode tg);
    try (injection H as <-; apply effect_refl);
    try (exact (attach_effect arm c tg alloc _ false _ H));
    try (exact (attach_effect arm c tg alloc _ true _ H)).
  destruct (search_transaction c _); injection H as <-; effects.
Qed.

Lemma receive_spk_k_effect arm c tg : effect arm c (receive_spk_k c tg).
Proof.
  unfold cnetz_receive_telegramm_spk_k.
  destruct (first_trans c) as [trans|]; [|apply effect_refl]. cbv zeta.
  destruct (_ || _); [apply effect_refl|].
  destruct (opcode tg); try apply effect_refl;
    repeat match goal with |- context [if ?b then _ else _] => destruct b end;
    effects.
Qed.

Lemma receive_spk_v_effect arm c tg : effect arm c (receive_spk_v c tg).
Proof.
  unfold cnetz_receive_telegramm_spk_v.
  destruct (first_trans c) as [trans|]; [|apply effect_refl]. cbv zeta.
  destruct (_ || _); [apply effect_refl|].
  destruct (opcode tg); try apply effect_refl;
    repeat match goal with |- context [if ?b then _ else _] => destruct b end;
    effects.
Qed.

Lemma encode_telegramm_effect n rc c c' n' tg :
  encode_telegramm n rc c = Some (c', n', tg) -> effect true c c'.
Proof.
  unfold cnetz_encode_telegramm. intros H.
  destruct (dsp_mode c).
  - destruct (sched_r_m c =? 0).
    + destruct (rufblock c) as [[c1 tg1]|] eqn:Hr; [|discriminate].
      injection H as <- <- <-. eapply rufblock_effect; exact Hr.
    + destruct (meldeblock c) as [[c1 tg1]|] eqn:Hr; [|discriminate].
      injection H as <- <- <-. eapply meldeblock_effect; exact Hr.
  - eapply spk_k_effect; exact H.
  - destruct (spk_v c) as [[c1 tg1]|] eqn:Hr; [|discriminate].
    injection H as <- <- <-. eapply spk_v_effect; exact Hr.
  - injection H as <- <- <-. apply effect_refl.
Qed.

Lemma encode_block_effect n rc c c' n' blk :
  encode_block n rc c = Some (c', n', blk) -> effect true c c'.
Proof.
  unfold sched_encode. intros H.
  destruct (dsp_mode c) eqn:Hm.
  - destruct (negb _).
    + destruct (encode_telegramm _ _ _) as [[[c1 n1] tg1]|] eqn:He; [|discriminate].
      injection H as <- <- <-. cbn [fst snd].
      apply encode_telegramm_effect in He.
      eapply effect_trans; [|exact He].
      destruct (sched_r_m c =? 0); effects.
    + injection H as <- <- <-. apply effect_refl.
  - destruct (encode_telegramm _ _ _) as [[[c1 n1] tg1]|] eqn:He; [|discriminate].
    injection H as <- <- <-. eapply encode_telegramm_effect; exact He.
  - destruct (encode_telegramm _ _ _) as [[[c1 n1] tg1]|] eqn:He; [|discriminate].
    injection H as <- <- <-. eapply encode_telegramm_effect; exact He.
  - injection H as <- <- <-. apply effect_refl.
Qed.

(** *** The invariant *)

Lemma sched_inv_intro c :
  0 <= sched_ts c < 32 ->
  sched_r_m c = 0 \/ sched_r_m c = 1 ->
  dsp_mode c <> DSP_MODE_other ->
  sched_dsp_mode c <> DSP_MODE_other ->
  (dsp_mode c = DSP_MODE_SPK_V -> sched_ts c mod 8 = 0 /\ sched_r_m c = 0) ->
  (sched_switch_mode c <> 0 -> sched_dsp_mode c = DSP_MODE_SPK_V ->
   sched_switch_mode c = 1 /\ sched_ts c mod 8 = 0 /\ sched_r_m c = 0) ->
  sched_inv c.
Proof. unfold sched_inv. auto 10. Qed.

Lemma effect_inv c c' : sched_inv c -> effect false c c' -> sched_inv c'.
Proof.
  unfold effect.
  intros [Hts [Hrm [Hm [Hs [Hv Hp]]]]] [Et [Er [Em [Es Ep]]]].
  assert (Em' : dsp_mode c' = dsp_mode c) by (destruct Em as [|[]]; congruence).
  apply sched_inv_intro; rewrite ?Et, ?Er, ?Em'; try assumption.
  - destruct Es; congruence.
  - intros Hn Hsv. destruct (Ep Hn Hsv) as [[E1 E2]|[F _]]; [|discriminate].
    rewrite E1 in *. apply Hp; assumption.
Qed.

Lemma effect_mode arm c c' :
  dsp_mode c <> DSP_MODE_other -> effect arm c c' -> dsp_mode c' = dsp_mode c.
Proof. unfold effect. intros Hm [_ [_ [[E|[E _]] _]]]; congruence. Qed.

Lemma next_sub_frame_iff c :
  next_sub_frame c = true <-> sched_ts c mod 8 = 7 /\ sched_r_m c <> 0.
Proof.
  unfold next_sub_frame. change 7 with (Z.ones 3) at 1.
  rewrite Z.land_ones by lia. change (2 ^ 3) with 8.
  rewrite andb_true_iff, Z.eqb_eq, negb_true_iff, Z.eqb_neq. tauto.
Qed.

(** The scheduler fields after the countdown. *)
Lemma sched_switch_fields c :
  sched_ts (sched_switch c) = sched_ts c /\
  sched_r_m (sched_switch c) = sched_r_m c /\
  sched_dsp_mode (sched_switch c) = sched_dsp_mode c /\
  trans_list (sched_switch c) = trans_list c /\
  ((sched_switch_mode c <> 0 /\ sched_r_m c = 0 /\
    sched_switch_mode (sched_switch c) = sched_switch_mode c - 1 /\
    dsp_mode (sched_switch c)
    = (if sched_switch_mode c =? 1 then sched_dsp_mode c else dsp_mode c))
   \/ ((sched_switch_mode c = 0 \/ sched_r_m c <> 0) /\ sched_switch c = c)).
Proof.
  unfold sched_switch.
  destruct (Z.eqb_spec (sched_switch_mode c) 0) as [H0|H0];
    destruct (Z.eqb_spec (sched_r_m c) 0) as [Hr|Hr]; cbn [negb andb];
    try (repeat split; right; split; [tauto|reflexivity]).
  cbn [sched_switch_mode set_sched_switch_mode schedule_switch].
  destruct (Z.eqb_spec (sched_switch_mode c - 1) 0) as [H1|H1];
    destruct (Z.eqb_spec (sched_switch_mode c) 1) as [H2|H2]; try lia;
    cbn; repeat split; left; repeat split; assumption.
Qed.

(** The scheduler fields after the advance of the slot counter. *)
Lemma sched_advance_fields c :
  dsp_mode (sched_advance c) = dsp_mode c /\
  sched_dsp_mode (sched_advance c) = sched_dsp_mode c /\
  sched_switch_mode (sched_advance c) = sched_switch_mode c /\
  trans_list (sched_advance c) = trans_list c /\
  (dsp_mode c = DSP_MODE_SPK_V ->
   sched_r_m (sched_advance c) = sched_r_m c /\
   sched_ts (sched_advance c)
   = (if sched_ts c + 8 =? 32 then 0 else sched_ts c + 8)) /\
  (dsp_mode c <> DSP_MODE_SPK_V ->
   (sched_r_m c = 0 ->
    sched_r_m (sched_advance c) = 1 /\
    sched_ts (sched_advance c) = (if sched_ts c =? 32 then 0 else sched_ts c)) /\
   (sched_r_m c <> 0 ->
    sched_r_m (sched_advance c) = 0 /\
    sched_ts (sched_advance c)
    = (if sched_ts c + 1 =? 32 then 0 else sched_ts c + 1))).
Proof.
  unfold sched_advance.
  destruct (dsp_mode c) eqn:Hm; cbn [dsp_mode_t_beq];
    destruct (Z.eqb_spec (sched_r_m c) 0) as [Hr|Hr];
    cbn [sched_ts set_slot];
    repeat match goal with
           | |- context [if ?b then _ else _] => destruct b eqn:?
           end;
    cbn; rewrite ?Hm;
    repeat split; intros; try congruence; try (exfalso; congruence).
Qed.

Lemma block_inv n rc c c' n' blk :
  sched_inv c -> block n rc c = Some (c', n', blk) -> sched_inv c'.
Proof.
  intros Hinv H. unfold fsk_telegramm_block in H. cbv zeta in H.
  destruct (encode_block n rc (sched_switch c)) as [[[c2 n2] blk2]|] eqn:He;
    [|discriminate].
  injection H as <- <- <-. cbn [fst snd].
  apply encode_block_effect in He.
  destruct Hinv as [Hts [Hrm [Hm [Hs [Hv Hp]]]]].
  destruct (sched_switch_fields c) as [St [Sr [Ss [_ Sw]]]].
  assert (Hm1 : dsp_mode (sched_switch c) <> DSP_MODE_other).
  { destruct Sw as [[_ [_ [_ ->]]]|[_ ->]]; [|exact Hm].
    destruct (sched_switch_mode c =? 1); assumption. }
  assert (Hv1 : dsp_mode (sched_switch c) = DSP_MODE_SPK_V ->
                sched_ts c mod 8 = 0 /\ sched_r_m c = 0).
  { destruct Sw as [[Hn [Hr [_ ->]]]|[_ ->]]; [|exact Hv].
    destruct (Z.eqb_spec (sched_switch_mode c) 1) as [H1|H1]; [|exact Hv].
    intros Hsv. destruct (Hp Hn Hsv) as [_ [? ?]]. tauto. }
  assert (Hp1 : sched_switch_mode (sched_switch c) <> 0 ->
                sched_dsp_mode c = DSP_MODE_SPK_V -> False).
  { destruct Sw as [[Hn [Hr [-> _]]]|[[H0|Hr] ->]]; intros Hn' Hsv.
    - destruct (Hp Hn Hsv) as [H1 _]. lia.
    - contradiction.
    - destruct (Hp Hn' Hsv) as [_ [_ Hr0]]. contradiction. }
  destruct He as [Et [Er [Em [Es Ep]]]].
  assert (Em2 : dsp_mode c2 = dsp_mode (sched_switch c))
    by (destruct Em as [|[]]; congruence).
  rewrite St in Et. rewrite Sr in Er. rewrite Ss in Es.
  assert (Hs2 : sched_dsp_mode c2 <> DSP_MODE_other) by (destruct Es; congruence).
  assert (Hp2 : sched_switch_mode c2 <> 0 -> sched_dsp_mode c2 = DSP_MODE_SPK_V ->
                sched_switch_mode c2 = 1 /\ sched_ts c mod 8 = 7 /\ sched_r_m c = 1).
  { intros Hn Hsv. destruct (Ep Hn Hsv) as [[E1 E2]|[_ [E1 E2]]].
    - exfalso. apply Hp1; congruence.
    - apply next_sub_frame_iff in E2. rewrite St, Sr in E2.
      destruct E2 as [E7 Er1]. split; [exact E1|]. split; [exact E7|].
      destruct Hrm; [contradiction | assumption]. }
  destruct (sched_advance_fields c2) as [Am [As [Aw [_ [Av Anv]]]]].
  destruct (dsp_mode_t_eq_dec (dsp_mode c2) DSP_MODE_SPK_V) as [Hc2|Hc2].
  - destruct (Av Hc2) as [Ar At].
    rewrite Em2 in Hc2. destruct (Hv1 Hc2) as [Hal Hr0].
    assert (Hnp : ~ (sched_switch_mode c2 <> 0 /\ sched_dsp_mode c2 = DSP_MODE_SPK_V)).
    { intros [Hn Hsv]. destruct (Hp2 Hn Hsv) as [_ [_ ?]]. lia. }
    apply sched_inv_intro; rewrite ?Am, ?As, ?Aw, ?Ar, ?At, ?Er, ?Et, ?Em2;
      try assumption; try (left; assumption).
    + clear - Hts Hal. destruct (Z.eqb_spec (sched_ts c + 8) 32); Z.div_mod_to_equations; lia.
    + intros _. clear - Hts Hal Hr0.
      destruct (Z.eqb_spec (sched_ts c + 8) 32); split;
        try reflexivity; try assumption; Z.div_mod_to_equations; lia.
    + intros Hn Hsv. exfalso. apply Hnp. split; assumption.
  - destruct (Anv Hc2) as [A0 A1]. rewrite Em2 in Hc2.
    destruct Hrm as [Hr0|Hr1].
    + destruct (A0 ltac:(congruence)) as [Ar At].
      assert (Hnp : ~ (sched_switch_mode c2 <> 0 /\ sched_dsp_mode c2 = DSP_MODE_SPK_V)).
      { intros [Hn Hsv]. destruct (Hp2 Hn Hsv) as [_ [_ ?]]. lia. }
      apply sched_inv_intro; rewrite ?Am, ?As, ?Aw, ?Ar, ?At, ?Et, ?Em2;
        try assumption; try (right; reflexivity).
      * clear - Hts. destruct (Z.eqb_spec (sched_ts c) 32); lia.
      * intros Hsv. contradiction.
      * intros Hn Hsv. exfalso. apply Hnp. split; assumption.
    + destruct (A1 ltac:(lia)) as [Ar At].
      apply sched_inv_intro; rewrite ?Am, ?As, ?Aw, ?Ar, ?At, ?Et, ?Em2;
        try assumption; try (left; reflexivity).
      * clear - Hts. destruct (Z.eqb_spec (sched_ts c + 1) 32); lia.
      * intros Hsv. contradiction.
      * intros Hn Hsv. destruct (Hp2 Hn Hsv) as [H1 [H7 _]].
        clear - Hts H1 H7.
        destruct (Z.eqb_spec (sched_ts c + 1) 32); repeat split;
          try reflexivity; try assumption; Z.div_mod_to_equations; lia.
Qed.

(** *** The list of senders *)

Lemma Forall2_effect_refl arm l : Forall2 (effect arm) l l.
Proof. induction l; constructor; [apply effect_refl | assumption]. Qed.

Lemma Forall2_effect_replace arm before c c' after :
  effect arm c c' ->
  Forall2 (effect arm) (before ++ c :: after) (before ++ c' :: after).
Proof.
  intros H. apply Forall2_app; [apply Forall2_effect_refl|].
  constructor; [exact H | apply Forall2_effect_refl].
Qed.

Lemma Forall2_effect_inv l l' :
  Forall2 (effect false) l l' -> Forall sched_inv l -> Forall sched_inv l'.
Proof.
  induction 1 as [|c c' l l' Hc _ IH]; intros Hl; [constructor|].
  inversion Hl; subst. constructor; [eapply effect_inv; eassumption | auto].
Qed.

Lemma Forall_replace {A} (P : A -> Prop) before c c' after :
  Forall P (before ++ c :: after) -> P c' -> Forall P (before ++ c' :: after).
Proof.
  rewrite !Forall_app. intros [Hb Hc] Hc'. inversion Hc; subst.
  split; [assumption|]. constructor; assumption.
Qed.

Lemma Forall_middle {A} (P : A -> Prop) before c after :
  Forall P (before ++ c :: after) -> P c.
Proof. rewrite Forall_app. intros [_ Hc]. inversion Hc; assumption. Qed.

Lemma setup_effect senders callref_ dialing_ alloc rc senders' :
  setup senders callref_ dialing_ alloc = Some (rc, senders') ->
  Forall2 (effect false) senders senders'.
Proof.
  unfold call_out_setup. cbv zeta. intros H.
  destruct (number_invalid _); [injection H as <- <-; apply Forall2_effect_refl|].
  destruct (existsb _ senders); [injection H as <- <-; apply Forall2_effect_refl|].
  destruct (first_sender cnetz_state_is_idle senders) as [[[before c] after]|] eqn:Hf;
    [|injection H as <- <-; apply Forall2_effect_refl].
  apply first_sender_spec in Hf. destruct Hf as [-> _].
  destruct (create_transaction _ _ _ _ _ _) as [[c1 [trans|]]|] eqn:Hc;
    [| |discriminate]; apply create_settings in Hc.
  - destruct (cnetz_flush_other_transactions _ _) as [c2|] eqn:Hfl; [|discriminate].
    injection H as <- <-. apply flush_settings in Hfl.
    apply Forall2_effect_replace.
    eapply effect_trans; [|apply same_settings_effect, Hfl].
    apply effect_set_state.
    eapply effect_trans; [|apply same_settings_effect, Hc]. effects.
  - injection H as <- <-. apply Forall2_effect_replace.
    apply effect_set_callref.
    eapply effect_trans; [|apply same_settings_effect, Hc]. effects.
Qed.

Lemma disconnect_effect senders callref_ cause senders' :
  disconnect senders callref_ cause = Some senders' ->
  Forall2 (effect false) senders senders'.
Proof.
  unfold call_out_disconnect. intros H.
  destruct (first_sender _ senders) as [[[before c] after]|] eqn:Hf;
    [|injection H as <-; apply Forall2_effect_refl].
  apply first_sender_spec in Hf. destruct Hf as [-> _].
  destruct (negb _);
    [injection H as <-; apply Forall2_effect_replace; effects|].
  destruct (first_trans c) as [trans|];
    [|injection H as <-; apply Forall2_effect_replace; effects].
  destruct (dsp_mode c);
    try (injection H as <-; first [apply Forall2_effect_refl
                                  | apply Forall2_effect_replace; effects]).
  - destruct (destroy_transaction c (t_ptr trans)) as [c1|] eqn:Hd; [|discriminate].
    injection H as <-. apply Forall2_effect_replace. effects.
  - destruct (destroy_transaction c (t_ptr trans)) as [c1|] eqn:Hd; [|discriminate].
    injection H as <-. apply Forall2_effect_replace. effects.
Qed.

Lemma release_effect senders callref_ cause senders' :
  release senders callref_ cause = Some senders' ->
  Forall2 (effect false) senders senders'.
Proof.
  unfold call_out_release. intros H.
  destruct (first_sender _ senders) as [[[before c] after]|] eqn:Hf;
    [|injection H as <-; apply Forall2_effect_refl].
  apply first_sender_spec in Hf. destruct Hf as [-> _]. cbv zeta in H.
  destruct (negb _);
    [injection H as <-; apply Forall2_effect_replace; effects|].
  destruct (first_trans _) as [trans|];
    [|injection H as <-; apply Forall2_effect_replace; effects].
  cbn [dsp_mode set_callref] in H.
  destruct (dsp_mode c);
    try (injection H as <-; apply Forall2_effect_replace; effects).
  - destruct (destroy_transaction _ (t_ptr trans)) as [c1|] eqn:Hd; [|discriminate].
    injection H as <-. apply Forall2_effect_replace. effects.
  - destruct (destroy_transaction _ (t_ptr trans)) as [c1|] eqn:Hd; [|discriminate].
    injection H as <-. apply Forall2_effect_replace. effects.
Qed.

Lemma create_inv env kanal_ loopback_ cs0 cs1 c :
  create env kanal_ loopback_ cs0 cs1 = (0, Some c) -> sched_inv c.
Proof.
  unfold cnetz_create. intros H.
  repeat match type of H with
         | (if ?b then _ else _) = _ => destruct b; [discriminate|]
         end.
  cbv zeta in H.
  repeat match type of H with
         | (if ?b then _ else _) = _ => destruct b; [discriminate|]
         end.
  injection H as <-.
  apply (effect_inv (mk_cnetz kanal_ loopback_ 0 CNETZ_IDLE DSP_MODE_OGK DSP_MODE_OGK
                       0 0 0 0 0 [] [])).
  - apply sched_inv_intro; cbn; try lia; try discriminate; try tauto.
  - effects.
Qed.

(** Every channel of every state of a run satisfies the invariant. *)
Lemma reachable_inv w : reached w -> Forall sched_inv (sender_head w).
Proof.
  induction 1 as [|w w' Hw IH Hstep]; [constructor|].
  destruct Hstep; cbn [sender_head] in *.
  - apply Forall_app. split; [exact IH|]. constructor; [|constructor].
    eapply create_inv; eassumption.
  - rewrite H in IH. apply Forall_app in IH. destruct IH as [Hb Ha].
    inversion Ha; subst. apply Forall_app. split; assumption.
  - rewrite H in IH. eapply Forall_replace; [exact IH|].
    eapply block_inv; [|eassumption]. eapply Forall_middle, IH.
  - rewrite H in IH. eapply Forall_replace; [exact IH|].
    eapply effect_inv; [eapply Forall_middle, IH|].
    eapply receive_ogk_effect; eassumption.
  - rewrite H in IH. eapply Forall_replace; [exact IH|].
    eapply effect_inv; [eapply Forall_middle, IH|]. apply receive_spk_k_effect.
  - rewrite H in IH. eapply Forall_replace; [exact IH|].
    eapply effect_inv; [eapply Forall_middle, IH|]. apply receive_spk_v_effect.
  - rewrite H in IH. eapply Forall_replace; [exact IH|].
    eapply effect_inv; [eapply Forall_middle, IH|].
    eapply effect_trans; [|apply timeout_effect]. effects.
  - eapply Forall2_effect_inv; [|exact IH]. eapply setup_effect; eassumption.
  - eapply Forall2_effect_inv; [|exact IH]. eapply disconnect_effect; eassumption.
  - eapply Forall2_effect_inv; [|exact IH]. eapply release_effect; eassumption.
Qed.


(** The mode in which a block is encoded is a named one. *)
Lemma sched_switch_named c :
  dsp_mode c <> DSP_MODE_other -> sched_dsp_mode c <> DSP_MODE_other ->
  dsp_mode (sched_switch c) <> DSP_MODE_other.
Proof.
  intros Hm Hs.
  destruct (sched_switch_fields c) as [_ [_ [_ [_ [[_ [_ [_ E]]]|[_ E]]]]]];
    rewrite E; [destruct (sched_switch_mode c =? 1)|]; assumption.
Qed.

(** The live mode after a block is the mode in which it was encoded. *)
Lemma block_mode n rc c c' n' blk :
  dsp_mode c <> DSP_MODE_other -> sched_dsp_mode c <> DSP_MODE_other ->
  block n rc c = Some (c', n', blk) ->
  dsp_mode c' = dsp_mode (sched_switch c).
Proof.
  intros Hm Hs H. unfold fsk_telegramm_block in H. cbv zeta in H.
  destruct (encode_block n rc (sched_switch c)) as [[[c2 n2] blk2]|] eqn:He;
    [|discriminate].
  injection H as <- <- <-. cbn [fst snd].
  destruct (sched_advance_fields c2) as [-> _].
  eapply effect_mode; [|eapply encode_block_effect; exact He].
  apply sched_switch_named; assumption.
Qed.

(** What a block emits when distributed signalling is live afterwards. *)
Lemma block_distributed n rc c c' n' blk :
  sched_inv c -> block n rc c = Some (c', n', blk) ->
  dsp_mode c' = DSP_MODE_SPK_V ->
  sched_ts c mod 8 = 0 /\
  sched_ts c' = (if sched_ts c + 8 =? 32 then 0 else sched_ts c + 8) /\
  exists tg, blk = Distributed tg /\
    forall trans, first_trans c = Some trans -> t_state trans = TRANS_VHQ ->
      opcode tg = if Z.land (sched_ts c) 8 =? 0 then OPCODE_VHQ1_V
                  else OPCODE_VHQ2_V.
Proof.
  intros Hinv H Hv.
  destruct Hinv as [Hts [Hrm [Hm [Hs [Hv0 Hp]]]]].
  pose proof (block_mode _ _ _ _ _ _ Hm Hs H) as Hv1. rewrite Hv in Hv1.
  symmetry in Hv1.
  unfold fsk_telegramm_block in H. cbv zeta in H.
  destruct (encode_block n rc (sched_switch c)) as [[[c2 n2] blk2]|] eqn:He;
    [|discriminate].
  injection H as <- <- <-. cbn [fst snd] in *.
  destruct (sched_advance_fields c2) as [Am [_ [_ [_ [Av _]]]]].
  rewrite Am in Hv. destruct (Av Hv) as [_ Ats].
  destruct (encode_block_effect _ _ _ _ _ _ He) as [Et _].
  destruct (sched_switch_fields c) as [St [Sr [Ss [Sl Sw]]]].
  assert (Hmod : sched_ts c mod 8 = 0).
  { destruct Sw as [[Hn [Hr [_ Hd]]]|[_ Hd]]; rewrite Hd in Hv1.
    - destruct (Z.eqb_spec (sched_switch_mode c) 1) as [E1|E1].
      + apply Hp; assumption.
      + apply Hv0; assumption.
    - apply Hv0; assumption. }
  split; [exact Hmod|].
  split; [rewrite Ats, Et, St; reflexivity|].
  unfold sched_encode in He. rewrite Hv1 in He.
  destruct (encode_telegramm n rc (sched_switch c)) as [[[c3 n3] tg]|] eqn:Ht;
    [|discriminate].
  injection He as <- <- <-. exists tg. split; [reflexivity|].
  intros trans Hf Hq.
  unfold cnetz_encode_telegramm in Ht. rewrite Hv1 in Ht.
  destruct (spk_v (sched_switch c)) as [[c4 tg4]|] eqn:Hk; [|discriminate].
  injection Ht as <- <- <-.
  unfold cnetz_transmit_telegramm_spk_v in Hk.
  assert (Hf1 : first_trans (sched_switch c) = Some trans)
    by (unfold first_trans in *; rewrite Sl; exact Hf).
  rewrite Hf1 in Hk. cbv zeta in Hk. rewrite Hq, St in Hk.
  destruct (Z.land (sched_ts c) 8 =? 0); injection Hk as <- <-; reflexivity.
Qed.

(** The test [sched_ts & 8] on a slot counter that is a multiple of 8, and
    on the next one. *)
Lemma land_8_alternates ts :
  0 <= ts < 32 -> ts mod 8 = 0 ->
  0 <= (if ts + 8 =? 32 then 0 else ts + 8) < 32 /\
  (Z.land (if ts + 8 =? 32 then 0 else ts + 8) 8 =? 0)
  = negb (Z.land ts 8 =? 0).
Proof.
  intros Hr Hm.
  assert (H : ts = 0 \/ ts = 8 \/ ts = 16 \/ ts = 24)
    by (clear - Hr Hm; Z.div_mod_to_equations; lia).
  destruct H as [-> | [-> | [-> | ->]]]; cbn; (split; [lia | reflexivity]).
Qed.

(** [cnetz_transmit_telegramm_spk_v] always returns: the transaction it
    may destroy is the head of the list. *)
Lemma spk_v_returns c : spk_v c <> None.
Proof.
  unfold cnetz_transmit_telegramm_spk_v, first_trans.
  destruct (trans_list c) as [|t l] eqn:Hl; cbn [hd_error]; [discriminate|].
  cbv zeta.
  assert (Hrel : forall tg op k, send_release CAUSE_NORMAL c t tg op k <> None).
  { intros tg op k. unfold send_release. cbv zeta.
    destruct (count t + 1 =? k); [|discriminate].
    unfold destroy_transaction, update_trans.
    cbn [trans_list set_trans_list]. rewrite Hl. cbn [map unlink].
    rewrite Z.eqb_refl. cbn [t_ptr set_count unlink]. rewrite Z.eqb_refl.
    discriminate. }
  destruct (t_state t); try discriminate; try apply Hrel.
  destruct (Z.land (sched_ts c) 8 =? 0); discriminate.
Qed.

(** A block that is encoded in distributed signalling: it is always
    produced, as a distributed frame, and it moves the slot counter by 8,
    to 0 from 24. *)
Lemma distributed_block c n rc :
  dsp_mode (sched_switch c) = DSP_MODE_SPK_V ->
  exists c' tg,
    block n rc c = Some (c', n, Distributed tg) /\
    dsp_mode c' = DSP_MODE_SPK_V /\
    sched_r_m c' = sched_r_m c /\
    sched_ts c' = (if sched_ts c + 8 =? 32 then 0 else sched_ts c + 8) /\
    (forall trans,
       first_trans c = Some trans -> t_state trans = TRANS_VHQ ->
       opcode tg = if Z.land (sched_ts c) 8 =? 0 then OPCODE_VHQ1_V
                   else OPCODE_VHQ2_V).
Proof.
  intros Hv1.
  destruct (sched_switch_fields c) as [St [Sr [_ [Sl _]]]].
  destruct (spk_v (sched_switch c)) as [[c2 tg]|] eqn:Hk;
    [|exfalso; exact (spk_v_returns _ Hk)].
  assert (Hb : block n rc c = Some (sched_advance c2, n, Distributed tg)).
  { unfold fsk_telegramm_block. cbv zeta.
    unfold sched_encode. rewrite Hv1.
    unfold cnetz_encode_telegramm. rewrite Hv1, Hk. reflexivity. }
  pose proof (spk_v_effect false _ _ _ Hk) as Eff.
  assert (Hm2 : dsp_mode c2 = DSP_MODE_SPK_V).
  { rewrite <- Hv1. apply (effect_mode false); [|exact Eff].
    rewrite Hv1. discriminate. }
  destruct Eff as [Et [Er _]].
  destruct (sched_advance_fields c2) as [Am [_ [_ [_ [Av _]]]]].
  destruct (Av Hm2) as [Arm Ats].
  exists (sched_advance c2), tg.
  split; [exact Hb|]. split; [rewrite Am; exact Hm2|].
  split; [rewrite Arm, Er, Sr; reflexivity|].
  split; [rewrite Ats, Et, St; reflexivity|].
  intros trans Hf Hq.
  unfold cnetz_transmit_telegramm_spk_v in Hk.
  assert (Hf1 : first_trans (sched_switch c) = Some trans)
    by (unfold first_trans in *; rewrite Sl; exact Hf).
  rewrite Hf1 in Hk. cbv zeta in Hk. rewrite Hq, St in Hk.
  destruct (Z.land (sched_ts c) 8 =? 0); injection Hk as <- <-; reflexivity.
Qed.

(** C5.  A block that is encoded in distributed signalling (the live mode
    after the countdown step of the block is DSP_MODE_SPK_V) is always
    produced, by [fsk_distributed_encode]; it leaves distributed signalling
    live and the sub-phase as it is, and adds exactly 8 to the slot counter,
    which it wraps to 0 when it reaches 32; while the call is held
    (TRANS_VHQ) its telegram carries VHQ1_V when [sched_ts & 8] is 0 and
    VHQ2_V otherwise.  This holds for every channel state.  In every state
    of a run, moreover, the slot counter is in 0..31, and a multiple of 8
    while distributed signalling is live; so after a block emitted in
    distributed signalling the counter is in 0..31 again and the test
    [sched_ts & 8] gives the other answer at the next block.  The receive
    and timeout entries between two blocks do not touch the slot
    counter. *)
Theorem distributed_slot_counter :
  (forall c n rc,
     dsp_mode (sched_switch c) = DSP_MODE_SPK_V ->
     exists c' tg,
       fsk_telegramm_block CAUSE_NORMAL CAUSE_BUSY CAUSE_NOANSWER
         CNETZ_CAUSE_GASSENBESETZT CNETZ_CAUSE_TEILNEHMERBESETZT N_AFKT N_AFV
         ogk_timeslot_mask n rc c = Some (c', n, Distributed tg) /\
       dsp_mode c' = DSP_MODE_SPK_V /\
       sched_r_m c' = sched_r_m c /\
       sched_ts c' = (if sched_ts c + 8 =? 32 then 0 else sched_ts c + 8) /\
       (forall trans,
          first_trans c = Some trans -> t_state trans = TRANS_VHQ ->
          opcode tg = if Z.land (sched_ts c) 8 =? 0 then OPCODE_VHQ1_V
                      else OPCODE_VHQ2_V)) /\
  (forall w c,
     reachable CAUSE_NORMAL CAUSE_BUSY CAUSE_NOANSWER CAUSE_OUTOFORDER
       CAUSE_INVALNUMBER CAUSE_NOCHANNEL CAUSE_TEMPFAIL CNETZ_CAUSE_GASSENBESETZT
       CNETZ_CAUSE_TEILNEHMERBESETZT CNETZ_CAUSE_FUNKTECHNISCH N_AFKT N_AFV
       ogk_timeslot_mask match_fuz match_futln w ->
     In c (sender_head w) ->
     0 <= sched_ts c < 32 /\
     (dsp_mode c = DSP_MODE_SPK_V -> sched_ts c mod 8 = 0) /\
     (forall n rc c' n' blk,
        fsk_telegramm_block CAUSE_NORMAL CAUSE_BUSY CAUSE_NOANSWER
          CNETZ_CAUSE_GASSENBESETZT CNETZ_CAUSE_TEILNEHMERBESETZT N_AFKT N_AFV
          ogk_timeslot_mask n rc c = Some (c', n', blk) ->
        dsp_mode c' = DSP_MODE_SPK_V ->
        sched_ts c' = (if sched_ts c + 8 =? 32 then 0 else sched_ts c + 8) /\
        0 <= sched_ts c' < 32 /\
        (Z.land (sched_ts c') 8 =? 0) = negb (Z.land (sched_ts c) 8 =? 0) /\
        exists tg,
          blk = Distributed tg /\
          forall trans,
            first_trans c = Some trans -> t_state trans = TRANS_VHQ ->
            opcode tg = if Z.land (sched_ts c) 8 =? 0 then OPCODE_VHQ1_V
                        else OPCODE_VHQ2_V) /\
     (forall p,
        sched_ts (transaction_timeout CAUSE_OUTOFORDER CAUSE_TEMPFAIL
                    CNETZ_CAUSE_FUNKTECHNISCH c p) = sched_ts c) /\
     (forall tg,
        sched_ts (cnetz_receive_telegramm_spk_k CAUSE_TEMPFAIL match_fuz
                    match_futln c tg) = sched_ts c /\
        sched_ts (cnetz_receive_telegramm_spk_v CAUSE_TEMPFAIL match_fuz
                    match_futln c tg) = sched_ts c)).
Proof.
  split; [exact distributed_block|].
  intros w c Hw Hc.
  assert (Hinv : sched_inv c).
  { apply reachable_inv in Hw. rewrite Forall_forall in Hw. apply Hw, Hc. }
  pose proof Hinv as [Hts0 [_ [_ [_ [Hv0 _]]]]].
  split; [exact Hts0|].
  split; [intros Hv; apply Hv0, Hv|].
  split; [|split].
  - intros n rc c' n' blk Hb Hv.
    destruct (block_distributed _ _ _ _ _ _ Hinv Hb Hv) as [Hmod [Hts Htg]].
    destruct (land_8_alternates (sched_ts c)) as [Hr Ha];
      [exact Hts0 | exact Hmod |].
    rewrite Hts. repeat split; try apply Hr; try exact Ha. exact Htg.
  - intros p. apply (timeout_effect false c p).
  - intros tg. split.
    + apply (receive_spk_k_effect false c tg).
    + apply (receive_spk_v_effect false c tg).
Qed.

(** C4 (amended).  For a channel whose modes are named ones: a block
    boundary with a countdown that is not zero, on sub-phase R, decrements
    the countdown by one, and the live mode after the block is the scheduled
    mode exactly when the countdown was 1 (it reaches zero), and is unchanged
    otherwise; a block boundary on sub-phase M, or with the countdown at
    zero, leaves the countdown and the live mode as they are; and the
    timeout and receive entries leave the live mode as it is. *)
Theorem mode_switch_countdown c :
  dsp_mode c <> DSP_MODE_other ->
  sched_dsp_mode c <> DSP_MODE_other ->
  (forall n rc c' n' blk,
     fsk_telegramm_block CAUSE_NORMAL CAUSE_BUSY CAUSE_NOANSWER
       CNETZ_CAUSE_GASSENBESETZT CNETZ_CAUSE_TEILNEHMERBESETZT N_AFKT N_AFV
       ogk_timeslot_mask n rc c = Some (c', n', blk) ->
     (sched_switch_mode c <> 0 -> sched_r_m c = 0 ->
      sched_switch_mode (sched_switch c) = sched_switch_mode c - 1 /\
      dsp_mode c' = (if sched_switch_mode c =? 1 then sched_dsp_mode c
                     else dsp_mode c)) /\
     (sched_switch_mode c = 0 \/ sched_r_m c <> 0 ->
      sched_switch_mode (sched_switch c) = sched_switch_mode c /\
      dsp_mode c' = dsp_mode c)) /\
  (forall p,
     dsp_mode (transaction_timeout CAUSE_OUTOFORDER CAUSE_TEMPFAIL
                 CNETZ_CAUSE_FUNKTECHNISCH c p) = dsp_mode c) /\
  (forall tg,
     dsp_mode (cnetz_receive_telegramm_spk_k CAUSE_TEMPFAIL match_fuz match_futln
                 c tg) = dsp_mode c /\
     dsp_mode (cnetz_receive_telegramm_spk_v CAUSE_TEMPFAIL match_fuz match_futln
                 c tg) = dsp_mode c) /\
  (forall tg blk alloc c',
     cnetz_receive_telegramm_ogk match_fuz c tg blk alloc = Some c' ->
     dsp_mode c' = dsp_mode c).
Proof.
  intros Hm Hs. split; [|split; [|split]].
  - intros n rc c' n' blk Hb.
    rewrite (block_mode _ _ _ _ _ _ Hm Hs Hb).
    destruct (sched_switch_fields c) as [_ [_ [_ [_ Sw]]]].
    split.
    + intros Hn Hr. destruct Sw as [[_ [_ [E1 E2]]]|[[F|F] _]];
        [split; assumption | contradiction | contradiction].
    + intros Hz. destruct Sw as [[Hn [Hr _]]|[_ E]];
        [destruct Hz; contradiction | rewrite E; split; reflexivity].
  - intros p. apply (effect_mode false); [exact Hm | apply timeout_effect].
  - intros tg. split; (apply (effect_mode false); [exact Hm|]).
    + apply receive_spk_k_effect.
    + apply receive_spk_v_effect.
  - intros tg blk alloc c' H.
    apply (effect_mode false); [exact Hm|].
    eapply receive_ogk_effect; exact H.
Qed.

(** Call control leaves the slot counters and the live mode of every
    channel as they are. *)
Lemma Forall2_effect_mode l l' :
  Forall (fun c => dsp_mode c <> DSP_MODE_other) l ->
  Forall2 (effect false) l l' ->
  Forall2 (fun c c' => dsp_mode c' = dsp_mode c /\ sched_ts c' = sched_ts c
                       /\ sched_r_m c' = sched_r_m c) l l'.
Proof.
  intros Hl H. induction H as [|c c' l l' Hc _ IH]; [constructor|].
  inversion Hl; subst. constructor; [|auto].
  split; [eapply effect_mode; eassumption|].
  destruct Hc as [Et [Er _]]. split; assumption.
Qed.


(** A run of entries of one transceiver is a run of the base station. *)
Lemma run_reachable es : forall c n c' n',
  run CAUSE_NORMAL CAUSE_BUSY CAUSE_NOANSWER CAUSE_TEMPFAIL
    CNETZ_CAUSE_GASSENBESETZT CNETZ_CAUSE_TEILNEHMERBESETZT N_AFKT N_AFV
    ogk_timeslot_mask match_fuz match_futln es c n = Some (c', n') ->
  reached (mk_world [c] n) -> reached (mk_world [c'] n').
Proof.
  induction es as [|e es IH]; intros c n c' n' H Hr.
  - injection H as <- <-. exact Hr.
  - destruct e as [rc|tg|tg]; cbn [run] in H.
    + destruct (block n rc c) as [[[c1 n1] blk]|] eqn:Hb; [|discriminate].
      cbn [fst snd] in H. apply (IH _ _ _ _ H).
      eapply reachable_step; [exact Hr|].
      exact (step_transmit _ _ _ _ _ _ _ _ _ _ _ _ _ _ _
               (mk_world [c] n) [] c [] rc c1 n1 blk eq_refl Hb).
    + apply (IH _ _ _ _ H).
      eapply reachable_step; [exact Hr|].
      exact (step_receive_spk_k _ _ _ _ _ _ _ _ _ _ _ _ _ _ _
               (mk_world [c] n) [] c [] tg eq_refl).
    + apply (IH _ _ _ _ H).
      eapply reachable_step; [exact Hr|].
      exact (step_receive_spk_v _ _ _ _ _ _ _ _ _ _ _ _ _ _ _
               (mk_world [c] n) [] c [] tg eq_refl).
Qed.

End Scheduler.

End SchedulerFacts.

(** ** C-Netz: runs of the example base station *)

(** The example base station reaches [paged_131]: the transceiver is
    created, and call control sets up a call to 2222002. *)
Lemma paged_131_reachable :
  Cnetz.reachable_131 (Cnetz.mk_world [Cnetz.paged_131] 0x40000000).
Proof.
  unfold Cnetz.reachable_131.
  eapply Cnetz.reachable_step.
  - eapply Cnetz.reachable_step; [apply Cnetz.reachable_start|].
    exact (Cnetz.step_create _ _ _ _ _ _ _ _ _ _ _ _ _ _ _
             (Cnetz.mk_world [] 0x40000000) Cnetz.env_ok 131 0 0%float 0%float
             Cnetz.fresh_131 eq_refl).
  - refine (Cnetz.step_setup _ _ _ _ _ _ _ _ _ _ _ _ _ _ _
              (Cnetz.mk_world [Cnetz.fresh_131] 0x40000000) 1 "2222002"
              (Some 1) 0 [Cnetz.paged_131] _ eq_refl).
    intros [].
Qed.

(** The example call reaches distributed signalling. *)
Lemma held_131_reachable :
  Cnetz.reachable_131 (Cnetz.mk_world [Cnetz.held_131] 0x40000000).
Proof.
  refine (run_reachable _ _ _ _ _ _ _ _ _ _ _ _ _ _ _
            Cnetz.call_131 Cnetz.paged_131 0x40000000 _ _ _ paged_131_reachable).
  vm_compute. reflexivity.
Qed.

(** The scheduler fields and the transaction of [held_131], and its next
    block: the slot counter wraps from 24 to 0, and the telegram is
    VHQ2_V. *)
Example held_131_block :
  Cnetz.dsp_mode Cnetz.held_131 = Cnetz.DSP_MODE_SPK_V /\
  Cnetz.sched_ts Cnetz.held_131 = 24 /\
  map Cnetz.t_state (Cnetz.trans_list Cnetz.held_131) = [Cnetz.TRANS_VHQ] /\
  exists c' tg,
    Cnetz.block_131 0x40000000 0 Cnetz.held_131
    = Some (c', 0x40000000, Cnetz.Distributed tg) /\
    Cnetz.dsp_mode c' = Cnetz.DSP_MODE_SPK_V /\ Cnetz.sched_ts c' = 0 /\
    Cnetz.opcode tg = Cnetz.OPCODE_VHQ2_V.
Proof.
  split; [vm_compute; reflexivity|].
  split; [vm_compute; reflexivity|].
  split; [vm_compute; reflexivity|].
  eexists _, _.
  split; [vm_compute; reflexivity|].
  split; [reflexivity|]. split; reflexivity.
Qed.

(** The witness of C5: the channel of the example call.  It is reached by
    a run, in distributed signalling at slot 24 with the call held; its
    next block is a distributed frame with the telegram VHQ2_V and takes
    the slot counter to 0, where the test [sched_ts & 8] gives the other
    answer. *)
Lemma distributed_slot_counter_witness :
  Cnetz.reachable_131 (Cnetz.mk_world [Cnetz.held_131] 0x40000000) /\
  Cnetz.dsp_mode Cnetz.held_131 = Cnetz.DSP_MODE_SPK_V /\
  Cnetz.sched_ts Cnetz.held_131 = 24 /\
  exists c' tg,
    Cnetz.block_131 0x40000000 0 Cnetz.held_131
    = Some (c', 0x40000000, Cnetz.Distributed tg) /\
    Cnetz.dsp_mode c' = Cnetz.DSP_MODE_SPK_V /\
    Cnetz.sched_ts c' = 0 /\
    Cnetz.opcode tg = Cnetz.OPCODE_VHQ2_V /\
    (Z.land (Cnetz.sched_ts c') 8 =? 0) = true /\
    (Z.land (Cnetz.sched_ts Cnetz.held_131) 8 =? 0) = false.
Proof.
  split; [exact held_131_reachable|].
  split; [vm_compute; reflexivity|].
  split; [vm_compute; reflexivity|].
  destruct (proj1 (distributed_slot_counter 16 17 19 27 28 34 41 0 1 2 3 3 1
                     (fun _ => true) (fun _ _ _ _ => true))
              Cnetz.held_131 0x40000000 0)
    as [c' [tg [Hb [Hm [_ [Hts Hop]]]]]]; [vm_compute; reflexivity|].
  exists c', tg.
  split; [exact Hb|]. split; [exact Hm|].
  assert (Hts' : Cnetz.sched_ts c' = 0) by (rewrite Hts; vm_compute; reflexivity).
  split; [exact Hts'|].
  split.
  - rewrite (Hop (Cnetz.mk_trans 1 Cnetz.TRANS_VHQ 2 2 22002 0 1 0 0 EmptyString true));
      [vm_compute; reflexivity | vm_compute; reflexivity | reflexivity].
  - rewrite Hts'. split; vm_compute; reflexivity.
Defined.

(** The counterexample of C4: call control releases the call after the
    channel assignment has been sent and before the switch to the speech
    channel.  [call_out_release] removes the transaction and
    [cnetz_go_idle] sets the countdown to zero; the scheduled mode stays
    SPK_K while the live mode is OGK. *)
Lemma cancelled_switch_counterexample :
  exists w c,
    Cnetz.reachable_131 w /\ In c (Cnetz.sender_head w) /\
    ~ Cnetz.countdown_positive c.
Proof.
  exists (Cnetz.mk_world [Cnetz.cancelled_131] 0x40000000), Cnetz.cancelled_131.
  split; [|split].
  - unfold Cnetz.reachable_131.
    eapply Cnetz.reachable_step.
    + refine (run_reachable _ _ _ _ _ _ _ _ _ _ _ _ _ _ _
                [Cnetz.Transmit 0] Cnetz.paged_131 0x40000000 _ _ _
                paged_131_reachable).
      vm_compute. reflexivity.
    + refine (Cnetz.step_release _ _ _ _ _ _ _ _ _ _ _ _ _ _ _
                (Cnetz.mk_world [_] 0x40000000) 1 16 [Cnetz.cancelled_131] _).
      vm_compute. reflexivity.
  - left. reflexivity.
  - unfold Cnetz.countdown_positive. cbn. intros H.
    assert (0 < 0) by (apply H; discriminate). lia.
Qed.

(** [switching_131] is the channel four blocks after the call has been set
    up, and its next block switches it to concentrated signalling. *)
Example switching_131_block :
  Cnetz.run_131 (repeat (Cnetz.Transmit 0) 4) Cnetz.paged_131 0x40000000
  = Some (Cnetz.switching_131, 0x40000000) /\
  option_map (fun r => Cnetz.dsp_mode (fst (fst r)))
    (Cnetz.block_131 0x40000000 0 Cnetz.switching_131)
  = Some Cnetz.DSP_MODE_SPK_K.
Proof. split; vm_compute; reflexivity. Qed.

(** The witness of C4 (amended): the channel [switching_131]. *)
Lemma mode_switch_countdown_witness :
  Cnetz.dsp_mode Cnetz.switching_131 <> Cnetz.DSP_MODE_other /\
  Cnetz.sched_dsp_mode Cnetz.switching_131 <> Cnetz.DSP_MODE_other /\
  (forall n rc c' n' blk,
     Cnetz.block_131 n rc Cnetz.switching_131 = Some (c', n', blk) ->
     (Cnetz.sched_switch_mode Cnetz.switching_131 <> 0 ->
      Cnetz.sched_r_m Cnetz.switching_131 = 0 ->
      Cnetz.sched_switch_mode (Cnetz.sched_switch Cnetz.switching_131)
      = Cnetz.sched_switch_mode Cnetz.switching_131 - 1 /\
      Cnetz.dsp_mode c'
      = (if Cnetz.sched_switch_mode Cnetz.switching_131 =? 1
         then Cnetz.sched_dsp_mode Cnetz.switching_131
         else Cnetz.dsp_mode Cnetz.switching_131)) /\
     (Cnetz.sched_switch_mode Cnetz.switching_131 = 0
      \/ Cnetz.sched_r_m Cnetz.switching_131 <> 0 ->
      Cnetz.sched_switch_mode (Cnetz.sched_switch Cnetz.switching_131)
      = Cnetz.sched_switch_mode Cnetz.switching_131 /\
      Cnetz.dsp_mode c' = Cnetz.dsp_mode Cnetz.switching_131)).
Proof.
  split; [discriminate|]. split; [discriminate|].
  refine (proj1 (mode_switch_countdown 16 17 19 27 41 0 1 2 3 3 1
                   (fun _ => true) (fun _ _ _ _ => true)
                   Cnetz.switching_131 _ _)); discriminate.
Defined.

(** ** C-Netz: further properties of transactions and of the scheduler *)

Section TransactionFacts.

Import Cnetz.

Lemma update_trans_others p f l :
  ~ In p (map t_ptr l) ->
  map (fun t => if t_ptr t =? p then f t else t) l = l.
Proof.
  induction l as [|x l IH]; intros Hn; [reflexivity|].
  cbn [map] in *. cbn [In] in Hn.
  destruct (Z.eqb_spec (t_ptr x) p) as [E|E]; [exfalso; apply Hn; left; exact E|].
  rewrite IH; [reflexivity|]. intros H. apply Hn. right. exact H.
Qed.

Lemma update_trans_head c p f t l :
  trans_list c = t :: l -> t_ptr t = p -> ~ In p (map t_ptr l) ->
  update_trans c p f = set_trans_list c (f t :: l).
Proof.
  intros Hl Hp Hn. unfold update_trans. rewrite Hl. cbn [map].
  rewrite Hp, Z.eqb_refl, update_trans_others by exact Hn. reflexivity.
Qed.

(** The loop of [cnetz_destroy] on a list of transactions. *)
Lemma cnetz_destroy_spec : forall l c,
  trans_list c = l ->
  Forall (fun t => t_state t <> TRANS_0) l ->
  exists c',
    cnetz_destroy (List.length l) c = Some c' /\
    trans_list c' = [] /\
    events c' = events c ++ map Destroying_transaction l /\
    same_settings c c'.
Proof.
  induction l as [|t l IH]; intros c Hl Hs.
  - exists c. cbn [List.length cnetz_destroy]. unfold search_transaction.
    rewrite Hl. cbn [find map]. rewrite app_nil_r.
    repeat split; try reflexivity; try exact Hl.
  - inversion Hs as [|? ? Ht Hs']; subst.
    cbn [List.length cnetz_destroy]. unfold search_transaction.
    rewrite Hl. cbn [find].
    assert (Hm : existsb (trans_state_t_beq (t_state t)) all_states = true)
      by (destruct (t_state t); [contradiction|..]; reflexivity).
    rewrite Hm. rewrite (destroy_head c t l Hl).
    destruct (IH (emit (set_trans_list c l) (Destroying_transaction t))
                eq_refl Hs') as [c' [H1 [H2 [H3 H4]]]].
    exists c'. split; [exact H1|]. split; [exact H2|]. split.
    + rewrite H3. cbn [events emit set_trans_list map].
      rewrite <- app_assoc. reflexivity.
    + eapply same_settings_trans; [|exact H4].
      unfold same_settings. cbn. repeat split.
Qed.

(** X1.  [cnetz_destroy] returns and removes every pending transaction of
    the channel, the oldest first, whatever their number: the list is empty
    afterwards, one removal is logged per transaction in the order of the
    list, and nothing else of the channel changes.  (The mask [~0] of the
    search covers every state flag; a transaction in the list has one.) *)
Theorem cnetz_destroy_removes_all c :
  Forall (fun t => t_state t <> TRANS_0) (trans_list c) ->
  exists c',
    cnetz_destroy (List.length (trans_list c)) c = Some c' /\
    trans_list c' = [] /\
    events c' = events c ++ map Destroying_transaction (trans_list c) /\
    same_settings c c'.
Proof.
  intros H. exact (cnetz_destroy_spec (trans_list c) c eq_refl H).
Qed.

Lemma filter_none {A} (f : A -> bool) l :
  (forall t, In t l -> f t = false) -> filter f l = [].
Proof.
  induction l as [|x l IH]; intros H; [reflexivity|].
  cbn [filter]. rewrite (H x (or_introl eq_refl)).
  apply IH. intros t Ht. apply H. right. exact Ht.
Qed.

Lemma remove_first_subscribers f l :
  NoDup (map subscriber l) -> NoDup (map subscriber (remove_first f l)).
Proof.
  induction l as [|x l IH]; intros Hnd; [exact Hnd|].
  cbn [map] in Hnd. inversion Hnd as [|? ? Hnotin Hnd']; subst.
  cbn [remove_first]. destruct (f x); [exact Hnd'|].
  cbn [map]. constructor; [|apply IH, Hnd'].
  intros Hin. apply Hnotin. apply in_map_iff in Hin.
  destruct Hin as [y [Hy Hin]]. rewrite <- Hy. apply in_map.
  eapply remove_first_incl. exact Hin.
Qed.

Lemma same_futln_subscriber t a b r :
  same_futln t a b r = true <-> subscriber t = (a, b, r).
Proof.
  unfold same_futln, subscriber.
  rewrite !andb_true_iff, !Z.eqb_eq. split.
  - intros [[-> ->] ->]. reflexivity.
  - intros H. injection H as -> -> ->. auto.
Qed.

(** After the first element that satisfies [f] has been removed from a list
    without two equal subscribers, no element of that subscriber is left. *)
Lemma remove_first_gone a b r l :
  NoDup (map subscriber l) ->
  ~ In (a, b, r) (map subscriber (remove_first (fun t => same_futln t a b r) l)).
Proof.
  induction l as [|x l IH]; intros Hnd; [intros []|].
  cbn [map] in Hnd. inversion Hnd as [|? ? Hnotin Hnd']; subst.
  cbn [remove_first]. destruct (same_futln x a b r) eqn:Hx.
  - apply same_futln_subscriber in Hx. rewrite <- Hx. exact Hnotin.
  - cbn [map In]. intros [H|H].
    + apply same_futln_subscriber in H. congruence.
    + revert H. apply IH, Hnd'.
Qed.

(** X2.  [create_transaction] keeps the transactions of a channel apart:
    on a list with distinct addresses and distinct subscribers, and with a
    fresh block from [calloc], it returns the new transaction, and
    afterwards the addresses and the subscribers are still distinct, the
    new transaction is the only one of its subscriber, and the list has
    grown by at most one. *)
Theorem create_transaction_unique c state futln_nat futln_fuvst futln_rest p :
  NoDup (map t_ptr (trans_list c)) ->
  ~ In p (map t_ptr (trans_list c)) ->
  NoDup (map subscriber (trans_list c)) ->
  exists c1,
    create_transaction c state futln_nat futln_fuvst futln_rest (Some p)
    = Some (c1, Some p) /\
    NoDup (map t_ptr (trans_list c1)) /\
    NoDup (map subscriber (trans_list c1)) /\
    filter (same_subscriber futln_nat futln_fuvst futln_rest) (trans_list c1)
    = [new_transaction p state futln_nat futln_fuvst futln_rest] /\
    (List.length (trans_list c1) <= S (List.length (trans_list c)))%nat.
Proof.
  intros Hp Hfresh Hs.
  destruct (create_then_flush c state futln_nat futln_fuvst futln_rest p Hp Hfresh)
    as [c1 [_ [Hc [Hl _]]]].
  exists c1. split; [exact Hc|]. rewrite Hl.
  set (same := same_subscriber futln_nat futln_fuvst futln_rest) in *.
  set (new := new_transaction p state futln_nat futln_fuvst futln_rest).
  assert (Hgone : ~ In (subscriber new) (map subscriber (remove_first same (trans_list c)))).
  { apply (remove_first_gone (u8 futln_nat) (u8 futln_fuvst) (futln_rest mod 2 ^ 16)).
    exact Hs. }
  assert (Hnew : subscriber new = (u8 futln_nat, u8 futln_fuvst, futln_rest mod 2 ^ 16))
    by reflexivity.
  split; [|split; [|split]].
  - rewrite map_app. cbn [map]. apply NoDup_app.
    + apply remove_first_NoDup, Hp.
    + constructor; [intros []|constructor].
    + intros a Ha [E|[]]. subst a. apply Hfresh. cbn [t_ptr new_transaction new] in Ha.
      apply in_map_iff in Ha. destruct Ha as [y [Hy Hin]].
      rewrite <- Hy. apply in_map. eapply remove_first_incl. exact Hin.
  - rewrite map_app. cbn [map]. apply NoDup_app.
    + apply remove_first_subscribers, Hs.
    + constructor; [intros []|constructor].
    + intros a Ha [E|[]]. subst a. apply Hgone. exact Ha.
  - rewrite filter_app.
    assert (Hnone : filter same (remove_first same (trans_list c)) = []).
    { assert (Hall : forall t, In t (remove_first same (trans_list c)) ->
                             same t = false).
      { intros t Ht. destruct (same t) eqn:E; [|reflexivity].
        exfalso. apply Hgone. rewrite Hnew.
        apply same_futln_subscriber in E. rewrite <- E. apply in_map, Ht. }
      apply filter_none, Hall. }
    rewrite Hnone. cbn [app filter].
    replace (same new) with true; [reflexivity|].
    symmetry. apply same_futln_subscriber. exact Hnew.
  - rewrite length_app. cbn [List.length].
    assert (List.length (remove_first same (trans_list c)) <= List.length (trans_list c))%nat.
    { clear. induction (trans_list c) as [|x l IH]; [apply le_n|].
      cbn [remove_first]. destruct (same x); cbn [List.length]; lia. }
    lia.
Qed.

End TransactionFacts.

Section SchedulerRuns.

Import Cnetz.

Variable CAUSE_NORMAL CAUSE_BUSY CAUSE_NOANSWER CAUSE_OUTOFORDER : Z.
Variable CAUSE_INVALNUMBER CAUSE_NOCHANNEL CAUSE_TEMPFAIL : Z.
Variable CNETZ_CAUSE_GASSENBESETZT CNETZ_CAUSE_TEILNEHMERBESETZT : Z.
Variable CNETZ_CAUSE_FUNKTECHNISCH : Z.
Variable N_AFKT N_AFV : Z.
Variable ogk_timeslot_mask : Z.
Variable match_fuz : telegramm_t -> bool.
Variable match_futln : telegramm_t -> Z -> Z -> Z -> bool.

Local Notation block :=
  (fsk_telegramm_block CAUSE_NORMAL CAUSE_BUSY CAUSE_NOANSWER
     CNETZ_CAUSE_GASSENBESETZT CNETZ_CAUSE_TEILNEHMERBESETZT N_AFKT N_AFV
     ogk_timeslot_mask).
Local Notation encode_block :=
  (sched_encode CAUSE_NORMAL CAUSE_BUSY CAUSE_NOANSWER
     CNETZ_CAUSE_GASSENBESETZT CNETZ_CAUSE_TEILNEHMERBESETZT N_AFKT N_AFV
     ogk_timeslot_mask).
Local Notation reached :=
  (reachable CAUSE_NORMAL CAUSE_BUSY CAUSE_NOANSWER CAUSE_OUTOFORDER CAUSE_INVALNUMBER
     CAUSE_NOCHANNEL CAUSE_TEMPFAIL CNETZ_CAUSE_GASSENBESETZT
     CNETZ_CAUSE_TEILNEHMERBESETZT CNETZ_CAUSE_FUNKTECHNISCH N_AFKT N_AFV
     ogk_timeslot_mask match_fuz match_futln).

(** X3.  In every state of a run, a block that is not emitted in
    distributed signalling moves the scheduler from sub-phase R to sub-phase
    M of the same slot, or from sub-phase M to sub-phase R of the next slot,
    slot 31 being followed by slot 0; the slot stays in 0..31, and what is
    sent is a block telegram ([fsk_block_encode]) or nothing
    ([fsk_nothing_encode]). *)
Theorem slot_counter_concentrated w c n rc c' n' blk :
  reachable CAUSE_NORMAL CAUSE_BUSY CAUSE_NOANSWER CAUSE_OUTOFORDER
    CAUSE_INVALNUMBER CAUSE_NOCHANNEL CAUSE_TEMPFAIL CNETZ_CAUSE_GASSENBESETZT
    CNETZ_CAUSE_TEILNEHMERBESETZT CNETZ_CAUSE_FUNKTECHNISCH N_AFKT N_AFV
    ogk_timeslot_mask match_fuz match_futln w ->
  In c (sender_head w) ->
  fsk_telegramm_block CAUSE_NORMAL CAUSE_BUSY CAUSE_NOANSWER
    CNETZ_CAUSE_GASSENBESETZT CNETZ_CAUSE_TEILNEHMERBESETZT N_AFKT N_AFV
    ogk_timeslot_mask n rc c = Some (c', n', blk) ->
  dsp_mode c' <> DSP_MODE_SPK_V ->
  (sched_r_m c = 0 \/ sched_r_m c = 1) /\
  (sched_r_m c = 0 -> sched_r_m c' = 1 /\ sched_ts c' = sched_ts c) /\
  (sched_r_m c = 1 ->
   sched_r_m c' = 0 /\ sched_ts c' = (sched_ts c + 1) mod 32) /\
  0 <= sched_ts c' < 32 /\
  (blk = Nothing \/ exists tg, blk = Block tg).
Proof.
  intros Hw Hc H Hv.
  assert (Hinv : sched_inv c).
  { apply reachable_inv in Hw. rewrite Forall_forall in Hw. apply Hw, Hc. }
  destruct Hinv as [Hts [Hrm [Hm [Hs _]]]].
  pose proof (block_mode _ _ _ _ _ _ _ _ _ _ _ _ _ _ Hm Hs H) as Hmode.
  unfold fsk_telegramm_block in H. cbv zeta in H.
  destruct (encode_block n rc (sched_switch c)) as [[[c2 n2] blk2]|] eqn:He;
    [|discriminate].
  injection H as <- <- <-. cbn [fst snd] in *.
  destruct (sched_advance_fields c2) as [Am [_ [_ [_ [_ Ac]]]]].
  rewrite Am in Hv. destruct (Ac Hv) as [A0 A1].
  pose proof (encode_block_effect _ _ _ _ _ _ _ _ _ _ _ _ _ _ He) as Eff.
  destruct Eff as [Et [Er _]].
  destruct (sched_switch_fields c) as [St [Sr _]].
  rewrite St in Et. rewrite Sr in Er. rewrite Et, Er in *.
  split; [exact Hrm|].
  assert (Hr0 : sched_r_m c = 0 ->
                sched_r_m (sched_advance c2) = 1 /\
                sched_ts (sched_advance c2) = sched_ts c).
  { intros E. destruct (A0 E) as [-> ->].
    destruct (Z.eqb_spec (sched_ts c) 32); [lia|]. split; reflexivity. }
  assert (Hr1 : sched_r_m c = 1 ->
                sched_r_m (sched_advance c2) = 0 /\
                sched_ts (sched_advance c2) = (sched_ts c + 1) mod 32).
  { intros E. destruct A1 as [-> ->]; [lia|].
    split; [reflexivity|].
    destruct (Z.eqb_spec (sched_ts c + 1) 32) as [E32|E32].
    - rewrite E32. reflexivity.
    - rewrite Z.mod_small by lia. reflexivity. }
  split; [exact Hr0|]. split; [exact Hr1|]. split.
  - destruct Hrm as [E|E].
    + destruct (Hr0 E) as [_ ->]. exact Hts.
    + destruct (Hr1 E) as [_ ->]. apply Z.mod_pos_bound. lia.
  - rewrite Am in Hmode.
    unfold sched_encode in He.
    destruct (dsp_mode (sched_switch c)) eqn:Hd.
    + destruct (negb _).
      * destruct (cnetz_encode_telegramm _ _ _ _ _ _ _ _ _ _) as [r|];
          [|discriminate].
        injection He as _ _ <-. right. eexists. reflexivity.
      * injection He as _ _ <-. left. reflexivity.
    + destruct (cnetz_encode_telegramm _ _ _ _ _ _ _ _ _ _) as [r|];
        [|discriminate].
      injection He as _ _ <-. right. eexists. reflexivity.
    + contradiction.
    + injection He as _ _ <-. left. reflexivity.
Qed.

(** X4.  In every state of a run, [call_out_setup], [call_out_disconnect]
    and [call_out_release] return with as many channels as before, each
    with the live mode, the slot and the sub-phase it had: call control
    acts on the scheduler only through the countdown and the scheduled
    mode. *)
Theorem call_control_keeps_scheduler w :
  reachable CAUSE_NORMAL CAUSE_BUSY CAUSE_NOANSWER CAUSE_OUTOFORDER
    CAUSE_INVALNUMBER CAUSE_NOCHANNEL CAUSE_TEMPFAIL CNETZ_CAUSE_GASSENBESETZT
    CNETZ_CAUSE_TEILNEHMERBESETZT CNETZ_CAUSE_FUNKTECHNISCH N_AFKT N_AFV
    ogk_timeslot_mask match_fuz match_futln w ->
  (forall callref_ dialing_ alloc rc senders,
     call_out_setup CAUSE_BUSY CAUSE_INVALNUMBER CAUSE_NOCHANNEL CAUSE_TEMPFAIL
       (sender_head w) callref_ dialing_ alloc = Some (rc, senders) ->
     Forall2 same_clock (sender_head w) senders) /\
  (forall callref_ cause senders,
     call_out_disconnect CAUSE_NORMAL CAUSE_BUSY CAUSE_NOANSWER
       CNETZ_CAUSE_GASSENBESETZT CNETZ_CAUSE_TEILNEHMERBESETZT
       (sender_head w) callref_ cause = Some senders ->
     Forall2 same_clock (sender_head w) senders) /\
  (forall callref_ cause senders,
     call_out_release CAUSE_NORMAL CAUSE_BUSY CAUSE_NOANSWER
       CNETZ_CAUSE_GASSENBESETZT CNETZ_CAUSE_TEILNEHMERBESETZT
       (sender_head w) callref_ cause = Some senders ->
     Forall2 same_clock (sender_head w) senders).
Proof.
  intros Hw. apply reachable_inv in Hw.
  assert (Hn : Forall (fun c => dsp_mode c <> DSP_MODE_other) (sender_head w)).
  { eapply Forall_impl; [|exact Hw]. intros c Hc. apply Hc. }
  split; [|split]; intros; apply Forall2_effect_mode; try exact Hn.
  - eapply setup_effect; eassumption.
  - eapply disconnect_effect; eassumption.
  - eapply release_effect; eassumption.
Qed.

(** The fields that the advance of the slot counter leaves alone. *)
Lemma sched_advance_rest c :
  state (sched_advance c) = state c /\
  callref (sched_advance c) = callref c /\
  events (sched_advance c) = events c.
Proof.
  unfold sched_advance.
  destruct (dsp_mode_t_beq _ _); [|destruct (sched_r_m c =? 0)];
    cbn [sched_ts set_slot];
    match goal with |- context [if ?b then _ else _] => destruct b end;
    repeat split; reflexivity.
Qed.

(** [cnetz_go_idle] on the speech channel. *)
Lemma go_idle_speech c :
  dsp_mode c = DSP_MODE_SPK_K ->
  trans_list (cnetz_go_idle CAUSE_NORMAL c) = trans_list c /\
  state (cnetz_go_idle CAUSE_NORMAL c) = CNETZ_IDLE /\
  callref (cnetz_go_idle CAUSE_NORMAL c) = 0 /\
  dsp_mode (cnetz_go_idle CAUSE_NORMAL c) = DSP_MODE_SPK_K /\
  sched_dsp_mode (cnetz_go_idle CAUSE_NORMAL c) = DSP_MODE_OGK /\
  sched_switch_mode (cnetz_go_idle CAUSE_NORMAL c) = 1 /\
  events (cnetz_go_idle CAUSE_NORMAL c)
  = events c ++ (if callref c =? 0 then []
                 else [Call_in_release (callref c) CAUSE_NORMAL]).
Proof.
  intros Hm. unfold cnetz_go_idle.
  destruct (Z.eqb_spec (callref c) 0) as [E|E]; cbn [negb]; cbv zeta;
    cbn [dsp_mode set_state set_callref emit]; rewrite Hm;
    cbn; rewrite ?app_nil_r; repeat split; try reflexivity; assumption.
Qed.

(** One release telegram in concentrated signalling. *)
Lemma release_block c t l n rc :
  dsp_mode c = DSP_MODE_SPK_K -> sched_switch_mode c = 0 ->
  trans_list c = t :: l -> ~ In (t_ptr t) (map t_ptr l) ->
  t_state t = TRANS_AF ->
  exists c' tg,
    block n rc c = Some (c', n, Block tg) /\ opcode tg = OPCODE_AF_K /\
    dsp_mode c' = DSP_MODE_SPK_K /\
    if count t + 1 =? N_AFKT then
      trans_list c' = l /\ state c' = CNETZ_IDLE /\ callref c' = 0 /\
      sched_dsp_mode c' = DSP_MODE_OGK /\ sched_switch_mode c' = 1 /\
      events c' = events c
                  ++ [Destroying_transaction (set_count t (count t + 1))]
                  ++ (if callref c =? 0 then []
                      else [Call_in_release (callref c) CAUSE_NORMAL])
    else
      trans_list c' = set_count t (count t + 1) :: l /\
      sched_switch_mode c' = 0 /\ events c' = events c /\
      callref c' = callref c.
Proof.
  intros Hm Hz Hl Hn Ht.
  unfold fsk_telegramm_block. cbv zeta.
  assert (Hsw : sched_switch c = c).
  { unfold sched_switch. rewrite Hz. reflexivity. }
  rewrite Hsw. unfold sched_encode. rewrite Hm.
  unfold cnetz_encode_telegramm. rewrite Hm.
  unfold cnetz_transmit_telegramm_spk_k, first_trans. rewrite Hl.
  cbn [hd_error]. cbv zeta. rewrite Ht.
  unfold send_release. cbv zeta.
  rewrite (update_trans_head c (t_ptr t) _ t l Hl eq_refl Hn).
  destruct (count t + 1 =? N_AFKT) eqn:Hc.
  - pose proof (destroy_head (set_trans_list c (set_count t (count t + 1) :: l))
                  (set_count t (count t + 1)) l eq_refl) as Hd.
    cbn [t_ptr set_count] in Hd. rewrite Hd. clear Hd.
    cbn [fst snd].
    eexists _, _. split; [reflexivity|]. split; [reflexivity|].
    match goal with |- context [sched_advance ?x] => set (ci := x) end.
    destruct (sched_advance_fields ci) as [-> [-> [-> [-> _]]]].
    destruct (sched_advance_rest ci) as [-> [-> ->]].
    subst ci.
    match goal with |- context [cnetz_go_idle _ ?x] => set (cx := x) end.
    destruct (go_idle_speech cx Hm) as [-> [-> [-> [-> [-> [-> ->]]]]]].
    subst cx. cbn. rewrite <- app_assoc. repeat split; reflexivity.
  - cbn [fst snd].
    eexists _, _. split; [reflexivity|]. split; [reflexivity|].
    match goal with |- context [sched_advance ?x] => set (ci := x) end.
    destruct (sched_advance_fields ci) as [-> [_ [-> [-> _]]]].
    destruct (sched_advance_rest ci) as [_ [-> ->]].
    subst ci. cbn. repeat split; assumption.
Qed.

(** The release telegrams that are left to send, one block each. *)
Lemma release_run : forall k c t l n rc,
  dsp_mode c = DSP_MODE_SPK_K -> sched_switch_mode c = 0 ->
  trans_list c = t :: l -> ~ In (t_ptr t) (map t_ptr l) ->
  t_state t = TRANS_AF ->
  0 <= count t -> N_AFKT - count t = Z.of_nat (S k) ->
  exists c',
    run CAUSE_NORMAL CAUSE_BUSY CAUSE_NOANSWER CAUSE_TEMPFAIL
      CNETZ_CAUSE_GASSENBESETZT CNETZ_CAUSE_TEILNEHMERBESETZT N_AFKT N_AFV
      ogk_timeslot_mask match_fuz match_futln
      (repeat (Transmit rc) (S k)) c n = Some (c', n) /\
    trans_list c' = l /\ state c' = CNETZ_IDLE /\ callref c' = 0 /\
    dsp_mode c' = DSP_MODE_SPK_K /\
    sched_dsp_mode c' = DSP_MODE_OGK /\ sched_switch_mode c' = 1 /\
    events c' = events c
                ++ [Destroying_transaction (set_count t N_AFKT)]
                ++ (if callref c =? 0 then []
                    else [Call_in_release (callref c) CAUSE_NORMAL]).
Proof.
  induction k as [|k IH]; intros c t l n rc Hm Hz Hl Hn Ht H0 Hk;
    destruct (release_block c t l n rc Hm Hz Hl Hn Ht)
      as [c1 [tg [Hb [_ [Hm1 Hrest]]]]];
    cbn [repeat run]; rewrite Hb; cbn [fst snd].
  - replace (count t + 1 =? N_AFKT) with true in Hrest
      by (symmetry; apply Z.eqb_eq; lia).
    replace (count t + 1) with N_AFKT in Hrest by lia.
    exists c1. split; [reflexivity|].
    destruct Hrest as [? [? [? [? [? ?]]]]]. repeat split; assumption.
  - replace (count t + 1 =? N_AFKT) with false in Hrest
      by (symmetry; apply Z.eqb_neq; lia).
    destruct Hrest as [Hl1 [Hz1 [He1 Hc1]]].
    destruct (IH c1 (set_count t (count t + 1)) l n rc Hm1 Hz1 Hl1 Hn Ht)
      as [c' [Hr H]]; cbn [count set_count]; [lia | lia |].
    exists c'. split; [exact Hr|].
    rewrite He1, Hc1 in H. exact H.
Qed.

(** X5.  A release on the speech channel completes: in concentrated
    signalling, with the first transaction in state TRANS_AF, no switch
    pending and [count] below [N_AFKT], the next [N_AFKT - count] blocks are
    all transmitted, and after them the transaction is removed (its removal
    is logged with the final count), call control is told of the release
    when the channel still had a call reference, the channel is idle and
    the switch back to the organisation channel is due at the next block
    on sub-phase R. *)
Theorem release_completes c t l n rc :
  dsp_mode c = DSP_MODE_SPK_K -> sched_switch_mode c = 0 ->
  trans_list c = t :: l -> ~ In (t_ptr t) (map t_ptr l) ->
  t_state t = TRANS_AF ->
  0 <= count t < N_AFKT ->
  exists c',
    run CAUSE_NORMAL CAUSE_BUSY CAUSE_NOANSWER CAUSE_TEMPFAIL
      CNETZ_CAUSE_GASSENBESETZT CNETZ_CAUSE_TEILNEHMERBESETZT N_AFKT N_AFV
      ogk_timeslot_mask match_fuz match_futln
      (repeat (Transmit rc) (Z.to_nat (N_AFKT - count t))) c n = Some (c', n) /\
    trans_list c' = l /\ state c' = CNETZ_IDLE /\ callref c' = 0 /\
    dsp_mode c' = DSP_MODE_SPK_K /\
    sched_dsp_mode c' = DSP_MODE_OGK /\ sched_switch_mode c' = 1 /\
    events c' = events c
                ++ [Destroying_transaction (set_count t N_AFKT)]
                ++ (if callref c =? 0 then []
                    else [Call_in_release (callref c) CAUSE_NORMAL]).
Proof.
  intros Hm Hz Hl Hn Ht Hc.
  destruct (Z.to_nat (N_AFKT - count t)) as [|k] eqn:Hk; [lia|].
  apply (release_run k c t l n rc Hm Hz Hl Hn Ht); lia.
Qed.

End SchedulerRuns.

(** The witness of X1: the channel with two pending registrations. *)
Lemma cnetz_destroy_removes_all_witness :
  exists c',
    Cnetz.cnetz_destroy 2 Cnetz.pending_131 = Some c' /\
    Cnetz.trans_list c' = [] /\
    Cnetz.events c'
    = Cnetz.events Cnetz.pending_131
      ++ map Cnetz.Destroying_transaction (Cnetz.trans_list Cnetz.pending_131) /\
    Cnetz.same_settings Cnetz.pending_131 c'.
Proof.
  apply (cnetz_destroy_removes_all Cnetz.pending_131).
  repeat constructor; discriminate.
Defined.

(** The witness of X2: subscriber 1,1,11111, who has a roaming update
    pending, requests a call. *)
Lemma create_transaction_unique_witness :
  exists c1,
    Cnetz.create_transaction Cnetz.pending_131 Cnetz.TRANS_VWG 1 1 11111 (Some 3)
    = Some (c1, Some 3) /\
    NoDup (map Cnetz.t_ptr (Cnetz.trans_list c1)) /\
    NoDup (map Cnetz.subscriber (Cnetz.trans_list c1)) /\
    filter (Cnetz.same_subscriber 1 1 11111) (Cnetz.trans_list c1)
    = [Cnetz.new_transaction 3 Cnetz.TRANS_VWG 1 1 11111] /\
    (List.length (Cnetz.trans_list c1)
     <= S (List.length (Cnetz.trans_list Cnetz.pending_131)))%nat.
Proof.
  apply (create_transaction_unique Cnetz.pending_131 Cnetz.TRANS_VWG 1 1 11111 3).
  - cbn. repeat constructor; cbn; intuition discriminate.
  - cbn. intuition discriminate.
  - cbn. repeat constructor; cbn; intuition discriminate.
Defined.

(** The witness of X3: the first block after the call has been set up, the
    channel assignment on sub-phase R of slot 0. *)
Lemma slot_counter_concentrated_witness :
  exists c' blk,
    Cnetz.block_131 0x40000000 0 Cnetz.paged_131 = Some (c', 0x40000000, blk) /\
    (Cnetz.sched_r_m Cnetz.paged_131 = 0 \/ Cnetz.sched_r_m Cnetz.paged_131 = 1) /\
    (Cnetz.sched_r_m Cnetz.paged_131 = 0 ->
     Cnetz.sched_r_m c' = 1 /\ Cnetz.sched_ts c' = Cnetz.sched_ts Cnetz.paged_131) /\
    (Cnetz.sched_r_m Cnetz.paged_131 = 1 ->
     Cnetz.sched_r_m c' = 0 /\
     Cnetz.sched_ts c' = (Cnetz.sched_ts Cnetz.paged_131 + 1) mod 32) /\
    0 <= Cnetz.sched_ts c' < 32 /\
    (blk = Cnetz.Nothing \/ exists tg, blk = Cnetz.Block tg).
Proof.
  eexists _, _. split; [vm_compute; reflexivity|].
  refine (slot_counter_concentrated 16 17 19 27 28 34 41 0 1 2 3 3 1
            (fun _ => true) (fun _ _ _ _ => true)
            (Cnetz.mk_world [Cnetz.paged_131] 0x40000000) Cnetz.paged_131
            0x40000000 0 _ 0x40000000 _ paged_131_reachable (or_introl eq_refl)
            _ _).
  - vm_compute. reflexivity.
  - discriminate.
Defined.

(** The witness of X4: the base station after the call has been set up. *)
Lemma call_control_keeps_scheduler_witness :
  (forall callref_ dialing_ alloc rc senders,
     Cnetz.call_out_setup 17 28 34 41 [Cnetz.paged_131] callref_ dialing_ alloc
     = Some (rc, senders) ->
     Forall2 Cnetz.same_clock [Cnetz.paged_131] senders) /\
  (forall callref_ cause senders,
     Cnetz.call_out_disconnect 16 17 19 0 1 [Cnetz.paged_131] callref_ cause
     = Some senders ->
     Forall2 Cnetz.same_clock [Cnetz.paged_131] senders) /\
  (forall callref_ cause senders,
     Cnetz.call_out_release 16 17 19 0 1 [Cnetz.paged_131] callref_ cause
     = Some senders ->
     Forall2 Cnetz.same_clock [Cnetz.paged_131] senders).
Proof.
  exact (call_control_keeps_scheduler 16 17 19 27 28 34 41 0 1 2 3 3 1
           (fun _ => true) (fun _ _ _ _ => true)
           (Cnetz.mk_world [Cnetz.paged_131] 0x40000000) paged_131_reachable).
Defined.

(** The witness of X5: three release telegrams end the call on channel
    131. *)
Lemma release_completes_witness :
  exists c',
    Cnetz.run_131 (repeat (Cnetz.Transmit 0) 3) Cnetz.releasing_131 0x40000000
    = Some (c', 0x40000000) /\
    Cnetz.trans_list c' = [] /\ Cnetz.state c' = Cnetz.CNETZ_IDLE /\
    Cnetz.callref c' = 0 /\
    Cnetz.dsp_mode c' = Cnetz.DSP_MODE_SPK_K /\
    Cnetz.sched_dsp_mode c' = Cnetz.DSP_MODE_OGK /\
    Cnetz.sched_switch_mode c' = 1 /\
    Cnetz.events c'
    = [] ++ [Cnetz.Destroying_transaction
               (Cnetz.mk_trans 1 Cnetz.TRANS_AF 2 2 22002 0 1 3 0 EmptyString false)]
         ++ [Cnetz.Call_in_release 1 16].
Proof.
  refine (release_completes 16 17 19 41 0 1 3 3 1 (fun _ => true)
            (fun _ _ _ _ => true) Cnetz.releasing_131
            (Cnetz.mk_trans 1 Cnetz.TRANS_AF 2 2 22002 0 1 0 0 EmptyString false)
            [] 0x40000000 0 _ _ _ _ _ _); try reflexivity.
  - intros [].
  - cbn. lia.
Defined.

(** ** Radiocom 2000: channels and station identities *)

Section RadiocomFacts.

Import Radiocom.

Lemma In_Z_seq n start x :
  In x (Z_seq n start) <-> start <= x < start + Z.of_nat n.
Proof.
  revert start. induction n as [|n IH]; intros start.
  - cbn [Z_seq In]. lia.
  - cbn [Z_seq In]. rewrite IH. lia.
Qed.

Lemma forallb_Z_seq (f : Z -> bool) n start :
  forallb f (Z_seq n start) = true ->
  forall x, start <= x < start + Z.of_nat n -> f x = true.
Proof.
  intros H x Hx. rewrite forallb_forall in H. apply H, In_Z_seq, Hx.
Qed.

(** A band of the table has a number from 1 to 12 and at most 296
    channels. *)
Lemma channel_exists_bounds band channel :
  r2000_channel_exists band channel = true ->
  1 <= band <= 12 /\ 0 <= channel < 296.
Proof.
  unfold r2000_channel_exists, r2000_bands.
  cbn [existsb number channels].
  rewrite !orb_true_iff, !andb_true_iff, !Z.eqb_eq, !Z.leb_le, !Z.ltb_lt.
  lia.
Qed.

Lemma channel2freq_grid :
  forallb (fun p => channel2freq_ok (fst p) (snd p)) channel_grid = true.
Proof. vm_compute. reflexivity. Qed.

(** The band that the loop of [r2000_channel2freq] stops at does not have
    the channel, when no band of that number has it. *)
Lemma find_band_out_of_range band channel (l : list r2000_band) :
  existsb (fun b => (number b =? band) && (0 <=? channel) && (channel <? channels b)) l
  = false ->
  match find (fun b => number b =? band) l with
  | None => True
  | Some b => (channel <? 0) || (channels b - 1 <? channel) = true
  end.
Proof.
  induction l as [|b l IH]; intros H; [exact I|].
  cbn [existsb find] in *. apply orb_false_elim in H. destruct H as [Hb Hl].
  destruct (number b =? band).
  - cbn [andb] in Hb. apply andb_false_iff in Hb.
    rewrite Z.leb_gt, Z.ltb_ge in Hb.
    apply orb_true_iff. rewrite !Z.ltb_lt. lia.
  - apply IH, Hl.
Qed.

(** X6.  [r2000_channel2freq] returns 0.0, in either direction and for
    the duplex distance, for a band that is not in the table and for a
    channel that the band does not have. *)
Theorem channel2freq_unknown band channel uplink :
  r2000_channel_exists band channel = false ->
  r2000_channel2freq band channel uplink = 0%float.
Proof.
  intros H. apply find_band_out_of_range in H.
  unfold r2000_channel2freq.
  destruct (find _ r2000_bands) as [b|]; [|reflexivity].
  rewrite H. reflexivity.
Qed.

(** X7.  For every channel of every band of the table,
    [r2000_channel2freq] gives the frequency of the base station and of
    the station mobile within [2^-20] Hz of the exact ones: 12.5 kHz per
    channel above the first downlink channel of the band, and the uplink
    below the downlink by the duplex distance of the band.  Every non-zero
    [uplink] other than 2 asks for the station mobile. *)
Theorem channel2freq_nominal band channel :
  r2000_channel_exists band channel = true ->
  (exists down up,
     float_value (r2000_channel2freq band channel 0) = Some down /\
     float_value (r2000_channel2freq band channel 1) = Some up /\
     (Qabs (down - nominal_downlink band channel) <= 1 # 2 ^ 20)%Q /\
     (Qabs (up - nominal_uplink band channel) <= 1 # 2 ^ 20)%Q) /\
  r2000_channel2freq band channel 0 <> 0%float /\
  r2000_channel2freq band channel 1 <> 0%float /\
  (forall uplink, uplink <> 0 -> uplink <> 2 ->
     r2000_channel2freq band channel uplink = r2000_channel2freq band channel 1).
Proof.
  intros He. pose proof (channel_exists_bounds band channel He) as [Hb Hc].
  pose proof channel2freq_grid as Hg. rewrite forallb_forall in Hg.
  specialize (Hg (band, channel)). cbn [fst snd] in Hg.
  assert (Hin : In (band, channel) channel_grid).
  { unfold channel_grid. apply in_prod; apply In_Z_seq; lia. }
  specialize (Hg Hin). unfold channel2freq_ok in Hg. rewrite He in Hg.
  apply andb_true_iff in Hg. destruct Hg as [Hnz Hg].
  apply andb_true_iff in Hnz. destruct Hnz as [Hd0 Hu0].
  destruct (float_value (r2000_channel2freq band channel 0)) as [down|];
    [|discriminate].
  destruct (float_value (r2000_channel2freq band channel 1)) as [up|];
    [|discriminate].
  apply andb_true_iff in Hg. destruct Hg as [Hd Hu].
  apply Qle_bool_iff in Hd, Hu.
  split; [exists down, up; repeat split; assumption|].
  split; [intros E; rewrite E in Hd0; discriminate|].
  split; [intros E; rewrite E in Hu0; discriminate|].
  intros uplink H0 H2. unfold r2000_channel2freq.
  destruct (find _ r2000_bands) as [b|]; [|reflexivity].
  destruct ((channel <? 0) || (channels b - 1 <? channel)); [reflexivity|].
  apply Z.eqb_neq in H0, H2. rewrite H0, H2. reflexivity.
Qed.

Lemma digits3_all : forallb digits3_ok (Z_seq 512 0) = true.
Proof. vm_compute. reflexivity. Qed.

(** [decimal_digits] does not depend on the fuel, once there is enough
    of it. *)
Lemma decimal_digits_fuel k : forall fuel n acc,
  0 <= n < 10 ^ (Z.of_nat k + 1) -> (k <= fuel)%nat ->
  decimal_digits fuel n acc = decimal_digits k n acc.
Proof.
  induction k as [|k IH]; intros fuel n acc Hn Hf.
  - assert (E : (n / 10 =? 0) = true).
    { apply Z.eqb_eq, Z.div_small. cbn in Hn. lia. }
    destruct fuel; cbn [decimal_digits]; rewrite ?E; reflexivity.
  - destruct fuel as [|fuel]; [lia|].
    cbn [decimal_digits]. destruct (n / 10 =? 0); [reflexivity|].
    apply IH; [|lia].
    replace (Z.of_nat (S k) + 1) with (Z.succ (Z.of_nat k + 1)) in Hn by lia.
    rewrite Z.pow_succ_r in Hn by lia.
    split; [apply Z.div_pos; lia|].
    apply Z.div_lt_upper_bound; lia.
Qed.

Lemma digit_char_value k :
  0 <= k <= 9 ->
  Cnetz.is_digit (digit_char k) = true /\ Cnetz.digit_value (digit_char k) = k.
Proof.
  intros H.
  assert (E : k = 0 \/ k = 1 \/ k = 2 \/ k = 3 \/ k = 4 \/ k = 5 \/ k = 6
              \/ k = 7 \/ k = 8 \/ k = 9) by lia.
  destruct E as [->|[->|[->|[->|[->|[->|[->|[->|[->| ->]]]]]]]]];
    split; reflexivity.
Qed.

(** [atoi] reads a number back from its five digits. *)
Lemma atoi_five_digits m :
  0 <= m < 100000 -> Cnetz.atoi (five_digits m) = m.
Proof.
  intros Hm. unfold Cnetz.atoi, five_digits.
  assert (H4 : 0 <= m / 10 / 10 / 10 / 10 <= 9).
  { rewrite !Z.div_div by lia. split; [apply Z.div_pos; lia|].
    apply Z.lt_succ_r, Z.div_lt_upper_bound; lia. }
  pose proof (Z.mod_pos_bound (m / 10 / 10 / 10) 10 ltac:(lia)) as H3.
  pose proof (Z.mod_pos_bound (m / 10 / 10) 10 ltac:(lia)) as H2.
  pose proof (Z.mod_pos_bound (m / 10) 10 ltac:(lia)) as H1.
  pose proof (Z.mod_pos_bound m 10 ltac:(lia)) as H0.
  cbn [Cnetz.atoi_from].
  destruct (digit_char_value _ H4) as [-> ->].
  destruct (digit_char_value ((m / 10 / 10 / 10) mod 10) ltac:(lia)) as [-> ->].
  destruct (digit_char_value ((m / 10 / 10) mod 10) ltac:(lia)) as [-> ->].
  destruct (digit_char_value ((m / 10) mod 10) ltac:(lia)) as [-> ->].
  destruct (digit_char_value (m mod 10) ltac:(lia)) as [-> ->].
  pose proof (Z.div_mod m 10 ltac:(lia)).
  pose proof (Z.div_mod (m / 10) 10 ltac:(lia)).
  pose proof (Z.div_mod (m / 10 / 10) 10 ltac:(lia)).
  pose proof (Z.div_mod (m / 10 / 10 / 10) 10 ltac:(lia)).
  lia.
Qed.

(** [%05d] writes the five digits of a number below 100000. *)
Lemma sprintf_five_digits m :
  0 <= m < 100000 -> sprintf_d 5 m = five_digits m.
Proof.
  intros Hm. unfold sprintf_d, five_digits, digit_char.
  assert (Hfuel : forall k, 10 ^ Z.of_nat k <= m ->
                            (k <= Z.to_nat (Z.log2 m))%nat).
  { intros k Hk.
    assert (Z.of_nat k <= Z.log2 m); [|lia].
    apply Z.log2_le_pow2; [lia|].
    eapply Z.le_trans; [|exact Hk].
    apply Z.pow_le_mono_l. lia. }
  assert (D : forall a, 0 <= a -> (a / 10 =? 0) = (a <? 10)).
  { intros a Ha. destruct (a <? 10) eqn:E.
    - apply Z.eqb_eq, Z.div_small. apply Z.ltb_lt in E. lia.
    - apply Z.eqb_neq. apply Z.ltb_ge in E. intros Hd.
      pose proof (Z.div_mod a 10 ltac:(lia)).
      pose proof (Z.mod_pos_bound a 10 ltac:(lia)). lia. }
  assert (Q1 : 0 <= m / 10) by (apply Z.div_pos; lia).
  assert (Q2 : 0 <= m / 10 / 10) by (apply Z.div_pos; lia).
  assert (Q3 : 0 <= m / 10 / 10 / 10) by (apply Z.div_pos; lia).
  assert (Q4 : 0 <= m / 10 / 10 / 10 / 10) by (apply Z.div_pos; lia).
  pose proof (Z.div_mod m 10 ltac:(lia)) as E0.
  pose proof (Z.div_mod (m / 10) 10 ltac:(lia)) as E1.
  pose proof (Z.div_mod (m / 10 / 10) 10 ltac:(lia)) as E2.
  pose proof (Z.div_mod (m / 10 / 10 / 10) 10 ltac:(lia)) as E3.
  pose proof (Z.mod_pos_bound m 10 ltac:(lia)) as B0.
  pose proof (Z.mod_pos_bound (m / 10) 10 ltac:(lia)) as B1.
  pose proof (Z.mod_pos_bound (m / 10 / 10) 10 ltac:(lia)) as B2.
  pose proof (Z.mod_pos_bound (m / 10 / 10 / 10) 10 ltac:(lia)) as B3.
  destruct (Z_lt_le_dec m 10) as [L1|G1];
    [|destruct (Z_lt_le_dec m 100) as [L2|G2];
      [|destruct (Z_lt_le_dec m 1000) as [L3|G3];
        [|destruct (Z_lt_le_dec m 10000) as [L4|G4]]]].
  - rewrite (decimal_digits_fuel 0) by (cbn; lia).
    cbn [decimal_digits String.length repeat Nat.sub string_of_list_ascii append].
    replace (m / 10 / 10 / 10 / 10) with 0 by lia.
    replace ((m / 10 / 10 / 10) mod 10) with 0 by lia.
    replace ((m / 10 / 10) mod 10) with 0 by lia.
    replace ((m / 10) mod 10) with 0 by lia.
    reflexivity.
  - rewrite (decimal_digits_fuel 1) by (cbn; try apply Hfuel; cbn; lia).
    cbn [decimal_digits]. rewrite (D m) by lia.
    replace (m <? 10) with false by (symmetry; apply Z.ltb_ge; lia).
    cbn [String.length repeat Nat.sub string_of_list_ascii append].
    replace (m / 10 / 10 / 10 / 10) with 0 by lia.
    replace ((m / 10 / 10 / 10) mod 10) with 0 by lia.
    replace ((m / 10 / 10) mod 10) with 0 by lia.
    reflexivity.
  - rewrite (decimal_digits_fuel 2) by (cbn; try apply Hfuel; cbn; lia).
    cbn [decimal_digits]. rewrite (D m), (D (m / 10)) by lia.
    replace (m <? 10) with false by (symmetry; apply Z.ltb_ge; lia).
    replace (m / 10 <? 10) with false by (symmetry; apply Z.ltb_ge; lia).
    cbn [String.length repeat Nat.sub string_of_list_ascii append].
    replace (m / 10 / 10 / 10 / 10) with 0 by lia.
    replace ((m / 10 / 10 / 10) mod 10) with 0 by lia.
    reflexivity.
  - rewrite (decimal_digits_fuel 3) by (cbn; try apply Hfuel; cbn; lia).
    cbn [decimal_digits]. rewrite (D m), (D (m / 10)), (D (m / 10 / 10)) by lia.
    replace (m <? 10) with false by (symmetry; apply Z.ltb_ge; lia).
    replace (m / 10 <? 10) with false by (symmetry; apply Z.ltb_ge; lia).
    replace (m / 10 / 10 <? 10) with false by (symmetry; apply Z.ltb_ge; lia).
    cbn [String.length repeat Nat.sub string_of_list_ascii append].
    replace (m / 10 / 10 / 10 / 10) with 0 by lia.
    reflexivity.
  - rewrite (decimal_digits_fuel 4) by (cbn; try apply Hfuel; cbn; lia).
    cbn [decimal_digits].
    rewrite (D m), (D (m / 10)), (D (m / 10 / 10)), (D (m / 10 / 10 / 10)) by lia.
    replace (m <? 10) with false by (symmetry; apply Z.ltb_ge; lia).
    replace (m / 10 <? 10) with false by (symmetry; apply Z.ltb_ge; lia).
    replace (m / 10 / 10 <? 10) with false by (symmetry; apply Z.ltb_ge; lia).
    replace (m / 10 / 10 / 10 <? 10) with false by (symmetry; apply Z.ltb_ge; lia).
    cbn [String.length repeat Nat.sub string_of_list_ascii append].
    rewrite (Z.mod_small (m / 10 / 10 / 10 / 10) 10) by lia.
    reflexivity.
Qed.

Lemma substring_all s : substring 0 (String.length s) s = s.
Proof.
  induction s as [|ch s IH]; [reflexivity|].
  cbn [String.length substring]. rewrite IH. reflexivity.
Qed.

(** X8.  The nine digits that [subscriber2string] writes for a station
    mobile of type at most 7, relais at most 511 and number at most 65535
    are a valid station identity for [r2000_number_valid], and
    [string2subscriber] reads the same station mobile back from them. *)
Theorem subscriber_string_roundtrip type_bits relais_bits mor_bits t r m :
  3 <= type_bits -> 9 <= relais_bits -> 16 <= mor_bits ->
  0 <= t <= 7 -> 0 <= r <= 511 -> 0 <= m <= 65535 ->
  String.length (subscriber2string (mk_subscr t r m)) = 9%nat /\
  string2subscriber type_bits relais_bits mor_bits
    (subscriber2string (mk_subscr t r m)) = (0, mk_subscr t r m) /\
  r2000_number_valid (subscriber2string (mk_subscr t r m)) = None.
Proof.
  intros Htb Hrb Hmb Ht Hr Hm.
  assert (H1 : sprintf_d 1 t
               = String (ascii_of_N (Z.to_N (48 + t))) EmptyString
               /\ Cnetz.digit_value (ascii_of_N (Z.to_N (48 + t))) = t).
  { assert (E : t = 0 \/ t = 1 \/ t = 2 \/ t = 3 \/ t = 4 \/ t = 5 \/ t = 6 \/ t = 7)
      by lia.
    destruct E as [->|[->|[->|[->|[->|[->|[->| ->]]]]]]]; split; reflexivity. }
  destruct H1 as [E1 V1].
  pose proof (forallb_Z_seq _ _ _ digits3_all r ltac:(lia)) as H3.
  assert (L5 : String.length (sprintf_d 5 m) = 5%nat)
    by (rewrite sprintf_five_digits by lia; reflexivity).
  assert (A5 : Cnetz.atoi (sprintf_d 5 m) = m)
    by (rewrite sprintf_five_digits by lia; apply atoi_five_digits; lia).
  unfold digits3_ok in H3.
  destruct (sprintf_d 3 r) as [|a [|b [|c [|? ?]]]] eqn:E3; try discriminate.
  apply Z.eqb_eq in H3.
  assert (Es : subscriber2string (mk_subscr t r m)
               = String (ascii_of_N (Z.to_N (48 + t)))
                   (String a (String b (String c (sprintf_d 5 m))))).
  { unfold subscriber2string. cbn [s_type s_relais s_mor].
    rewrite E1, E3. reflexivity. }
  assert (Ek : Cnetz.str_skip 4 (subscriber2string (mk_subscr t r m))
               = sprintf_d 5 m).
  { rewrite Es. unfold Cnetz.str_skip. cbn [String.length].
    rewrite L5. cbn [Nat.sub substring].
    pose proof (substring_all (sprintf_d 5 m)) as Hs. rewrite L5 in Hs.
    exact Hs. }
  split; [rewrite Es; cbn [String.length]; rewrite L5; reflexivity|].
  split.
  - unfold string2subscriber. rewrite Ek, A5. rewrite Es.
    unfold Cnetz.char_at. cbn [String.get].
    rewrite V1, H3.
    assert (P3 : 2 ^ 3 <= 2 ^ type_bits) by (apply Z.pow_le_mono_r; lia).
    assert (P9 : 2 ^ 9 <= 2 ^ relais_bits) by (apply Z.pow_le_mono_r; lia).
    assert (P16 : 2 ^ 16 <= 2 ^ mor_bits) by (apply Z.pow_le_mono_r; lia).
    rewrite !Z.mod_small by lia. reflexivity.
  - unfold r2000_number_valid. rewrite Ek, A5. rewrite Es.
    unfold Cnetz.char_at. cbn [String.get].
    rewrite V1, H3.
    replace (7 <? t) with false by (symmetry; apply Z.ltb_ge; lia).
    replace (511 <? r) with false by (symmetry; apply Z.ltb_ge; lia).
    replace (65535 <? m) with false by (symmetry; apply Z.ltb_ge; lia).
    reflexivity.
Qed.

End RadiocomFacts.

(** The witness of X6: there is no band 2, and band 1 has no channel
    256. *)
Lemma channel2freq_unknown_witness :
  Radiocom.r2000_channel_exists 2 0 = false /\
  Radiocom.r2000_channel2freq 2 0 0 = 0%float.
Proof.
  split; [reflexivity|].
  apply (channel2freq_unknown 2 0 0). reflexivity.
Defined.

(** The witness of X7: the last channel of the UHF band. *)
Lemma channel2freq_nominal_witness :
  Radiocom.r2000_channel_exists 1 255 = true /\
  Radiocom.r2000_channel2freq 1 255 0 <> 0%float.
Proof.
  split; [reflexivity|].
  apply (channel2freq_nominal 1 255). reflexivity.
Defined.

(** The witness of X8: the largest station identity, 7 511 65535, with
    fields of 8, 16 and 16 bits. *)
Lemma subscriber_string_roundtrip_witness :
  Radiocom.subscriber2string (Radiocom.mk_subscr 7 511 65535) = "751165535"%string /\
  Radiocom.string2subscriber 8 16 16 "751165535" = (0, Radiocom.mk_subscr 7 511 65535).
Proof.
  split; [reflexivity|].
  apply (subscriber_string_roundtrip 8 16 16 7 511 65535); lia.
Defined.
